(** * Default values for Tryton fields: a model of [default_value.py]

    The module [default.value] stores, per field of any model, a default
    value as text, converts it to and from the typed views of the form
    ([get_value] / [set_value]) and installs, for every entry, a generated
    function [default_<field>] in the [_defaults] mapping of the target
    model ([set_default_values]).

    The development has these parts:
    - the text operations of the interpreter the code relies on ([str],
      [int], slices, [%02d] ...), in the module [PyText];
    - the values of the typed views (booleans, integers, [Decimal],
      [date], [datetime], [time] ...) and their texts;
    - the [exec] of the generated [def default_<field>()], and the
      [eval] of its name;
    - the records, the pool, and the methods of [DefaultValue] as state
      transformers;
    - the notions the statements use, and a small database;
    - facts about texts and numbers, then the properties of the methods
      and further properties of theirs, then the theorems on the small
      database.

    Conventions.  Text is a byte string ([str] of the interpreter the file
    is written for: it uses the [exec] statement).  Floating point numbers
    are not computed with: the type [float] and its two conversions are
    part of the interface [host], a parameter of all that follows it; so
    is what the interpreter does with a source that is not one of those
    the templates of [set_default_values] make from well-formed text. *)

From Stdlib Require Import ZArith NArith String Ascii List Lia Bool.
From Stdlib Require Import DecimalString DecimalZ DecimalN DecimalFacts.
From stdpp Require Import gmap strings list fin_maps.

Local Open Scope Z_scope.

(* ===================================================================== *)
(** * Text *)
(* ===================================================================== *)

Module PyText.

(** ** Characters *)

Definition is_digit (c : ascii) : bool :=
  let n := nat_of_ascii c in (48 <=? n)%nat && (n <=? 57)%nat.

Definition is_octal_digit (c : ascii) : bool :=
  let n := nat_of_ascii c in (48 <=? n)%nat && (n <=? 55)%nat.

(** [str.isspace] on bytes: space, tab, newline, vertical tab, form feed,
    carriage return. *)
Definition is_space (c : ascii) : bool :=
  let n := nat_of_ascii c in
  (n =? 32)%nat || ((9 <=? n)%nat && (n <=? 13)%nat).

(** Printable ASCII, the characters a one-line literal can hold as they
    are. *)
Definition is_printable (c : ascii) : bool :=
  let n := nat_of_ascii c in (32 <=? n)%nat && (n <=? 126)%nat.

(** ** Strings as sequences *)

Fixpoint str_all (p : ascii -> bool) (s : string) : bool :=
  match s with
  | EmptyString => true
  | String c s' => p c && str_all p s'
  end.

Fixpoint str_take (n : nat) (s : string) : string :=
  match n, s with
  | O, _ => EmptyString
  | S _, EmptyString => EmptyString
  | S n', String c s' => String c (str_take n' s')
  end.

Fixpoint str_drop (n : nat) (s : string) : string :=
  match n, s with
  | O, _ => s
  | S _, EmptyString => EmptyString
  | S n', String _ s' => str_drop n' s'
  end.

(** [s[a:b]] for literal bounds [0 <= a <= b]; like the interpreter, the
    slice is clipped to the string and never fails. *)
Definition py_slice (a b : nat) (s : string) : string :=
  str_take (b - a) (str_drop a s).

Fixpoint str_repeat (c : ascii) (n : nat) : string :=
  match n with
  | O => EmptyString
  | S n' => String c (str_repeat c n')
  end.

Fixpoint lstrip (s : string) : string :=
  match s with
  | String c s' => if is_space c then lstrip s' else s
  | EmptyString => EmptyString
  end.

Fixpoint rstrip (s : string) : string :=
  match s with
  | EmptyString => EmptyString
  | String c s' =>
      match rstrip s' with
      | EmptyString => if is_space c then EmptyString else String c EmptyString
      | r => String c r
      end
  end.

Definition strip (s : string) : string := rstrip (lstrip s).

(** [s.startswith(p)] and the rest of [s] after [p]. *)
Fixpoint after_prefix (p s : string) : option string :=
  match p, s with
  | EmptyString, _ => Some s
  | String a p', String b s' =>
      if Ascii.eqb a b then after_prefix p' s' else None
  | String _ _, EmptyString => None
  end.

(** The longest prefix of [s] whose characters satisfy [p], and the rest. *)
Fixpoint span (p : ascii -> bool) (s : string) : string * string :=
  match s with
  | String c s' =>
      if p c then let '(a, b) := span p s' in (String c a, b)
      else (EmptyString, s)
  | EmptyString => (EmptyString, EmptyString)
  end.

(** ** Integers and text *)

(** [str(n)] for an integer. *)
Definition str_of_Z (z : Z) : string := NilZero.string_of_int (Z.to_int z).

Definition str_of_N (n : N) : string := NilZero.string_of_uint (N.to_uint n).

(** The value of a non-empty run of decimal digits (leading zeros
    allowed), [None] for anything else. *)
Definition digits_value (s : string) : option N :=
  option_map N.of_uint (NilZero.uint_of_string s).

(** [int(s)]: surrounding white space, an optional sign, decimal digits.
    [None] stands for the [ValueError] of the interpreter. *)
Definition py_int (s : string) : option Z :=
  match strip s with
  | String "-" r => option_map (fun n => - Z.of_N n) (digits_value r)
  | String "+" r => option_map Z.of_N (digits_value r)
  | t => option_map Z.of_N (digits_value t)
  end.

(** [s.zfill(w)] for a run of digits. *)
Definition zfill (w : nat) (s : string) : string :=
  str_repeat "0" (w - String.length s) +:+ s.

(** ['%0wd' % n] for a natural number [n]. *)
Definition fmt_0d (w : nat) (n : Z) : string := zfill w (str_of_Z n).

(** ['%+d' % n]. *)
Definition fmt_plus_d (z : Z) : string :=
  if z <? 0 then str_of_Z z else String "+" (str_of_Z z).

End PyText.

Import PyText.

(* ===================================================================== *)
(** * Values of the typed views *)
(* ===================================================================== *)

(** ** Exceptions

    [ConversionError] stands for the error a failed conversion raises
    ([ValueError] of [int], [float], [date], [strptime];
    [InvalidOperation] of [Decimal]); the code does not tell them apart.
    [ValueError] is the one of unpacking an empty search result,
    [NameError] the one of reading a name that is not bound (of a local
    name, its subclass [UnboundLocalError]), [TypeError] the one of
    calling an object that is not a function, and [OtherError] any other
    error that the interpreter reports, by the name of its class. *)
Inductive py_error : Type :=
| ConversionError
| ValueError
| KeyError (key : string)
| AttributeError
| SyntaxError
| NameError (name : string)
| TypeError
| UserError (message : string) (arg : string)
| ConstraintError (constraint : string)
| RequiredError (field : string)
| OtherError (error : string).

(** ** [decimal.Decimal]

    A finite number is a sign, a coefficient written in decimal digits
    (the [_int] of the library, without superfluous leading zeros) and an
    exponent. *)
Inductive decimal : Type :=
| DFinite (neg : bool) (digits : string) (exp : Z)
| DInfinity (neg : bool)
| DNaN (neg : bool) (signaling : bool) (payload : string).

Definition sign_str (neg : bool) : string := if neg then "-" else "".

(** [Decimal.__str__]: plain notation when the exponent is not positive
    and at most six zeros would follow the point, scientific notation
    otherwise. *)
Definition dec_str (d : decimal) : string :=
  match d with
  | DInfinity neg => sign_str neg +:+ "Infinity"
  | DNaN neg false p => sign_str neg +:+ "NaN" +:+ p
  | DNaN neg true p => sign_str neg +:+ "sNaN" +:+ p
  | DFinite neg ds e =>
      let len := Z.of_nat (String.length ds) in
      let leftdigits := e + len in
      let dotplace := if (e <=? 0) && (-6 <? leftdigits) then leftdigits else 1 in
      let '(intpart, fracpart) :=
        if dotplace <=? 0 then
          ("0", "." +:+ str_repeat "0" (Z.to_nat (- dotplace)) +:+ ds)
        else if len <=? dotplace then
          (ds +:+ str_repeat "0" (Z.to_nat (dotplace - len)), "")
        else
          (str_take (Z.to_nat dotplace) ds,
           "." +:+ str_drop (Z.to_nat dotplace) ds) in
      let exp :=
        if leftdigits =? dotplace then ""
        else "E" +:+ fmt_plus_d (leftdigits - dotplace) in
      sign_str neg +:+ intpart +:+ fracpart +:+ exp
  end.

Definition to_lower (c : ascii) : ascii :=
  let n := nat_of_ascii c in
  if (65 <=? n)%nat && (n <=? 90)%nat then ascii_of_nat (n + 32) else c.

Fixpoint lower (s : string) : string :=
  match s with
  | EmptyString => EmptyString
  | String c s' => String (to_lower c) (lower s')
  end.

(** An optional sign in front of [s]: is it negative, and the rest. *)
Definition split_sign (s : string) : bool * string :=
  match s with
  | String "-" r => (true, r)
  | String "+" r => (false, r)
  | _ => (false, s)
  end.

(** The optional exponent part, up to the end of the text: the letter E,
    an optional sign and at least one digit. *)
Definition dec_exponent (s : string) : option Z :=
  match s with
  | EmptyString => Some 0
  | String c r =>
      if Ascii.eqb (to_lower c) "e" then
        let '(neg, ds) := split_sign r in
        option_map (fun n => if neg then - Z.of_N n else Z.of_N n)
                   (digits_value ds)
      else None
  end.

(** A numeral: digits, an optional point followed by digits, an optional
    exponent, with at least one digit before or after the point.  The
    result is the coefficient and the exponent. *)
Definition dec_numeral (s : string) : option (string * Z) :=
  let '(ip, r1) := span is_digit s in
  let '(fp, r2) :=
    match r1 with
    | String "." r => span is_digit r
    | _ => (EmptyString, r1)
    end in
  match digits_value (ip +:+ fp), dec_exponent r2 with
  | Some n, Some e => Some (str_of_N n, e - Z.of_nat (String.length fp))
  | _, _ => None
  end.

Fixpoint lstrip_zeros (s : string) : string :=
  match s with
  | String "0" r => lstrip_zeros r
  | _ => s
  end.

(** [Inf], [Infinity], [NaN<digits>], [sNaN<digits>], in any case. *)
Definition dec_special (neg : bool) (s : string) : option decimal :=
  let t := lower s in
  if String.eqb t "inf" || String.eqb t "infinity" then Some (DInfinity neg)
  else
    let '(signaling, r) :=
      match t with
      | String "s" r => (true, r)
      | _ => (false, t)
      end in
    match after_prefix "nan" r with
    | Some diag =>
        if str_all is_digit diag then
          let payload :=
            match digits_value diag with
            | Some n => lstrip_zeros (str_of_N n)
            | None => EmptyString
            end in
          Some (DNaN neg signaling payload)
        else None
    | None => None
    end.

(** [Decimal(s)]; [None] is [InvalidOperation]. *)
Definition dec_of_str (s : string) : option decimal :=
  let '(neg, u) := split_sign (strip s) in
  match dec_numeral u with
  | Some (ds, e) => Some (DFinite neg ds e)
  | None => dec_special neg u
  end.

(** ** [datetime.date], [datetime.time], [datetime.datetime] *)

Record date : Type := mk_date { year : Z; month : Z; day : Z }.

Record time : Type :=
  mk_time { hour : Z; minute : Z; second : Z; microsecond : Z }.

Record datetime : Type := mk_datetime { dt_date : date; dt_time : time }.

Definition is_leap (y : Z) : bool :=
  (y mod 4 =? 0) && (negb (y mod 100 =? 0) || (y mod 400 =? 0)).

Definition days_in_month (y m : Z) : Z :=
  if m =? 2 then (if is_leap y then 29 else 28)
  else if (m =? 4) || (m =? 6) || (m =? 9) || (m =? 11) then 30
  else 31.

Definition valid_date (d : date) : bool :=
  (1 <=? year d) && (year d <=? 9999) &&
  (1 <=? month d) && (month d <=? 12) &&
  (1 <=? day d) && (day d <=? days_in_month (year d) (month d)).

Definition valid_time (t : time) : bool :=
  (0 <=? hour t) && (hour t <? 24) &&
  (0 <=? minute t) && (minute t <? 60) &&
  (0 <=? second t) && (second t <? 60) &&
  (0 <=? microsecond t) && (microsecond t <? 1000000).

(** The constructors check their arguments; [None] is their
    [ValueError]. *)
Definition date_new (y m d : Z) : option date :=
  let r := mk_date y m d in if valid_date r then Some r else None.

Definition time_new (h m s : Z) : option time :=
  let r := mk_time h m s 0 in if valid_time r then Some r else None.

(** [str(d)] is [d.isoformat()]. *)
Definition date_str (d : date) : string :=
  fmt_0d 4 (year d) +:+ "-" +:+ fmt_0d 2 (month d) +:+ "-" +:+ fmt_0d 2 (day d).

(** [str(t)]: the microseconds are printed when they are not zero. *)
Definition time_str (t : time) : string :=
  fmt_0d 2 (hour t) +:+ ":" +:+ fmt_0d 2 (minute t) +:+ ":" +:+
  fmt_0d 2 (second t) +:+
  (if microsecond t =? 0 then "" else "." +:+ fmt_0d 6 (microsecond t)).

(** [str(dt)] is [dt.isoformat(' ')]. *)
Definition datetime_str (dt : datetime) : string :=
  date_str (dt_date dt) +:+ " " +:+ time_str (dt_time dt).

(** The truth value of a naive [time] in a condition: midnight is false
    (interpreters before 3.5). *)
Definition time_truthy (t : time) : bool :=
  negb ((hour t =? 0) && (minute t =? 0) && (second t =? 0) &&
        (microsecond t =? 0)).

(** ** [datetime.strptime] with the format of the module

    The library turns the format into a regular expression, one group of
    alternatives per directive, tried in the order they are written, and
    wants the match to cover the whole text. *)

Definition char_class : Type := ascii -> bool.

Definition between (a b : ascii) : char_class :=
  fun c => (nat_of_ascii a <=? nat_of_ascii c)%nat &&
           (nat_of_ascii c <=? nat_of_ascii b)%nat.

Definition exactly (a : ascii) : char_class := Ascii.eqb a.

Inductive re_item : Type :=
| Group (alternatives : list (list char_class))
| Lit (c : ascii)
| Spaces.

Fixpoint match_classes (cs : list char_class) (s : string)
  : option (string * string) :=
  match cs, s with
  | [], _ => Some (EmptyString, s)
  | p :: cs', String c s' =>
      if p c then
        match match_classes cs' s' with
        | Some (m, r) => Some (String c m, r)
        | None => None
        end
      else None
  | _ :: _, EmptyString => None
  end.

(** The alternatives of a group are tried in order; one is kept when the
    rest of the expression, [k], matches what follows it. *)
Fixpoint try_alternatives (alts : list (list char_class))
    (k : string -> option (list string * string)) (s : string)
  : option (list string * string) :=
  match alts with
  | [] => None
  | a :: alts' =>
      match match_classes a s with
      | Some (m, s') =>
          match k s' with
          | Some (caps, rem) => Some (m :: caps, rem)
          | None => try_alternatives alts' k s
          end
      | None => try_alternatives alts' k s
      end
  end.

(** One item, followed by [k].  [Spaces] takes the whole run of white
    space: no group that follows it starts with a blank, so a shorter run
    never helps. *)
Definition re_step (item : re_item)
    (k : string -> option (list string * string)) (s : string)
  : option (list string * string) :=
  match item with
  | Group alts => try_alternatives alts k s
  | Lit c =>
      match s with
      | String c' s' => if Ascii.eqb c c' then k s' else None
      | EmptyString => None
      end
  | Spaces =>
      match span is_space s with
      | (EmptyString, _) => None
      | (_, s') => k s'
      end
  end.

(** The captured groups and the text left over. *)
Fixpoint re_match (items : list re_item) (s : string)
  : option (list string * string) :=
  match items with
  | [] => Some ([], s)
  | item :: rest => re_step item (re_match rest) s
  end.

Definition re_Y : re_item :=
  Group [[is_digit; is_digit; is_digit; is_digit]].
Definition re_m : re_item :=
  Group [[exactly "1"; between "0" "2"]; [exactly "0"; between "1" "9"];
         [between "1" "9"]].
Definition re_d : re_item :=
  Group [[exactly "3"; between "0" "1"]; [between "1" "2"; is_digit];
         [exactly "0"; between "1" "9"]; [between "1" "9"];
         [exactly " "; between "1" "9"]].
Definition re_H : re_item :=
  Group [[exactly "2"; between "0" "3"]; [between "0" "1"; is_digit];
         [is_digit]].
Definition re_M : re_item :=
  Group [[between "0" "5"; is_digit]; [is_digit]].
Definition re_S : re_item :=
  Group [[exactly "6"; between "0" "1"]; [between "0" "5"; is_digit];
         [is_digit]].

(** The format ['%Y-%m-%d %H:%M:%S']. *)
Definition datetime_format : string := "%Y-%m-%d %H:%M:%S".

Definition datetime_regex : list re_item :=
  [re_Y; Lit "-"; re_m; Lit "-"; re_d; Spaces; re_H; Lit ":"; re_M;
   Lit ":"; re_S].

(** [datetime.strptime(s, '%Y-%m-%d %H:%M:%S')]; [None] is its
    [ValueError]: no match, text left over, or a date or a second out of
    range. *)
Definition strptime (s : string) : option datetime :=
  match re_match datetime_regex s with
  | Some ([tY; tm; td; tH; tM; tS], EmptyString) =>
      match py_int tY, py_int tm, py_int td, py_int tH, py_int tM, py_int tS with
      | Some y, Some mo, Some dd, Some h, Some mi, Some se =>
          match date_new y mo dd, time_new h mi se with
          | Some da, Some ti => Some (mk_datetime da ti)
          | _, _ => None
          end
      | _, _, _, _, _, _ => None
      end
  | _ => None
  end.

(** ** Results of a call *)

(** A call returns, raises, or leaves what is modelled here.  Every
    error that the interpreter reports is a [Raise].  [Unmodelled] is
    left for a run that goes on without an error where the model cannot
    follow it: a stored text that runs statements of its own, and the
    call of a function of which the source alone is known. *)
Inductive result (A : Type) : Type :=
| Ret (a : A)
| Raise (e : py_error)
| Unmodelled.

Arguments Ret {A} a.
Arguments Raise {A} e.
Arguments Unmodelled {A}.

(** What reading a piece of source gives: a term, a syntax error, or a
    text outside the fragment. *)
Inductive parsed (A : Type) : Type :=
| Parsed (a : A)
| BadSyntax
| Other.

Arguments Parsed {A} a.
Arguments BadSyntax {A}.
Arguments Other {A}.

Definition of_option {A : Type} (e : py_error) (o : option A) : result A :=
  match o with
  | Some a => Ret a
  | None => Raise e
  end.


(* ===================================================================== *)
(** * The objects in [_defaults] *)
(* ===================================================================== *)

(** [set_default_values] writes the source of a function

      def default_<field>():
          return <expression>

    runs it with [exec], and puts in [_defaults] what [eval] finds under
    the name [default_<field>].  A generated function is represented by
    the expression it returns; the expressions are the ones the
    templates of the method produce from well-formed stored text.
    [EOpaque] is an object of which the source alone is known: the
    function that a source outside of these defines.  [ERecord] and
    [ERecords] are not functions: they are the record [default_value] of
    the loop and the list [default_values], local names of the method
    that [eval] reads like the names [exec] has bound. *)
Inductive py_expr : Type :=
| ENone
| EBool (b : bool)
| EInt (z : Z)
| EFloat (literal : string)
| EStr (s : string)
| EDecimal (arg : string)
| EDate (y m d : Z)
| EStrptime (arg : string)
| ETime (h m s : Z)
| EOpaque (source : string)
| ERecord (id : Z)
| ERecords (ids : list Z).

(* ===================================================================== *)
(** * The host *)
(* ===================================================================== *)

(** What the interpreter does with a text that is not one of the
    fragment modelled here: it raises an error, or it goes through and
    gives a result, or it does more than that ([Escapes]: a stored text
    with a line break in it can hold statements of its own). *)
Inductive beyond (A : Type) : Type :=
| Fails (e : py_error)
| Gives (a : A)
| Escapes.

Arguments Fails {A} e.
Arguments Gives {A} a.
Arguments Escapes {A}.

(** The interpreter, where it is not computed: the floating point
    numbers, with [str(f)], [float(s)] ([None] is its [ValueError]) and
    [0.0]; [exec] of a source outside the fragment, which gives the name
    it binds to a function; and [eval] of a text that is not a name, in
    the names that are bound. *)
Class host : Type := {
  float : Type;
  float_str : float -> string;
  float_of_str : string -> option float;
  float_zero : float;
  exec_beyond : string -> beyond string;
  eval_beyond : string -> gmap string py_expr -> beyond unit
}.

Section Host.

Context {H : host}.

Inductive pyval : Type :=
| PNone
| PBool (b : bool)
| PInt (z : Z)
| PFloat (f : float)
| PStr (s : string)
| PDecimal (d : decimal)
| PDate (d : date)
| PDateTime (dt : datetime)
| PTime (t : time).

(** [str(v)]. *)
Definition py_str (v : pyval) : string :=
  match v with
  | PNone => "None"
  | PBool true => "True"
  | PBool false => "False"
  | PInt z => str_of_Z z
  | PFloat f => float_str f
  | PStr s => s
  | PDecimal d => dec_str d
  | PDate d => date_str d
  | PDateTime dt => datetime_str dt
  | PTime t => time_str t
  end.

(** [v != None]. *)
Definition is_not_none (v : pyval) : bool :=
  match v with
  | PNone => false
  | _ => true
  end.

(** ['%s' % value] for the stored text, which is [None] when the column
    is empty. *)
Definition fmt_s (value : option string) : string :=
  match value with
  | Some s => s
  | None => "None"
  end.

(** The truth value of the stored text in a condition. *)
Definition truthy (value : option string) : bool :=
  match value with
  | Some (String _ _) => true
  | _ => false
  end.

(* ===================================================================== *)
(** * The generated functions *)
(* ===================================================================== *)

Fixpoint octal_value (acc : N) (s : string) : N :=
  match s with
  | EmptyString => acc
  | String c s' => octal_value (acc * 8 + N.of_nat (nat_of_ascii c - 48))%N s'
  end.

(** An integer literal of the language the module is written in: a
    literal that starts with [0] is octal, and is not well formed when one
    of its digits is 8 or 9. *)
Definition int_literal (s : string) : parsed Z :=
  match s with
  | EmptyString => Other
  | String c r =>
      if str_all is_digit s then
        if Ascii.eqb c "0" then
          if str_all is_octal_digit r then Parsed (Z.of_N (octal_value 0 r))
          else BadSyntax
        else
          match digits_value s with
          | Some n => Parsed (Z.of_N n)
          | None => Other
          end
      else Other
  end.

(** A floating point literal: digits with a point, or with an exponent. *)
Definition is_float_literal (s : string) : bool :=
  let '(ip, r1) := span is_digit s in
  let '(has_point, fp, r2) :=
    match r1 with
    | String "." r => let '(fp, r2) := span is_digit r in (true, fp, r2)
    | _ => (false, EmptyString, r1)
    end in
  let mantissa_ok :=
    if has_point then negb (String.eqb ip "" && String.eqb fp "")
    else negb (String.eqb ip "") in
  match r2 with
  | EmptyString => mantissa_ok && has_point
  | String c r =>
      mantissa_ok && Ascii.eqb (to_lower c) "e" &&
      (let '(_, ds) := split_sign r in
       negb (String.eqb ds "") && str_all is_digit ds)
  end.

(** The characters a quoted literal holds as they are: printable, no
    quote, no backslash. *)
Definition is_plain (c : ascii) : bool :=
  is_printable c && negb (Ascii.eqb c "'") && negb (Ascii.eqb c "\").

Definition is_plain_text (s : string) : bool := str_all is_plain s.

(** [s] without the suffix [q], when it ends with it. *)
Fixpoint before_suffix (q s : string) : option string :=
  if String.eqb s q then Some EmptyString
  else
    match s with
    | EmptyString => None
    | String c s' =>
        match before_suffix q s' with
        | Some r => Some (String c r)
        | None => None
        end
    end.

(** The text between [open] and [close], when [s] is so enclosed. *)
Definition enclosed (open close s : string) : option string :=
  match after_prefix open s with
  | Some r => before_suffix close r
  | None => None
  end.

(** The text before the first [", "] and the text after it. *)
Fixpoint split_comma (s : string) : option (string * string) :=
  match s with
  | EmptyString => None
  | String c s' =>
      match after_prefix ", " s with
      | Some r => Some (EmptyString, r)
      | None =>
          match split_comma s' with
          | Some (a, b) => Some (String c a, b)
          | None => None
          end
      end
  end.

(** Three integer literals separated by [", "]. *)
Definition three_ints (s : string) : parsed (Z * Z * Z) :=
  match split_comma s with
  | Some (a, r) =>
      match split_comma r with
      | Some (b, c) =>
          if str_all is_digit a && str_all is_digit b && str_all is_digit c
          then
            match int_literal a, int_literal b, int_literal c with
            | Parsed x, Parsed y, Parsed z => Parsed (x, y, z)
            | Other, _, _ | _, Other, _ | _, _, Other => Other
            | _, _, _ => BadSyntax
            end
          else Other
      | None => Other
      end
  | None => Other
  end.

Definition strptime_tail : string := "', '%Y-%m-%d %H:%M:%S')".

(** A minus sign in front of [s]: is there one, and the rest. *)
Definition split_minus (s : string) : bool * string :=
  match s with
  | String "-" r => (true, r)
  | _ => (false, s)
  end.

(** The expression of a [return] statement. *)
Definition parse_expr (t : string) : parsed py_expr :=
  if negb (str_all is_printable t) then Other
  else
    let u := strip t in
    if String.eqb u "" then Parsed ENone
    else if String.eqb u "None" then Parsed ENone
    else if String.eqb u "True" then Parsed (EBool true)
    else if String.eqb u "False" then Parsed (EBool false)
    else
      let '(neg, w) := split_minus u in
      match int_literal w with
      | Parsed z => Parsed (EInt (if neg then - z else z))
      | BadSyntax => BadSyntax
      | Other =>
          if is_float_literal w then Parsed (EFloat u)
          else if neg then Other
          else
            match enclosed "'" "'" u with
            | Some s => if is_plain_text s then Parsed (EStr s) else Other
            | None =>
            match enclosed "Decimal('" "')" u with
            | Some s => if is_plain_text s then Parsed (EDecimal s) else Other
            | None =>
            match enclosed "datetime.strptime('" strptime_tail u with
            | Some s => if is_plain_text s then Parsed (EStrptime s) else Other
            | None =>
            match enclosed "date(" ")" u with
            | Some s =>
                match three_ints s with
                | Parsed (y, m, d) => Parsed (EDate y m d)
                | BadSyntax => BadSyntax
                | Other => Other
                end
            | None =>
            match enclosed "time(" ")" u with
            | Some s =>
                match three_ints s with
                | Parsed (h, m, d) => Parsed (ETime h m d)
                | BadSyntax => BadSyntax
                | Other => Other
                end
            | None => Other
            end end end end end
      end.

Definition is_ident_char (c : ascii) : bool :=
  let n := nat_of_ascii c in
  is_digit c || (n =? 95)%nat ||
  ((65 <=? n)%nat && (n <=? 90)%nat) || ((97 <=? n)%nat && (n <=? 122)%nat).

Definition newline : string := String (ascii_of_nat 10) EmptyString.

(** What follows the name in the source of a generated function. *)
Definition def_tail : string := "():" +:+ newline +:+ "    return ".

(** The source of one function, read in the fragment: the name it binds
    and the function. *)
Definition py_exec (src : string) : parsed (string * py_expr) :=
  match after_prefix "def " src with
  | Some r =>
      let '(name, r') := span is_ident_char r in
      match name, after_prefix def_tail r' with
      | String c _, Some t =>
          if is_digit c then Other
          else
            match parse_expr t with
            | Parsed e => Parsed (name, e)
            | BadSyntax => BadSyntax
            | Other => Other
            end
      | _, _ => Other
      end
  | None => Other
  end.

(** [exec src]: the name that is bound, and the object under it.  A
    source of the fragment binds its function; of another source the
    host tells what becomes of it. *)
Definition exec_source (src : string) : result (string * py_expr) :=
  match py_exec src with
  | Parsed bound => Ret bound
  | BadSyntax => Raise SyntaxError
  | Other =>
      match exec_beyond src with
      | Fails e => Raise e
      | Gives name => Ret (name, EOpaque src)
      | Escapes => Unmodelled
      end
  end.

(** [eval(text)] in the names [ns]: a name is looked up; of another text
    the host tells what becomes of it. *)
Definition py_eval (ns : gmap string py_expr) (text : string)
  : result py_expr :=
  if str_all is_ident_char text then of_option (NameError text) (ns !! text)
  else
    match eval_beyond text ns with
    | Fails e => Raise e
    | Gives _ => Ret (EOpaque text)
    | Escapes => Unmodelled
    end.

(** Calling an object of [_defaults]. *)
Definition py_call (f : py_expr) : result pyval :=
  match f with
  | ENone => Ret PNone
  | EBool b => Ret (PBool b)
  | EInt z => Ret (PInt z)
  | EFloat t =>
      match float_of_str t with
      | Some x => Ret (PFloat x)
      | None => Unmodelled
      end
  | EStr s => Ret (PStr s)
  | EDecimal s => of_option ConversionError (option_map PDecimal (dec_of_str s))
  | EDate y m d => of_option ConversionError (option_map PDate (date_new y m d))
  | EStrptime s => of_option ConversionError (option_map PDateTime (strptime s))
  | ETime h m s => of_option ConversionError (option_map PTime (time_new h m s))
  | EOpaque _ => Unmodelled
  | ERecord _ | ERecords _ => Raise TypeError
  end.

(* ===================================================================== *)
(** * Records, pool and state *)
(* ===================================================================== *)

(** A record of [ir.model]: [model] is the name of the model in the pool. *)
Record ir_model : Type := { m_id : Z; m_model : string }.

(** A record of [ir.model.field]. *)
Record ir_model_field : Type := {
  f_id : Z;
  f_name : string;
  f_ttype : string;
  f_model : Z;
  f_relation : string
}.

(** An instance of [default.value]: the columns [model], [field] and
    [default_value]; the other fields are computed.  [model] and [field]
    are required of a stored record and may be missing on an instance
    that is not saved. *)
Record entry : Type := {
  e_id : Z;
  e_model : option Z;
  e_field : option Z;
  e_default_value : option string
}.

(** The attribute [selection] of a field: a list of options, each a
    value and a label, or the name of a method that returns them. *)
Inductive choices : Type :=
| Options (options : list (pyval * string))
| Method (name : string).

(** A field of a model class: is it a [fields.Function], and its
    [selection], when it has one. *)
Record field_def : Type := {
  fd_functional : bool;
  fd_selection : option choices
}.

(** A model class of the pool: the names of its attributes (for
    [hasattr]), [_fields], [_defaults] and its records as [search([])]
    returns them, with their [rec_name]. *)
Record model_class : Type := {
  mc_attrs : list string;
  mc_fields : gmap string field_def;
  mc_defaults : gmap string py_expr;
  mc_records : list (Z * string)
}.

Record state : Type := {
  ir_models : list ir_model;
  ir_fields : list ir_model_field;
  pool : gmap string model_class;
  table : list entry;
  next_id : Z;
  log : list string
}.

Definition with_pool (st : state) (p : gmap string model_class) : state :=
  {| ir_models := ir_models st; ir_fields := ir_fields st; pool := p;
     table := table st; next_id := next_id st; log := log st |}.

Definition with_table (st : state) (t : list entry) : state :=
  {| ir_models := ir_models st; ir_fields := ir_fields st; pool := pool st;
     table := t; next_id := next_id st; log := log st |}.

Definition with_log (st : state) (l : list string) : state :=
  {| ir_models := ir_models st; ir_fields := ir_fields st; pool := pool st;
     table := table st; next_id := next_id st; log := l |}.

Definition with_defaults (mc : model_class) (d : gmap string py_expr)
  : model_class :=
  {| mc_attrs := mc_attrs mc; mc_fields := mc_fields mc; mc_defaults := d;
     mc_records := mc_records mc |}.

(** ** Reading records *)

Definition find_model (st : state) (i : Z) : option ir_model :=
  find (fun m => m_id m =? i) (ir_models st).

Definition find_field (st : state) (i : Z) : option ir_model_field :=
  find (fun f => f_id f =? i) (ir_fields st).

Definition find_entry (st : state) (i : Z) : option entry :=
  find (fun e => e_id e =? i) (table st).

(** [self.field] and [self.model]. *)
Definition entry_field (st : state) (self : entry) : option ir_model_field :=
  match e_field self with
  | Some i => find_field st i
  | None => None
  end.

Definition entry_model (st : state) (self : entry) : option ir_model :=
  match e_model self with
  | Some i => find_model st i
  | None => None
  end.

(** ** Calls on the state *)

Definition M (A : Type) : Type := state -> result A * state.

Definition ret {A : Type} (a : A) : M A := fun st => (Ret a, st).

Definition raise {A : Type} (e : py_error) : M A := fun st => (Raise e, st).

Definition bind {A B : Type} (m : M A) (k : A -> M B) : M B :=
  fun st =>
    match m st with
    | (Ret a, st') => k a st'
    | (Raise e, st') => (Raise e, st')
    | (Unmodelled, st') => (Unmodelled, st')
    end.

Definition lift {A : Type} (r : result A) : M A := fun st => (r, st).

Definition get_state : M state := fun st => (Ret st, st).

Definition put_state (st : state) : M unit := fun _ => (Ret tt, st).

Notation "'do' x <- m 'in' k" := (bind m (fun x => k))
  (at level 10, x name, m at level 100, k at level 200).
Notation "'do_' m 'in' k" := (bind m (fun _ => k))
  (at level 10, m at level 100, k at level 200).

(** [for x in l: body(x)]. *)
Fixpoint for_each {A : Type} (l : list A) (body : A -> M unit) : M unit :=
  match l with
  | [] => ret tt
  | x :: l' => do_ body x in for_each l' body
  end.

(* ===================================================================== *)
(** * The methods of [DefaultValue] *)
(* ===================================================================== *)

(** The kinds of field that an entry can be for. *)
Definition _FIELD_TYPES : list string :=
  ["boolean"; "char"; "integer"; "text"; "float"; "numeric"; "date";
   "datetime"; "time"; "many2one"; "selection"; "reference"].

Definition member (x : string) (l : list string) : bool :=
  existsb (String.eqb x) l.


(** [on_change_with_field_type]: the [ttype] of the field, or [None]. *)
Definition on_change_with_field_type (st : state) (self : entry)
  : option string :=
  match entry_field st self with
  | Some f => Some (f_ttype f)
  | None => None
  end.

(** The stored text as a value: a string, or [None]. *)
Definition stored (value : option string) : pyval :=
  match value with
  | Some s => PStr s
  | None => PNone
  end.

Definition value_text (value : option string) : string :=
  match value with
  | Some s => s
  | None => EmptyString
  end.

Definition is_type (ft : option string) (name : string) : bool :=
  match ft with
  | Some t => String.eqb t name
  | None => false
  end.

(** [get_value(self, name)], the getter of the twelve typed fields. *)
Definition get_value (st : state) (self : entry) (name : string)
  : result pyval :=
  if is_type (on_change_with_field_type st self) name then
    let value := e_default_value self in
    let text := value_text value in
    if String.eqb name "boolean" then
      Ret (PBool (if value is Some v then String.eqb v "True" else false))
    else if String.eqb name "integer" then
      if truthy value
      then of_option ConversionError (option_map PInt (py_int text))
      else Ret (PInt 0)
    else if String.eqb name "float" then
      if truthy value
      then of_option ConversionError (option_map PFloat (float_of_str text))
      else Ret (PFloat float_zero)
    else if String.eqb name "numeric" then
      if truthy value
      then of_option ConversionError (option_map PDecimal (dec_of_str text))
      else Ret (PDecimal (DFinite false "0" (-1)))
    else if String.eqb name "date" then
      if truthy value then
        match py_int (py_slice 0 4 text), py_int (py_slice 5 7 text),
              py_int (str_drop 8 text) with
        | Some y, Some m, Some d =>
            of_option ConversionError (option_map PDate (date_new y m d))
        | _, _, _ => Raise ConversionError
        end
      else Ret PNone
    else if String.eqb name "datetime" then
      if truthy value
      then of_option ConversionError (option_map PDateTime (strptime text))
      else Ret PNone
    else if String.eqb name "time" then
      if truthy value then
        match py_int (py_slice 0 2 text), py_int (py_slice 3 5 text),
              py_int (str_drop 6 text) with
        | Some h, Some m, Some s =>
            match time_new h m s with
            | Some t => Ret (if time_truthy t then PTime t else PNone)
            | None => Raise ConversionError
            end
        | _, _, _ => Raise ConversionError
        end
      else Ret PNone
    else Ret (stored value)
  else Ret PNone.

(** The option of a record of the related model: its id as text, and its
    name. *)
Definition record_option (r : Z * string) : pyval * string :=
  (PStr (str_of_Z (fst r)), snd r).

(** An element of the list that [get_selection_values] returns: an
    option, or a string of one character. *)
Inductive item : Type :=
| Pair (option : pyval * string)
| Single (c : ascii).

(** [list.extend(x)] for the attribute [selection] of a field: the
    options of a list; of a string, its characters, one by one. *)
Definition extended (x : choices) : list item :=
  match x with
  | Options options => map Pair options
  | Method name => map Single (list_ascii_of_string name)
  end.

(** [get_selection_values(self)]: the options of the [selection] and
    [many2one] views. *)
Definition get_selection_values (st : state) (self : entry)
  : result (list item) :=
  let selection := [Pair (PNone, EmptyString)] in
  match entry_field st self with
  | Some field =>
      match find_model st (f_model field) with
      | Some model =>
          if is_type (on_change_with_field_type st self) "selection" then
            match pool st !! m_model model with
            | Some Model =>
                match mc_fields Model !! f_name field with
                | Some fd =>
                    match fd_selection fd with
                    | Some x => Ret (selection ++ extended x)
                    | None => Raise AttributeError
                    end
                | None => Raise (KeyError (f_name field))
                end
            | None => Raise (KeyError (m_model model))
            end
          else if is_type (on_change_with_field_type st self) "many2one" then
            match pool st !! f_relation field with
            | Some Model =>
                Ret (selection
                     ++ map Pair (map record_option (mc_records Model)))
            | None => Raise (KeyError (f_relation field))
            end
          else Ret selection
      | None => Ret selection
      end
  | None => Ret selection
  end.

(** ** The table, as [ModelSQL] keeps it

    The class declares one constraint, [default_uniq]: [Unique(t,
    t.field)]; [model] and [field] are [required], and [field] has a
    [domain], against which the records are validated at the end of a
    [create], and at the end of a [write] that gives a model or a
    field. *)

Definition default_uniq (t : list entry) : bool :=
  bool_decide (NoDup (omap e_field t)).

(** The values of one [create] or [write]: the columns that are given,
    and the typed fields that are given, with their values. *)
Record values : Type := {
  v_model : option Z;
  v_field : option Z;
  v_default_value : option (option string);
  v_typed : list (string * pyval)
}.

Definition sql_insert (v : values) : M Z :=
  fun st =>
    match v_model v, v_field v with
    | None, _ => (Raise (RequiredError "model"), st)
    | _, None => (Raise (RequiredError "field"), st)
    | Some m, Some f =>
        let row := {| e_id := next_id st; e_model := Some m;
                      e_field := Some f;
                      e_default_value :=
                        if v_default_value v is Some d then d else None |} in
        let t := table st ++ [row] in
        if default_uniq t then
          (Ret (next_id st),
           {| ir_models := ir_models st; ir_fields := ir_fields st;
              pool := pool st; table := t; next_id := next_id st + 1;
              log := log st |})
        else (Raise (ConstraintError "default_uniq"), st)
    end.

Definition update_row (v : values) (e : entry) : entry :=
  {| e_id := e_id e;
     e_model := if v_model v is Some m then Some m else e_model e;
     e_field := if v_field v is Some f then Some f else e_field e;
     e_default_value :=
       if v_default_value v is Some d then d else e_default_value e |}.

Definition has_id (ids : list Z) (e : entry) : bool :=
  existsb (Z.eqb (e_id e)) ids.

Definition sql_update (ids : list Z) (v : values) : M unit :=
  fun st =>
    let t := map (fun e => if has_id ids e then update_row v e else e)
                 (table st) in
    if default_uniq t then (Ret tt, with_table st t)
    else (Raise (ConstraintError "default_uniq"), st).

(** The [domain] of [field]: the field is one of the model of the
    record ([Eval('model', 0)]), and its kind is one of [_FIELD_TYPES]. *)
Definition in_domain_of_field (st : state) (self : entry) : bool :=
  match e_field self with
  | Some fid =>
      match find_field st fid with
      | Some field =>
          (f_model field =? default 0 (e_model self))
          && member (f_ttype field) _FIELD_TYPES
      | None => false
      end
  | None => true
  end.

Definition sql_delete (ids : list Z) : M unit :=
  fun st => (Ret tt, with_table st (filter (fun e => negb (has_id ids e))
                                           (table st))).

(** Reading a record by its id. *)
Definition browse (i : Z) : M entry :=
  fun st => (of_option (KeyError "id") (find_entry st i), st).

(** [pool.get(name)]. *)
Definition pool_get (name : string) : M model_class :=
  fun st => (of_option (KeyError name) (pool st !! name), st).

(** The validation of the records [ids] against the domain of [field]. *)
Definition validate (ids : list Z) : M unit :=
  for_each ids (fun i =>
    do self <- browse i in
    do st <- get_state in
    if in_domain_of_field st self then ret tt
    else raise (UserError "domain_validation_record" "field")).

(** [Model._defaults[name] = f] and [del Model._defaults[name]] on the
    class [model] of the pool. *)
Definition set_default (model name : string) (f : py_expr) : M unit :=
  fun st =>
    match pool st !! model with
    | Some Model =>
        (Ret tt,
         with_pool st (<[model := with_defaults Model
                                    (<[name := f]> (mc_defaults Model))]>
                         (pool st)))
    | None => (Raise (KeyError model), st)
    end.

Definition del_default (model name : string) : M unit :=
  fun st =>
    match pool st !! model with
    | Some Model =>
        (Ret tt,
         with_pool st (<[model := with_defaults Model
                                    (delete name (mc_defaults Model))]>
                         (pool st)))
    | None => (Raise (KeyError model), st)
    end.

(** ** [set_default_values] *)

Definition def_head (field_name : string) : string :=
  "def default_" +:+ field_name +:+ def_tail.

(** The source the method writes for one record, [None] when no branch
    assigns [def_default_function]. *)
Definition default_source (field_type : option string) (field_name : string)
    (value : option string) : option string :=
  match field_type with
  | None => None
  | Some ft =>
      let text := value_text value in
      if member ft ["char"; "text"; "selection"; "reference"] then
        Some (def_head field_name +:+ "'" +:+ fmt_s value +:+ "'")
      else if member ft ["boolean"; "integer"; "float"; "many2one"] then
        Some (def_head field_name +:+ fmt_s value)
      else if String.eqb ft "numeric" then
        Some (def_head field_name +:+ "Decimal('" +:+ fmt_s value +:+ "')")
      else if String.eqb ft "date" then
        if truthy value then
          Some (def_head field_name +:+ "date(" +:+ py_slice 0 4 text +:+ ", "
                +:+ py_slice 5 7 text +:+ ", " +:+ str_drop 8 text +:+ ")")
        else None
      else if String.eqb ft "datetime" then
        if truthy value then
          Some (def_head field_name +:+ "datetime.strptime('" +:+ text
                +:+ "', '" +:+ datetime_format +:+ "')")
        else None
      else if String.eqb ft "time" then
        if truthy value then
          Some (def_head field_name +:+ "time(" +:+ py_slice 0 2 text +:+ ", "
                +:+ py_slice 3 5 text +:+ ", " +:+ str_drop 6 text +:+ ")")
        else None
      else None
  end.

(** The local names of one run of the method: [def_default_function],
    unbound at first, and the names that [eval] can find, which are
    those that start with [default_]: the functions that [exec] has
    defined, the list [default_values] and the record [default_value] of
    the loop.  (The method has an [exec] without [in]: its local names
    are the names that [exec] binds and that [eval] reads.) *)
Record locals : Type := {
  def_default_function : option string;
  defined : gmap string py_expr
}.

(** The body of the loop, for the record [i]. *)
Definition install (loc : locals) (i : Z) : M locals :=
  do self <- browse i in
  do st <- get_state in
  do model <- lift (of_option AttributeError (entry_model st self)) in
  do _ <- pool_get (m_model model) in
  do field <- lift (of_option AttributeError (entry_field st self)) in
  let field_name := f_name field in
  let field_type := on_change_with_field_type st self in
  let value := e_default_value self in
  let def :=
    match default_source field_type field_name value with
    | Some src => Some src
    | None => def_default_function loc
    end in
  match def with
  | None => raise (NameError "def_default_function")
  | Some src =>
      do bound <- lift (exec_source src) in
      let ns :=
        <[fst bound := snd bound]>
          (<["default_value" := ERecord i]> (defined loc)) in
      do g <- lift (py_eval ns ("default_" +:+ field_name)) in
      do_ set_default (m_model model) field_name g in
      ret {| def_default_function := def; defined := ns |}
  end.

Fixpoint install_all (loc : locals) (ids : list Z) : M locals :=
  match ids with
  | [] => ret loc
  | i :: ids' => do loc' <- install loc i in install_all loc' ids'
  end.

(** The local names when the loop starts. *)
Definition first_locals (default_values : list Z) : locals :=
  {| def_default_function := None;
     defined := {["default_values" := ERecords default_values]} |}.

(** [set_default_values(default_values)]; the empty list stands for the
    default [None] as well: both are false in [if not default_values]. *)
Definition set_default_values (default_values : list Z) : M unit :=
  do st <- get_state in
  let records :=
    match default_values with
    | [] => map e_id (table st)
    | _ => default_values
    end in
  do _ <- install_all (first_locals records) records in
  ret tt.

(** ** [write], [set_value], [create], [delete] *)

(** The values give a model or a field. *)
Definition gives_ref (v : values) : bool :=
  match v_model v, v_field v with
  | None, None => false
  | _, _ => true
  end.

(** [write], called with actions (records, values), with the setter of
    the typed fields as a parameter:
    [super().write] updates the columns, calls the setter for every
    typed field among the values, and validates the records when a model
    or a field was given; the method then installs the defaults of the
    records of each action. *)
Definition write_with (setter : list Z -> string -> pyval -> M unit)
    (args : list (list Z * values)) : M unit :=
  do_ for_each args (fun a => sql_update (fst a) (snd a)) in
  do_ for_each args (fun a =>
        for_each (v_typed (snd a))
                 (fun nv => setter (fst a) (fst nv) (snd nv))) in
  do_ (if existsb (fun a => gives_ref (snd a)) args
       then validate (concat (map fst args)) else ret tt) in
  for_each args (fun a => set_default_values (fst a)).

Definition only_default_value (d : option string) : values :=
  {| v_model := None; v_field := None; v_default_value := Some d;
     v_typed := [] |}.

(** [record.save()] after [record.default_value = d]: a [write] of that
    one column, which calls no setter. *)
Definition save (i : Z) (d : option string) : M unit :=
  write_with (fun _ _ _ => ret tt) [([i], only_default_value d)].

(** The body of the loop of [set_value], for the record [i]. *)
Definition set_value_one (name : string) (value : pyval) (i : Z) : M unit :=
  do self <- browse i in
  do st <- get_state in
  if is_type (on_change_with_field_type st self) name && is_not_none value
  then save i (Some (py_str value))
  else ret tt.

(** [set_value(default_values, name, value)], the setter of the twelve
    typed fields. *)
Definition set_value (default_values : list Z) (name : string)
    (value : pyval) : M unit :=
  for_each default_values (set_value_one name value).

Definition write (args : list (list Z * values)) : M unit :=
  write_with set_value args.

(** The checks of [create] on one row. *)
Definition check_row (v : values) : M unit :=
  do st <- get_state in
  do fid <- lift (of_option (KeyError "field") (v_field v)) in
  do field <- lift (of_option ValueError (find_field st fid)) in
  do m <- lift (of_option AttributeError (find_model st (f_model field))) in
  do model <- pool_get (m_model m) in
  if member ("default_" +:+ f_name field) (mc_attrs model) then
    raise (UserError "field_has_default_value" (f_name field))
  else
    match mc_fields model !! f_name field with
    | Some fd =>
        if fd_functional fd
        then raise (UserError "field_is_functional" (f_name field))
        else ret tt
    | None => raise (KeyError (f_name field))
    end.

Fixpoint insert_all (vlist : list values) : M (list Z) :=
  match vlist with
  | [] => ret []
  | v :: vlist' =>
      do i <- sql_insert v in
      do ids <- insert_all vlist' in
      ret (i :: ids)
  end.

(** The setters of the typed fields among the values of the new record
    [fst iv]. *)
Definition set_typed (iv : Z * values) : M unit :=
  for_each (v_typed (snd iv))
           (fun nv => set_value [fst iv] (fst nv) (snd nv)).

(** [super().create(vlist)]: the rows are inserted, the setter is
    called for every typed field among the values of a row, and the new
    records are validated. *)
Definition modelsql_create (vlist : list values) : M (list Z) :=
  do ids <- insert_all vlist in
  do_ for_each (combine ids vlist) set_typed in
  do_ validate ids in
  ret ids.

Definition create (vlist : list values) : M (list Z) :=
  do_ for_each vlist check_row in
  modelsql_create vlist.

(** The body of the loop of [delete], for the record [i]. *)
Definition delete_one (i : Z) : M unit :=
  do self <- browse i in
  do st <- get_state in
  do model <- lift (of_option AttributeError (entry_model st self)) in
  do Model <- pool_get (m_model model) in
  do field <- lift (of_option AttributeError (entry_field st self)) in
  match mc_defaults Model !! f_name field with
  | Some _ => del_default (m_model model) (f_name field)
  | None => ret tt
  end.

Definition delete (default_values : list Z) : M unit :=
  do_ for_each default_values delete_one in
  sql_delete default_values.

(** ** [load_default_values]

    The thread started by [__post_setup__] runs this method once; the
    pause before it and the transaction around it are not part of the
    state.  The [except] of the method has no class: it catches every
    error, which is every [Raise]. *)
Definition warning : string :=
  "Error loading default values. Try reload them again by restarting the server".

Definition load_default_values : M unit :=
  fun st =>
    match set_default_values [] st with
    | (Ret _, st') => (Ret tt, st')
    | (Raise _, st') => (Ret tt, with_log st' (log st' ++ [warning]))
    | (Unmodelled, st') => (Unmodelled, st')
    end.

(** A request runs in a transaction: when it raises, the table is as it
    was before; the pool, which lives in memory, keeps what was done to
    it. *)
Definition transaction {A : Type} (m : M A) : M A :=
  fun st =>
    match m st with
    | (Ret a, st') => (Ret a, st')
    | (r, st') => (r, with_table st' (table st))
    end.

End Host.

(* ===================================================================== *)
(** * Notions for the statements *)
(* ===================================================================== *)

(** ** Texts *)

Definition is_ascii (c : ascii) : bool := (nat_of_ascii c <? 128)%nat.

Definition padded_ok (w : nat) (n : Z) : bool :=
  let s := fmt_0d w n in
  (String.length s =? w)%nat && str_all is_digit s &&
  match py_int s with
  | Some m => m =? n
  | None => false
  end.

Definition below (k : Z) : list Z := map Z.of_nat (seq 0 (Z.to_nat k)).

(** A coefficient as the library keeps it: digits, no superfluous zero in
    front. *)
Definition is_canonical (ds : string) : bool :=
  str_all is_digit ds &&
  match ds with
  | EmptyString => false
  | String "0" r => String.eqb r ""
  | _ => true
  end.

Definition starts_nondigit (s : string) : bool :=
  match s with
  | EmptyString => true
  | String c _ => negb (is_digit c)
  end.

(** The text of an exponent, and what it reads as. *)
Definition exp_text (x : option Z) : string :=
  match x with
  | None => ""
  | Some k => "E" +:+ fmt_plus_d k
  end.

Definition frac_text (f : option string) : string :=
  match f with
  | None => ""
  | Some fp => "." +:+ fp
  end.

Definition dec_char (c : ascii) : bool :=
  is_digit c || Ascii.eqb c "-" || Ascii.eqb c "+" || Ascii.eqb c "." ||
  Ascii.eqb c "E".

Definition call_result (mk : Z -> Z -> Z -> py_expr) (a b c : string)
  : parsed py_expr :=
  match three_ints (a +:+ ", " +:+ b +:+ ", " +:+ c) with
  | Parsed (x, y, z) => Parsed (mk x y z)
  | BadSyntax => BadSyntax
  | Other => Other
  end.

(** A number of two digits that does not start with [0], or is below 8,
    and a year of four digits that does not start with [0], read as a
    literal as they read through [int]. *)
Definition literal_ok (w : nat) (n : Z) : bool :=
  match int_literal (fmt_0d w n) with
  | Parsed m => m =? n
  | _ => false
  end.

(** ** States and calls *)

Section Notions.

Context {H : host}.

(** [m] relates the state it is run in to the state it leaves, whatever
    its result. *)
Definition respects {A : Type} (R : state -> state -> Prop) (m : M A) : Prop :=
  forall st r st', m st = (r, st') -> R st st'.

(** The interpreter raises for every text outside the fragment that it
    does not take as the source of one function, or as an expression
    with a value. *)
Definition no_escape : Prop :=
  (forall src, exec_beyond src <> Escapes) /\
  (forall text ns, eval_beyond text ns <> Escapes).

(** The function under [name] in the [_defaults] of the model [model]. *)
Definition provider (st : state) (model name : string) : option py_expr :=
  match pool st !! model with
  | Some Model => mc_defaults Model !! name
  | None => None
  end.

(** The table and the catalogue of models and fields are the same. *)
Definition same_records (st st' : state) : Prop :=
  table st' = table st /\ next_id st' = next_id st /\
  ir_models st' = ir_models st /\ ir_fields st' = ir_fields st.

(** The classes of the pool are the same but for their [_defaults]. *)
Definition same_classes (st st' : state) : Prop :=
  forall m,
    match pool st !! m, pool st' !! m with
    | Some a, Some b =>
        mc_attrs b = mc_attrs a /\ mc_fields b = mc_fields a /\
        mc_records b = mc_records a
    | None, None => True
    | _, _ => False
    end.

(** The keys of the records [ids]: the name of their model and the name
    of their field. *)
Definition key_of (st : state) (ids : list Z) (model name : string) : Prop :=
  exists i e m f,
    In i ids /\ find_entry st i = Some e /\ entry_model st e = Some m /\
    entry_field st e = Some f /\ m_model m = model /\ f_name f = name.

Definition removes_only (ids : list Z) (st st' : state) : Prop :=
  same_records st st' /\ same_classes st st' /\ log st' = log st /\
  forall model name,
    ~ key_of st ids model name -> provider st' model name = provider st model name.

(** The records [ids] are there, with their model, in the pool, and
    their field. *)
Definition resolved (st : state) (i : Z) : Prop :=
  exists e m f Model,
    find_entry st i = Some e /\ entry_model st e = Some m /\
    entry_field st e = Some f /\ pool st !! m_model m = Some Model.

(** A step that only adds to the [_defaults] of the pool. *)
Definition installs_only (st st' : state) : Prop :=
  same_records st st' /\ same_classes st st' /\ log st' = log st /\
  forall m n, is_Some (provider st m n) -> is_Some (provider st' m n).

(** The record [i] has an entry in the [_defaults] of its model, under
    the name of its field. *)
Definition installed (st : state) (i : Z) : Prop :=
  exists e m f,
    find_entry st i = Some e /\ entry_model st e = Some m /\
    entry_field st e = Some f /\
    is_Some (provider st (m_model m) (f_name f)).

Definition same_catalog (st st' : state) : Prop :=
  ir_models st' = ir_models st /\ ir_fields st' = ir_fields st.

(** The rows [ids] with the columns of [v] written. *)
Definition updated (ids : list Z) (v : values) (t : list entry) : list entry :=
  map (fun e => if has_id ids e then update_row v e else e) t.



Definition unique_fields (st : state) : Prop := NoDup (omap e_field (table st)).

Definition keeps_unique (st st' : state) : Prop :=
  unique_fields st -> unique_fields st'.

(** A request, as the server runs it: in a transaction.  The start-up
    opens its own. *)
Inductive request : Type :=
| Create (vlist : list values)
| Write (args : list (list Z * values))
| Delete (ids : list Z)
| SetValue (ids : list Z) (name : string) (value : pyval)
| Startup.

Definition serve (q : request) (st : state) : state :=
  match q with
  | Create vlist => snd (transaction (create vlist) st)
  | Write args => snd (transaction (write args) st)
  | Delete ids => snd (transaction (delete ids) st)
  | SetValue ids name value => snd (transaction (set_value ids name value) st)
  | Startup => snd (transaction load_default_values st)
  end.

(** The states the module reaches from an empty table. *)
Inductive reachable : state -> Prop :=
| reachable_empty st : table st = [] -> reachable st
| reachable_serve st q : reachable st -> reachable (serve q st).

(** The same record, of the same model and field. *)
Definition same_refs (e e' : entry) : Prop :=
  e_id e' = e_id e /\ e_model e' = e_model e /\ e_field e' = e_field e.

(** The rows are the same records, of the same models and fields; the
    catalogue and the classes are the same; no function is taken out of
    [_defaults]. *)
Definition rewrites (st st' : state) : Prop :=
  same_catalog st st' /\ same_classes st st' /\ next_id st' = next_id st /\
  Forall2 same_refs (table st) (table st') /\
  forall m n, is_Some (provider st m n) -> is_Some (provider st' m n).

(** The values name neither [model] nor [field]. *)
Definition no_refs (v : values) : Prop := v_model v = None /\ v_field v = None.

(** What the row [v] is checked against: its field and the class of the
    model of the field. *)
Definition target (st : state) (v : values) : option (ir_model_field * model_class) :=
  match v_field v with
  | Some fid =>
      match find_field st fid with
      | Some field =>
          match find_model st (f_model field) with
          | Some m =>
              match pool st !! m_model m with
              | Some model => Some (field, model)
              | None => None
              end
          | None => None
          end
      | None => None
      end
  | None => None
  end.

(** [hasattr(model, 'default_<field>')]. *)
Definition exposes_default (model : model_class) (field : ir_model_field) : bool :=
  member ("default_" +:+ f_name field) (mc_attrs model).

(** [isinstance(model._fields[field], fields.Function)]. *)
Definition is_functional (model : model_class) (field : ir_model_field) : bool :=
  match mc_fields model !! f_name field with
  | Some fd => fd_functional fd
  | None => false
  end.

(** The row that [sql_insert] stores for the values [v] under the id
    [i]. *)
Definition row_of (i : Z) (v : values) : entry :=
  {| e_id := i; e_model := v_model v; e_field := v_field v;
     e_default_value := if v_default_value v is Some d then d else None |}.

Fixpoint rows_of (i : Z) (vlist : list values) : list entry :=
  match vlist with
  | [] => []
  | v :: vlist' => row_of i v :: rows_of (i + 1) vlist'
  end.



(** Nothing is put in [_defaults]. *)
Definition forgets (st st' : state) : Prop :=
  same_records st st' /\
  forall m n, provider st m n = None -> provider st' m n = None.

(** The ids of the rows are below the next id. *)
Definition fresh_ids (st : state) : Prop :=
  Forall (fun e => e_id e < next_id st) (table st).

(** The values of a kind: a boolean, an integer, a finite or infinite
    [Decimal] with a coefficient as the library keeps it, a date, a
    [datetime] or a [time] without a fraction of a second, a [time] that
    is not midnight (which is false in a condition), a string of ASCII
    characters for the other kinds ([str] of a text with other
    characters depends on its encoding).  Of the floating point numbers,
    those that the host prints as a text it reads back as the same
    number. *)
Definition in_domain (kind : string) (v : pyval) : Prop :=
  match v with
  | PNone => False
  | PBool _ => kind = "boolean"
  | PInt _ => kind = "integer"
  | PFloat x =>
      kind = "float" /\ float_str x <> "" /\ float_of_str (float_str x) = Some x
  | PStr s =>
      member kind ["char"; "text"; "many2one"; "selection"; "reference"] = true
      /\ str_all is_ascii s = true
  | PDecimal (DFinite _ ds _) => kind = "numeric" /\ is_canonical ds = true
  | PDecimal (DInfinity _) => kind = "numeric"
  | PDecimal (DNaN _ _ _) => False
  | PDate d => kind = "date" /\ valid_date d = true
  | PDateTime dt =>
      kind = "datetime" /\ valid_date (dt_date dt) = true /\
      valid_time (dt_time dt) = true /\ microsecond (dt_time dt) = 0
  | PTime t =>
      kind = "time" /\ valid_time t = true /\ microsecond t = 0 /\
      time_truthy t = true
  end.

(** What an empty stored text reads as. *)
Definition fallback (kind : string) : pyval :=
  if String.eqb kind "boolean" then PBool false
  else if String.eqb kind "integer" then PInt 0
  else if String.eqb kind "float" then PFloat float_zero
  else if String.eqb kind "numeric" then PDecimal (DFinite false "0" (-1))
  else if String.eqb kind "date" then PNone
  else if String.eqb kind "datetime" then PNone
  else if String.eqb kind "time" then PNone
  else PStr "".

(** A piece of a date or of a time that reads as the same number as a
    literal of the language and through [int]. *)
Definition reads_as (p : string) (z : Z) : Prop :=
  int_literal p = Parsed z /\ py_int p = Some z.

(** The stored texts of a kind on which the two agree. *)
Definition agrees (kind s : string) : Prop :=
  if member kind ["char"; "text"; "selection"; "reference"] then
    is_plain_text s = true
  else if String.eqb kind "boolean" then s = "True" \/ s = "False"
  else if String.eqb kind "integer" then exists z, s = str_of_Z z
  else if String.eqb kind "float" then
    str_all is_printable s = true /\ strip s = s /\
    is_float_literal (snd (split_minus s)) = true /\
    is_Some (float_of_str s)
  else if String.eqb kind "numeric" || String.eqb kind "datetime" then
    s <> "" /\ is_plain_text s = true
  else if String.eqb kind "date" then
    s <> "" /\
    exists y m d,
      reads_as (py_slice 0 4 s) y /\ reads_as (py_slice 5 7 s) m /\
      reads_as (str_drop 8 s) d
  else if String.eqb kind "time" then
    s <> "" /\
    exists h m d,
      reads_as (py_slice 0 2 s) h /\ reads_as (py_slice 3 5 s) m /\
      reads_as (str_drop 6 s) d /\
      forall t, time_new h m d = Some t -> time_truthy t = true
  else False.

(** The records for which no branch of [set_default_values] assigns
    [def_default_function]: those of a kind [date], [datetime] or [time]
    without stored text, and those of a kind that is not one of
    [_FIELD_TYPES]. *)
Definition without_source (kind : string) (value : option string) : Prop :=
  (member kind ["date"; "datetime"; "time"] = true /\ truthy value = false) \/
  member kind _FIELD_TYPES = false.



(** The records that [set_default_values] goes through. *)
Definition records_of (st : state) (default_values : list Z) : list Z :=
  match default_values with
  | [] => map e_id (table st)
  | _ => default_values
  end.





(** The values whose text [set_default_values] turns into a source that
    the language reads as the value: for a string, a kind whose text is
    quoted and characters that need no escape; for a date, a year of
    four digits and no part that is written [08] or [09]; for a time, no
    such part; for a floating point number, a text on which the function
    and the typed view agree. *)
Definition installable (kind : string) (v : pyval) : Prop :=
  match v with
  | PNone => False
  | PBool _ | PInt _ | PDecimal _ | PDateTime _ => True
  | PFloat x => agrees kind (float_str x)
  | PStr s => kind <> "many2one" /\ is_plain_text s = true
  | PDate d =>
      1000 <= year d /\ month d <> 8 /\ month d <> 9 /\
      day d <> 8 /\ day d <> 9
  | PTime t =>
      hour t <> 8 /\ hour t <> 9 /\ minute t <> 8 /\ minute t <> 9 /\
      second t <> 8 /\ second t <> 9
  end.

End Notions.

(* ===================================================================== *)
(** * A small database *)
(* ===================================================================== *)

(** A host with a single floating point number, zero, for which every
    source outside the fragment is a syntax error. *)
Definition zero_only : host :=
  {| float := unit;
     float_str := fun _ => "0.0";
     float_of_str := fun s => if String.eqb s "0.0" then Some tt else None;
     float_zero := tt;
     exec_beyond := fun _ => Fails SyntaxError;
     eval_beyond := fun _ _ => Fails SyntaxError |}.

Definition plain_field (selection : list (@pyval zero_only * string))
  : @field_def zero_only :=
  {| fd_functional := false; fd_selection := Some (Options selection) |}.

Definition function_field : @field_def zero_only :=
  {| fd_functional := true; fd_selection := None |}.

(** [party.party], with a method [default_active]. *)
Definition party : @model_class zero_only :=
  {| mc_attrs := ["default_active"];
     mc_fields := list_to_map [("name", plain_field []);
                               ("active", plain_field [])];
     mc_defaults := ∅;
     mc_records := [(1, "Alice"); (2, "Bob")] |}.

(** A field whose options are given by a method of the class. *)
Definition method_field (name : string) : @field_def zero_only :=
  {| fd_functional := false; fd_selection := Some (Method name) |}.

(** [task]: [digits] and [total] are [fields.Function]; the class has a
    method [default_digits]; the selection of [state] lists the empty
    option itself, and the options of [kind] are those of the method
    [get_kinds]. *)
Definition task : @model_class zero_only :=
  {| mc_attrs := ["default_digits"];
     mc_fields :=
       list_to_map [("count", plain_field []); ("due", plain_field []);
                    ("start", plain_field []); ("owner", plain_field []);
                    ("state", plain_field [(PNone, ""); (PStr "open", "Open")]);
                    ("amount", plain_field []); ("digits", function_field);
                    ("total", function_field); ("title", plain_field []);
                    ("seen", plain_field []); ("priority", plain_field []);
                    ("kind", method_field "get_kinds");
                    ("value", plain_field []); ("origin", plain_field [])];
     mc_defaults := ∅;
     mc_records := [] |}.

Definition task_model : ir_model := {| m_id := 2; m_model := "task" |}.

Definition task_field (i : Z) (name ttype relation : string) : ir_model_field :=
  {| f_id := i; f_name := name; f_ttype := ttype; f_model := 2;
     f_relation := relation |}.

Definition count_field : ir_model_field := task_field 12 "count" "integer" "".

Definition state_field : ir_model_field := task_field 16 "state" "selection" "".

Definition digits_field : ir_model_field := task_field 18 "digits" "integer" "".

(** The record 1 gives [count] the default 5; the record 2 is for
    [seen], without a value yet; the record 3 is for [priority], with
    the empty text. *)
Definition count_entry : entry :=
  {| e_id := 1; e_model := Some 2; e_field := Some 12;
     e_default_value := Some "5" |}.

Definition seen_entry : entry :=
  {| e_id := 2; e_model := Some 2; e_field := Some 21;
     e_default_value := None |}.

Definition priority_entry : entry :=
  {| e_id := 3; e_model := Some 2; e_field := Some 22;
     e_default_value := Some "" |}.

Definition world : @state zero_only :=
  {| ir_models := [ {| m_id := 1; m_model := "party.party" |}; task_model ];
     ir_fields :=
       [ {| f_id := 10; f_name := "name"; f_ttype := "char"; f_model := 1;
            f_relation := "" |};
         {| f_id := 11; f_name := "active"; f_ttype := "boolean"; f_model := 1;
            f_relation := "" |};
         count_field;
         task_field 13 "due" "date" "";
         task_field 14 "start" "time" "";
         task_field 15 "owner" "many2one" "party.party";
         state_field;
         task_field 17 "amount" "numeric" "";
         digits_field;
         task_field 19 "total" "numeric" "";
         task_field 20 "title" "char" "";
         task_field 21 "seen" "datetime" "";
         task_field 22 "priority" "integer" "";
         task_field 23 "kind" "selection" "";
         task_field 24 "value" "date" "";
         task_field 25 "origin" "one2many" "" ];
     pool := list_to_map [("party.party", party); ("task", task)];
     table := [count_entry; seen_entry; priority_entry];
     next_id := 4;
     log := [] |}.

(** An instance that is not saved, for the field [state]. *)
Definition state_entry : entry :=
  {| e_id := 0; e_model := Some 2; e_field := Some 16;
     e_default_value := None |}.

Definition with_microseconds : datetime :=
  mk_datetime (mk_date 2024 1 2) (mk_time 3 4 5 600).

(** Values of a [create] or [write]. *)
Definition for_field (f : Z) (d : option (option string))
    (typed : list (string * @pyval zero_only)) : @values zero_only :=
  {| v_model := Some 2; v_field := Some f; v_default_value := d;
     v_typed := typed |}.

Definition to_field (f : Z) : @values zero_only :=
  {| v_model := None; v_field := Some f; v_default_value := None;
     v_typed := [] |}.

Definition seen_field : ir_model_field := task_field 21 "seen" "datetime" "".

Definition title_field : ir_model_field := task_field 20 "title" "char" "".

(** The database after an entry for [title] is created without a value:
    the record 4, whose column [default_value] is empty. *)
Definition world_with_title : @state zero_only :=
  snd (create [for_field 20 None []] world).

Definition title_entry : entry :=
  {| e_id := 4; e_model := Some 2; e_field := Some 20;
     e_default_value := None |}.

(** A table whose first record has no value. *)
Definition waiting : @state zero_only :=
  with_table world [seen_entry; count_entry].

(** Two instances for the field [due], with the same digits. *)
Definition due_entry (text : string) : entry :=
  {| e_id := 5; e_model := Some 2; e_field := Some 13;
     e_default_value := Some text |}.

(** A row without the key [field]. *)
Definition without_field : @values zero_only :=
  {| v_model := Some 2; v_field := None; v_default_value := None;
     v_typed := [] |}.

Definition due_field : ir_model_field := task_field 13 "due" "date" "".

(** An instance that is not saved, for the field [kind]. *)
Definition kind_entry : entry :=
  {| e_id := 0; e_model := Some 2; e_field := Some 23;
     e_default_value := None |}.

Definition kind_field : ir_model_field := task_field 23 "kind" "selection" "".

(** A table with a record for the field [value], without a text, after
    the record for [count]. *)
Definition value_field : ir_model_field := task_field 24 "value" "date" "".

Definition value_entry : entry :=
  {| e_id := 5; e_model := Some 2; e_field := Some 24;
     e_default_value := None |}.

Definition world_with_value : @state zero_only :=
  with_table world [count_entry; value_entry].

(** A table whose only record holds a text with a quote. *)
Definition quoted_entry : entry :=
  {| e_id := 1; e_model := Some 2; e_field := Some 20;
     e_default_value := Some "it's" |}.

Definition quoted : @state zero_only := with_table world [quoted_entry].

(* ===================================================================== *)
(** * Texts and numbers *)
(* ===================================================================== *)

(** ** Facts about text *)

Lemma append_cons c a b : String c a +:+ b = String c (a +:+ b).
Proof. reflexivity. Qed.

Lemma append_nil_l b : "" +:+ b = b.
Proof. reflexivity. Qed.

Ltac app_simpl := rewrite ?append_cons, ?append_nil_l; simpl.

Lemma str_all_app p a b : str_all p (a +:+ b) = str_all p a && str_all p b.
Proof. induction a as [|c a IH]; app_simpl; [done|]. by rewrite IH, andb_assoc. Qed.

Lemma length_app a b : String.length (a +:+ b) = (String.length a + String.length b)%nat.
Proof. induction a as [|c a IH]; app_simpl; [done|]. by rewrite IH. Qed.

Lemma str_take_app a b : str_take (String.length a) (a +:+ b) = a.
Proof. induction a as [|c a IH]; app_simpl; [by destruct b|]. by rewrite IH. Qed.

Lemma str_drop_app a b : str_drop (String.length a) (a +:+ b) = b.
Proof. induction a as [|c a IH]; app_simpl; done. Qed.

Lemma app_assoc_str a b c : (a +:+ b) +:+ c = a +:+ (b +:+ c).
Proof. induction a as [|x a IH]; app_simpl; [done|]. by rewrite IH. Qed.

Lemma app_empty_r a : a +:+ "" = a.
Proof. induction a as [|x a IH]; app_simpl; [done|]. by rewrite IH. Qed.

Lemma lstrip_id c s : is_space c = false -> lstrip (String c s) = String c s.
Proof. intros Hc. simpl. by rewrite Hc. Qed.

Lemma rstrip_id s : str_all (fun c => negb (is_space c)) s = true -> rstrip s = s.
Proof.
  induction s as [|c s IH]; simpl; [done|].
  intros [Hc Hs]%andb_true_iff. rewrite (IH Hs).
  destruct s; [|done]. by destruct (is_space c).
Qed.

Lemma rstrip_last s c : is_space c = false -> rstrip (s +:+ String c "") = s +:+ String c "".
Proof.
  intros Hc. induction s as [|x s IH]; app_simpl.
  - by rewrite Hc.
  - rewrite IH. by destruct s.
Qed.

Lemma strip_id s : str_all (fun c => negb (is_space c)) s = true -> strip s = s.
Proof.
  intros Hs. unfold strip. destruct s as [|c s]; [done|].
  simpl in Hs. apply andb_true_iff in Hs as [Hc Hs].
  rewrite lstrip_id by by destruct (is_space c).
  apply rstrip_id. simpl. by rewrite Hc, Hs.
Qed.

(** Decimal notation *)

Lemma uint_digits d : str_all is_digit (NilEmpty.string_of_uint d) = true.
Proof. induction d; simpl; auto. Qed.

Lemma str_of_N_digits n : str_all is_digit (str_of_N n) = true.
Proof.
  unfold str_of_N, NilZero.string_of_uint.
  destruct (N.to_uint n); try apply uint_digits; done.
Qed.

Lemma digits_value_str_of_N n : digits_value (str_of_N n) = Some n.
Proof.
  unfold digits_value, str_of_N.
  rewrite NilZero.usu.
  - simpl. by rewrite DecimalN.Unsigned.of_to.
  - destruct n; simpl; [done|]. apply DecimalPos.Unsigned.to_uint_nonnil.
Qed.

Lemma str_all_impl (p q : ascii -> bool) s :
  (forall c, p c = true -> q c = true) -> str_all p s = true -> str_all q s = true.
Proof.
  intros Hpq. induction s as [|c s IH]; simpl; [done|].
  intros [Hc Hs]%andb_true_iff. by rewrite (Hpq _ Hc), IH.
Qed.

Lemma digit_not_space c : is_digit c = true -> negb (is_space c) = true.
Proof. destruct c as [[] [] [] [] [] [] [] []]; done. Qed.

Lemma digits_strip s : str_all is_digit s = true -> strip s = s.
Proof. intros Hs. apply strip_id. revert Hs. apply str_all_impl, digit_not_space. Qed.

(** [int] of a run of digits. *)
Lemma py_int_digits s :
  str_all is_digit s = true -> py_int s = option_map Z.of_N (digits_value s).
Proof.
  intros Hs. unfold py_int. rewrite (digits_strip _ Hs).
  destruct s as [|c r]; [done|].
  simpl in Hs. apply andb_true_iff in Hs as [Hc _].
  destruct c as [[] [] [] [] [] [] [] []]; try done.
Qed.

Lemma py_int_minus s :
  str_all is_digit s = true ->
  py_int (String "-" s) = option_map (fun n => - Z.of_N n) (digits_value s).
Proof.
  intros Hs. unfold py_int.
  assert (strip (String "-" s) = String "-" s) as ->; [|done].
  apply strip_id. simpl. revert Hs. apply str_all_impl, digit_not_space.
Qed.

Lemma str_of_Z_pos p : str_of_Z (Z.pos p) = str_of_N (N.pos p).
Proof. reflexivity. Qed.

Lemma str_of_Z_neg p : str_of_Z (Z.neg p) = String "-" (str_of_N (N.pos p)).
Proof. reflexivity. Qed.

Lemma str_of_Z_of_N n : str_of_Z (Z.of_N n) = str_of_N n.
Proof. by destruct n. Qed.

(** [int(str(z))] is [z]. *)
Lemma py_int_str_of_Z z : py_int (str_of_Z z) = Some z.
Proof.
  destruct z as [|p|p].
  - done.
  - rewrite str_of_Z_pos, py_int_digits by apply str_of_N_digits.
    by rewrite digits_value_str_of_N.
  - rewrite str_of_Z_neg, py_int_minus by apply str_of_N_digits.
    by rewrite digits_value_str_of_N.
Qed.

Lemma str_of_Z_inj z1 z2 : str_of_Z z1 = str_of_Z z2 -> z1 = z2.
Proof.
  intros Heq. pose proof (py_int_str_of_Z z1) as H1.
  rewrite Heq, py_int_str_of_Z in H1. congruence.
Qed.

Lemma str_of_Z_nonempty z : str_of_Z z <> "".
Proof.
  intros Hz. pose proof (py_int_str_of_Z z) as H1. by rewrite Hz in H1.
Qed.

(** Zero padding, by enumeration of the numbers of at most four digits. *)

Lemma below_spec (k n : Z) : 0 <= n < k -> In n (below k).
Proof.
  intros Hn. apply in_map_iff. exists (Z.to_nat n). split; [lia|].
  apply in_seq. lia.
Qed.

Lemma padded_2 n : 0 <= n < 100 -> padded_ok 2 n = true.
Proof.
  intros Hn.
  assert (forallb (padded_ok 2) (below 100) = true) as Hall
    by (vm_compute; reflexivity).
  rewrite forallb_forall in Hall. by apply Hall, below_spec.
Qed.

Lemma padded_4 n : 0 <= n < 10000 -> padded_ok 4 n = true.
Proof.
  intros Hn.
  assert (forallb (padded_ok 4) (below 10000) = true) as Hall
    by (vm_compute; reflexivity).
  rewrite forallb_forall in Hall. by apply Hall, below_spec.
Qed.

Lemma padded_ok_spec w n :
  padded_ok w n = true ->
  String.length (fmt_0d w n) = w /\ str_all is_digit (fmt_0d w n) = true /\
  py_int (fmt_0d w n) = Some n.
Proof.
  unfold padded_ok. intros [[Hl Hd]%andb_true_iff Hp]%andb_true_iff.
  apply Nat.eqb_eq in Hl. repeat split; [done..|].
  destruct (py_int (fmt_0d w n)); [|done]. apply Z.eqb_eq in Hp. by subst.
Qed.

(** ** Dates and times as text *)

Lemma str_take_len n a b : String.length a = n -> str_take n (a +:+ b) = a.
Proof. intros <-. apply str_take_app. Qed.

Lemma str_drop_len n a b : String.length a = n -> str_drop n (a +:+ b) = b.
Proof. intros <-. apply str_drop_app. Qed.

Lemma date_str_parts y m d :
  0 <= y < 10000 -> 0 <= m < 100 -> 0 <= d < 100 ->
  let s := date_str (mk_date y m d) in
  py_slice 0 4 s = fmt_0d 4 y /\ py_slice 5 7 s = fmt_0d 2 m /\
  str_drop 8 s = fmt_0d 2 d.
Proof.
  intros Hy Hm Hd. unfold date_str, py_slice. simpl year; simpl month; simpl day.
  destruct (padded_ok_spec _ _ (padded_4 y Hy)) as (Ly & _ & _).
  destruct (padded_ok_spec _ _ (padded_2 m Hm)) as (Lm & _ & _).
  destruct (padded_ok_spec _ _ (padded_2 d Hd)) as (Ld & _ & _).
  set (a := fmt_0d 4 y) in *. set (b := fmt_0d 2 m) in *. set (c := fmt_0d 2 d) in *.
  repeat split.
  - simpl str_drop. simpl Nat.sub. by apply str_take_len.
  - replace (a +:+ "-" +:+ b +:+ "-" +:+ c) with ((a +:+ "-") +:+ b +:+ "-" +:+ c)
      by by rewrite app_assoc_str.
    rewrite str_drop_len by (rewrite length_app, Ly; done).
    simpl Nat.sub. by apply str_take_len.
  - replace (a +:+ "-" +:+ b +:+ "-" +:+ c) with ((a +:+ "-" +:+ b +:+ "-") +:+ c)
      by by rewrite !app_assoc_str.
    apply str_drop_len. rewrite !length_app, Ly, Lm. done.
Qed.

Lemma time_str_parts h m s :
  0 <= h < 100 -> 0 <= m < 100 -> 0 <= s < 100 ->
  let t := time_str (mk_time h m s 0) in
  py_slice 0 2 t = fmt_0d 2 h /\ py_slice 3 5 t = fmt_0d 2 m /\
  str_drop 6 t = fmt_0d 2 s.
Proof.
  intros Hh Hm Hs. unfold time_str, py_slice.
  simpl hour; simpl minute; simpl second; simpl microsecond. simpl (0 =? 0).
  destruct (padded_ok_spec _ _ (padded_2 h Hh)) as (Lh & _ & _).
  destruct (padded_ok_spec _ _ (padded_2 m Hm)) as (Lm & _ & _).
  destruct (padded_ok_spec _ _ (padded_2 s Hs)) as (Ls & _ & _).
  set (a := fmt_0d 2 h) in *. set (b := fmt_0d 2 m) in *. set (c := fmt_0d 2 s) in *.
  rewrite app_empty_r.
  repeat split.
  - simpl str_drop. simpl Nat.sub. by apply str_take_len.
  - replace (a +:+ ":" +:+ b +:+ ":" +:+ c) with ((a +:+ ":") +:+ b +:+ ":" +:+ c)
      by by rewrite app_assoc_str.
    rewrite str_drop_len by (rewrite length_app, Lh; done).
    simpl Nat.sub. by apply str_take_len.
  - replace (a +:+ ":" +:+ b +:+ ":" +:+ c) with ((a +:+ ":" +:+ b +:+ ":") +:+ c)
      by by rewrite !app_assoc_str.
    apply str_drop_len. rewrite !length_app, Lh, Lm. done.
Qed.

Lemma valid_date_bounds d :
  valid_date d = true ->
  1 <= year d <= 9999 /\ 1 <= month d <= 12 /\ 1 <= day d <= 31.
Proof.
  unfold valid_date, days_in_month. intros Hv.
  repeat (apply andb_true_iff in Hv as [Hv ?]).
  repeat match goal with
         | |- context [if ?b then _ else _] => destruct b
         | Hx : context [if ?b then _ else _] |- _ => destruct b
         end; lia.
Qed.

Lemma valid_time_bounds t :
  valid_time t = true ->
  0 <= hour t < 24 /\ 0 <= minute t < 60 /\ 0 <= second t < 60 /\
  0 <= microsecond t < 1000000.
Proof.
  unfold valid_time. intros Hv.
  repeat (apply andb_true_iff in Hv as [Hv ?]). lia.
Qed.

(** ** [strptime] on the text of a [datetime] *)

Ltac enum_in H :=
  vm_compute in H;
  repeat (destruct H as [<-|H]; [|]); [..|contradiction].

Lemma below_cases k n : 0 <= n < k -> In n (below k).
Proof. apply below_spec. Qed.

Lemma match_year y tail :
  0 <= y < 10000 ->
  match_classes [is_digit; is_digit; is_digit; is_digit] (fmt_0d 4 y +:+ tail)
  = Some (fmt_0d 4 y, tail).
Proof.
  intros Hy. destruct (padded_ok_spec _ _ (padded_4 y Hy)) as (Ly & Dy & _).
  destruct (fmt_0d 4 y) as [|c1 [|c2 [|c3 [|c4 [|]]]]]; try done.
  simpl in Dy. rewrite !andb_true_iff in Dy. destruct Dy as (D1 & D2 & D3 & D4 & _).
  rewrite !append_cons, append_nil_l. simpl. by rewrite D1, D2, D3, D4.
Qed.

Ltac compute_fmt :=
  repeat match goal with
         | |- context [fmt_0d ?w ?n] =>
             let s := eval vm_compute in (fmt_0d w n) in
             change (fmt_0d w n) with s
         end.

Ltac group_cases n k Hk :=
  let Hin := fresh "Hin" in
  match goal with
  | Hn : _ <= n < ?b |- _ => pose proof (below_spec b n Hn) as Hin
  end;
  vm_compute in Hin;
  repeat (destruct Hin as [<-|Hin];
          [solve [vm_compute; rewrite Hk; reflexivity
                 | exfalso; match goal with H0 : _ <> _ |- _ => apply H0 end;
                   reflexivity]|]);
  contradiction.

Lemma step_month n k tail caps rem :
  0 <= n < 13 -> n <> 0 -> k tail = Some (caps, rem) ->
  re_step re_m k (fmt_0d 2 n +:+ tail) = Some (fmt_0d 2 n :: caps, rem).
Proof. intros Hn H0 Hk. group_cases n k Hk. Qed.

Lemma step_day n k tail caps rem :
  0 <= n < 32 -> n <> 0 -> k tail = Some (caps, rem) ->
  re_step re_d k (fmt_0d 2 n +:+ tail) = Some (fmt_0d 2 n :: caps, rem).
Proof. intros Hn H0 Hk. group_cases n k Hk. Qed.

Lemma step_hour n k tail caps rem :
  0 <= n < 24 -> k tail = Some (caps, rem) ->
  re_step Spaces (re_step re_H k) (" " +:+ fmt_0d 2 n +:+ tail)
  = Some (fmt_0d 2 n :: caps, rem).
Proof. intros Hn Hk. group_cases n k Hk. Qed.

Lemma step_minute n k tail caps rem :
  0 <= n < 60 -> k tail = Some (caps, rem) ->
  re_step re_M k (fmt_0d 2 n +:+ tail) = Some (fmt_0d 2 n :: caps, rem).
Proof. intros Hn Hk. group_cases n k Hk. Qed.

Lemma step_second n k tail caps rem :
  0 <= n < 60 -> k tail = Some (caps, rem) ->
  re_step re_S k (fmt_0d 2 n +:+ tail) = Some (fmt_0d 2 n :: caps, rem).
Proof. intros Hn Hk. group_cases n k Hk. Qed.

Lemma step_year y k tail caps rem :
  0 <= y < 10000 -> k tail = Some (caps, rem) ->
  re_step re_Y k (fmt_0d 4 y +:+ tail) = Some (fmt_0d 4 y :: caps, rem).
Proof.
  intros Hy Hk. unfold re_step, re_Y, try_alternatives.
  by rewrite match_year, Hk.
Qed.

Lemma step_lit c k tail : re_step (Lit c) k (String c tail) = k tail.
Proof. simpl. by rewrite Ascii.eqb_refl. Qed.

Lemma py_int_padded w n : padded_ok w n = true -> py_int (fmt_0d w n) = Some n.
Proof. intros Hp. by apply padded_ok_spec in Hp as (_ & _ & ?). Qed.

Lemma strptime_datetime_str d t :
  valid_date d = true -> valid_time t = true -> microsecond t = 0 ->
  strptime (datetime_str (mk_datetime d t)) = Some (mk_datetime d t).
Proof.
  intros Hd Ht Hus.
  destruct (valid_date_bounds _ Hd) as (Hy & Hm & Hdd).
  destruct (valid_time_bounds _ Ht) as (Hh & Hmi & Hs & _).
  destruct d as [y m dd], t as [h mi s us].
  cbn [year month day hour minute second microsecond] in *. subst us.
  assert (re_match datetime_regex
            (datetime_str (mk_datetime (mk_date y m dd) (mk_time h mi s 0)))
          = Some ([fmt_0d 4 y; fmt_0d 2 m; fmt_0d 2 dd; fmt_0d 2 h;
                   fmt_0d 2 mi; fmt_0d 2 s], "")) as Hre.
  { unfold datetime_str, date_str, time_str.
    cbn [dt_date dt_time year month day hour minute second microsecond].
    change (0 =? 0) with true. cbv iota.
    rewrite app_empty_r, !app_assoc_str.
    unfold datetime_regex. cbn [re_match].
    apply step_year; [lia|].
    rewrite append_cons, append_nil_l, step_lit.
    apply step_month; [lia|lia|].
    rewrite append_cons, append_nil_l, step_lit.
    apply step_day; [lia|lia|].
    apply step_hour; [lia|].
    rewrite append_cons, append_nil_l, step_lit.
    apply step_minute; [lia|].
    rewrite append_cons, append_nil_l, step_lit.
    rewrite <- (app_empty_r (fmt_0d 2 s)) at 1.
    apply step_second; [lia|]. reflexivity. }
  unfold strptime. rewrite Hre.
  rewrite !py_int_padded by (first [apply padded_2 | apply padded_4]; lia).
  unfold date_new, time_new. by rewrite Hd, Ht.
Qed.

(** ** [Decimal] and its text *)

Lemma uint_of_digits s :
  str_all is_digit s = true -> exists d, NilEmpty.uint_of_string s = Some d.
Proof.
  induction s as [|a s IH]; [by eexists|].
  simpl. intros [Ha Hs]%andb_true_iff. destruct (IH Hs) as [d ->].
  destruct a as [[] [] [] [] [] [] [] []]; try done; by eexists.
Qed.

Lemma canonical_value ds :
  is_canonical ds = true ->
  exists n, digits_value ds = Some n /\ str_of_N n = ds.
Proof.
  unfold is_canonical. intros [Hd Hc]%andb_true_iff.
  destruct ds as [|c r]; [done|].
  assert (exists d, NilZero.uint_of_string (String c r) = Some d /\
                    NilZero.string_of_uint d = String c r /\ Decimal.unorm d = d)
    as (d & Hp & Hs & Hn).
  { destruct (NilZero.uint_of_string (String c r)) as [d|] eqn:Hp.
    - exists d. split; [done|]. split; [by apply NilZero.sus|].
      simpl in Hp. destruct (NilEmpty.uint_of_string r) as [d'|] eqn:Hr; [|done].
      apply uint_of_char_spec in Hp.
      destruct Hp as [[-> ->]|Hp].
      + simpl in Hc. apply String.eqb_eq in Hc. subst r. simpl in Hr.
        inversion Hr; subst. reflexivity.
      + repeat (destruct Hp as [[-> ->]|Hp]; [reflexivity|]).
        destruct Hp as [-> ->]. reflexivity.
    - destruct (uint_of_digits _ Hd) as [d Hd']. simpl in Hp, Hd'. congruence. }
  exists (N.of_uint d). unfold digits_value, str_of_N. rewrite Hp. split; [done|].
  by rewrite DecimalN.Unsigned.to_of, Hn.
Qed.

Lemma str_of_N_canonical n : is_canonical (str_of_N n) = true.
Proof.
  unfold is_canonical. rewrite str_of_N_digits. simpl.
  destruct n as [|p]; [done|].
  unfold str_of_N. simpl N.to_uint.
  pose proof (DecimalPos.Unsigned.to_of (Pos.to_uint p)) as Hn.
  rewrite DecimalPos.Unsigned.of_to in Hn. simpl in Hn.
  pose proof (DecimalPos.Unsigned.to_uint_nonzero p) as Hz.
  pose proof (DecimalPos.Unsigned.to_uint_nonnil p) as Hnil.
  destruct (Pos.to_uint p) as [|d|d|d|d|d|d|d|d|d|d]; try done.
  exfalso. rewrite DecimalFacts.unorm_D0 in Hn. unfold Decimal.unorm in Hn.
  destruct (Decimal.nzhead d) eqn:Hd; try discriminate.
  - inversion Hn; subst. by apply Hz.
  - by apply (DecimalFacts.nzhead_nonzero d u).
Qed.

Lemma span_digits a b :
  str_all is_digit a = true -> starts_nondigit b = true ->
  span is_digit (a +:+ b) = (a, b).
Proof.
  intros Ha Hb. induction a as [|c a IH].
  - rewrite append_nil_l. destruct b as [|c b]; [done|].
    simpl in *. by destruct (is_digit c).
  - simpl in Ha. apply andb_true_iff in Ha as [Hc Ha].
    rewrite append_cons. simpl. by rewrite Hc, (IH Ha).
Qed.

Lemma digits_value_cons0 s :
  s <> "" -> digits_value (String "0" s) = digits_value s.
Proof.
  intros Hs. unfold digits_value. destruct s as [|c s]; [done|].
  simpl. by destruct (uint_of_char c (NilEmpty.uint_of_string s)).
Qed.

Lemma digits_value_zeros k s :
  s <> "" -> digits_value (str_repeat "0" k +:+ s) = digits_value s.
Proof.
  intros Hs. induction k as [|k IH]; [done|].
  simpl str_repeat. rewrite append_cons, digits_value_cons0; [done|].
  destruct k; [by rewrite append_nil_l|by simpl; rewrite append_cons].
Qed.

Lemma zeros_digits k : str_all is_digit (str_repeat "0" k) = true.
Proof. induction k; simpl; auto. Qed.

Lemma length_zeros k : String.length (str_repeat "0" k) = k.
Proof. induction k; simpl; auto. Qed.

Lemma fmt_plus_d_exponent k :
  (let '(neg, ds) := split_sign (fmt_plus_d k) in
   option_map (fun n => if neg then - Z.of_N n else Z.of_N n) (digits_value ds))
  = Some k.
Proof.
  unfold fmt_plus_d. destruct k as [|p|p].
  - done.
  - change (Z.pos p <? 0) with false. cbv iota. cbn [split_sign].
    by rewrite str_of_Z_pos, digits_value_str_of_N.
  - change (Z.neg p <? 0) with true. cbv iota. rewrite str_of_Z_neg.
    cbn [split_sign]. by rewrite digits_value_str_of_N.
Qed.

Lemma dec_exponent_text x :
  dec_exponent (exp_text x) = Some (default 0 x).
Proof.
  destruct x as [k|]; [|done].
  unfold exp_text. rewrite append_cons, append_nil_l.
  unfold dec_exponent. change (Ascii.eqb (to_lower "E") "e") with true. cbv iota.
  apply fmt_plus_d_exponent.
Qed.

Lemma exp_text_nondigit x : starts_nondigit (exp_text x) = true.
Proof. by destruct x. Qed.

Lemma dec_numeral_text ip f x n :
  str_all is_digit ip = true ->
  str_all is_digit (default "" f) = true ->
  digits_value (ip +:+ default "" f) = Some n ->
  dec_numeral (ip +:+ frac_text f +:+ exp_text x)
  = Some (str_of_N n, default 0 x - Z.of_nat (String.length (default "" f))).
Proof.
  intros Hip Hfp Hn. unfold dec_numeral.
  rewrite span_digits; [|done|by destruct f, x].
  destruct f as [fp|]; simpl default in *.
  - unfold frac_text. rewrite !append_cons, !append_nil_l. cbv beta iota zeta.
    rewrite span_digits; [|done|apply exp_text_nondigit].
    by rewrite Hn, dec_exponent_text.
  - unfold frac_text. rewrite append_nil_l.
    assert (match exp_text x with
            | String "." r => span is_digit r
            | _ => ("", exp_text x)
            end = ("", exp_text x)) as -> by by destruct x.
    by rewrite Hn, dec_exponent_text.
Qed.

Lemma str_take_drop n s : str_take n s +:+ str_drop n s = s.
Proof.
  revert s. induction n as [|n IH]; intros [|c s]; try done.
  simpl. by rewrite append_cons, IH.
Qed.

Lemma length_drop n s : String.length (str_drop n s) = (String.length s - n)%nat.
Proof. revert s. induction n as [|n IH]; intros [|c s]; simpl; auto. Qed.

Lemma str_all_take p n s : str_all p s = true -> str_all p (str_take n s) = true.
Proof.
  revert s. induction n as [|n IH]; intros [|c s]; simpl; try done.
  intros [-> Hs]%andb_true_iff. by apply IH.
Qed.

Lemma str_all_drop p n s : str_all p s = true -> str_all p (str_drop n s) = true.
Proof.
  revert s. induction n as [|n IH]; intros [|c s]; simpl; try done.
  intros [_ Hs]%andb_true_iff. by apply IH.
Qed.

Lemma canonical_digits ds : is_canonical ds = true -> str_all is_digit ds = true.
Proof. by intros [? _]%andb_true_iff. Qed.

Lemma canonical_nonempty ds : is_canonical ds = true -> ds <> "".
Proof. intros [_ ?]%andb_true_iff ->. done. Qed.

(** The shape of the text of a finite number. *)
Lemma dec_str_shape neg ds e :
  is_canonical ds = true ->
  exists ip f x,
    dec_str (DFinite neg ds e)
    = sign_str neg +:+ ip +:+ frac_text f +:+ exp_text x /\
    str_all is_digit ip = true /\ ip <> "" /\
    str_all is_digit (default "" f) = true /\
    digits_value (ip +:+ default "" f) = digits_value ds /\
    default 0 x - Z.of_nat (String.length (default "" f)) = e.
Proof.
  intros Hc. pose proof (canonical_digits _ Hc) as Hd.
  pose proof (canonical_nonempty _ Hc) as Hne.
  assert (1 <= Z.of_nat (String.length ds)) as Hlen
    by (destruct ds; [done|simpl; lia]).
  unfold dec_str.
  set (len := Z.of_nat (String.length ds)) in *.
  destruct ((e <=? 0) && (-6 <? e + len)) eqn:Hplain.
  - apply andb_true_iff in Hplain as [He Hl]. apply Z.leb_le in He.
    destruct (e + len <=? 0) eqn:H1; [|destruct (len <=? e + len) eqn:H2].
    + apply Z.leb_le in H1.
      exists "0", (Some (str_repeat "0" (Z.to_nat (- (e + len))) +:+ ds)), None.
      rewrite Z.eqb_refl. simpl default. split_and!.
      * done.
      * done.
      * done.
      * by rewrite str_all_app, zeros_digits.
      * rewrite append_cons, append_nil_l, digits_value_cons0.
        -- by apply digits_value_zeros.
        -- destruct (Z.to_nat _); [by rewrite append_nil_l|done].
      * rewrite length_app, length_zeros. lia.
    + apply Z.leb_le in H2. assert (e = 0) as -> by lia.
      exists ds, None, None. rewrite Z.eqb_refl. simpl default.
      replace (Z.to_nat (0 + len - len)) with 0%nat by lia. simpl str_repeat.
      rewrite !app_empty_r. split_and!; done.
    + apply Z.leb_gt in H1, H2.
      exists (str_take (Z.to_nat (e + len)) ds),
             (Some (str_drop (Z.to_nat (e + len)) ds)), None.
      rewrite Z.eqb_refl. simpl default. split_and!.
      * done.
      * by apply str_all_take.
      * destruct ds as [|c ds]; [done|].
        destruct (Z.to_nat (e + len)) eqn:Hn; [lia|done].
      * by apply str_all_drop.
      * by rewrite str_take_drop.
      * rewrite length_drop. lia.
  - change (1 <=? 0) with false. cbv iota.
    destruct (len <=? 1) eqn:H2.
    + apply Z.leb_le in H2. assert (len = 1) as Hl1 by lia. rewrite Hl1.
      simpl (Z.to_nat (1 - 1)). simpl str_repeat. rewrite app_empty_r.
      exists ds, None, (if e + 1 =? 1 then None else Some (e + 1 - 1)).
      split_and!.
      * by destruct (e + 1 =? 1).
      * done.
      * done.
      * done.
      * by rewrite app_empty_r.
      * simpl default. destruct (e + 1 =? 1) eqn:He; simpl; lia.
    + apply Z.leb_gt in H2.
      exists (str_take 1 ds), (Some (str_drop 1 ds)),
             (if e + len =? 1 then None else Some (e + len - 1)).
      change (Z.to_nat 1) with 1%nat. split_and!.
      * by destruct (e + len =? 1).
      * by apply str_all_take.
      * by destruct ds.
      * by apply str_all_drop.
      * change (default "" (Some (str_drop 1 ds))) with (str_drop 1 ds).
        by rewrite str_take_drop.
      * change (default "" (Some (str_drop 1 ds))) with (str_drop 1 ds).
        rewrite length_drop.
        destruct (e + len =? 1) eqn:He; simpl default; lia.
Qed.

Lemma dec_char_not_space c : dec_char c = true -> negb (is_space c) = true.
Proof. destruct c as [[] [] [] [] [] [] [] []]; done. Qed.

Lemma digits_dec_chars s : str_all is_digit s = true -> str_all dec_char s = true.
Proof. apply str_all_impl. intros c Hc. unfold dec_char. by rewrite Hc. Qed.

Lemma fmt_plus_d_chars k : str_all dec_char (fmt_plus_d k) = true.
Proof.
  unfold fmt_plus_d. destruct k as [|p|p]; try done.
  - change (Z.pos p <? 0) with false. cbv iota. simpl str_all.
    rewrite str_of_Z_pos. apply digits_dec_chars, str_of_N_digits.
  - change (Z.neg p <? 0) with true. cbv iota. rewrite str_of_Z_neg.
    simpl str_all. apply digits_dec_chars, str_of_N_digits.
Qed.

(** [Decimal(str(d))] is [d] for a finite [d]. *)
Lemma dec_of_str_finite neg ds e :
  is_canonical ds = true ->
  dec_of_str (dec_str (DFinite neg ds e)) = Some (DFinite neg ds e).
Proof.
  intros Hc.
  destruct (dec_str_shape neg ds e Hc) as (ip & f & x & -> & Hip & Hne & Hf & Hv & He).
  destruct (canonical_value _ Hc) as (n & Hn & Hs).
  unfold dec_of_str.
  assert (str_all dec_char (ip +:+ frac_text f +:+ exp_text x) = true) as Hbody.
  { rewrite !str_all_app, (digits_dec_chars _ Hip). simpl.
    apply andb_true_iff. split.
    - destruct f as [fp|]; [|done]. unfold frac_text.
      rewrite append_cons, append_nil_l. simpl. by apply digits_dec_chars.
    - destruct x as [k|]; [|done]. unfold exp_text.
      rewrite append_cons, append_nil_l. simpl. apply fmt_plus_d_chars. }
  rewrite strip_id.
  2:{ apply (str_all_impl dec_char); [apply dec_char_not_space|].
      rewrite str_all_app, Hbody. by destruct neg. }
  assert (split_sign (sign_str neg +:+ ip +:+ frac_text f +:+ exp_text x)
          = (neg, ip +:+ frac_text f +:+ exp_text x)) as ->.
  { unfold sign_str. destruct neg; [by rewrite append_cons, append_nil_l|].
    rewrite append_nil_l. destruct ip as [|c ip]; [done|].
    simpl in Hip. apply andb_true_iff in Hip as [Hc' _].
    rewrite append_cons. destruct c as [[] [] [] [] [] [] [] []]; done. }
  rewrite (dec_numeral_text ip f x n Hip Hf) by by rewrite Hv.
  by rewrite Hs, He.
Qed.

Lemma dec_of_str_infinity neg :
  dec_of_str (dec_str (DInfinity neg)) = Some (DInfinity neg).
Proof. by destruct neg. Qed.

(** ** Reading the source of a generated function *)

Lemma span_app p a b :
  str_all p a = true ->
  match b with EmptyString => true | String c _ => negb (p c) end = true ->
  span p (a +:+ b) = (a, b).
Proof.
  intros Ha Hb. induction a as [|c a IH].
  - rewrite append_nil_l. destruct b as [|c b]; [done|].
    simpl in *. by destruct (p c).
  - simpl in Ha. apply andb_true_iff in Ha as [Hc Ha].
    rewrite append_cons. simpl. by rewrite Hc, (IH Ha).
Qed.

Lemma after_prefix_app p s : after_prefix p (p +:+ s) = Some s.
Proof.
  induction p as [|c p IH]; [by destruct s|].
  rewrite append_cons. simpl. by rewrite Ascii.eqb_refl.
Qed.

Lemma eqb_longer c s q : String.eqb (String c (s +:+ q)) q = false.
Proof.
  apply String.eqb_neq. intros Heq.
  apply (f_equal String.length) in Heq. simpl in Heq.
  rewrite length_app in Heq. lia.
Qed.

Lemma before_suffix_eq q s :
  before_suffix q s =
    if String.eqb s q then Some EmptyString
    else match s with
         | EmptyString => None
         | String c s' =>
             match before_suffix q s' with
             | Some r => Some (String c r)
             | None => None
             end
         end.
Proof. by destruct s. Qed.

Lemma before_suffix_app q s : before_suffix q (s +:+ q) = Some s.
Proof.
  induction s as [|c s IH].
  - by rewrite append_nil_l, before_suffix_eq, String.eqb_refl.
  - by rewrite append_cons, before_suffix_eq, eqb_longer, IH.
Qed.

Lemma enclosed_app a b s : enclosed a b (a +:+ s +:+ b) = Some s.
Proof. unfold enclosed. by rewrite after_prefix_app, before_suffix_app. Qed.

Lemma plain_printable s : is_plain_text s = true -> str_all is_printable s = true.
Proof.
  apply str_all_impl. intros c. unfold is_plain.
  by intros [[? _]%andb_true_iff _]%andb_true_iff.
Qed.

Lemma py_exec_def name body :
  str_all is_ident_char name = true ->
  py_exec (def_head name +:+ body) =
    match parse_expr body with
    | Parsed e => Parsed ("default_" +:+ name, e)
    | BadSyntax => BadSyntax
    | Other => Other
    end.
Proof.
  intros Hn. unfold py_exec, def_head.
  replace (("def default_" +:+ name +:+ def_tail) +:+ body)
    with ("def " +:+ ("default_" +:+ name) +:+ (def_tail +:+ body))
    by (rewrite !app_assoc_str; reflexivity).
  rewrite after_prefix_app.
  rewrite span_app; [| |done].
  2:{ rewrite str_all_app. by rewrite Hn. }
  rewrite after_prefix_app.
  rewrite !append_cons, append_nil_l. cbv iota beta.
  change (is_digit "d") with false. cbv iota. done.
Qed.

Lemma strip_ends c s d :
  is_space c = false -> is_space d = false ->
  strip (String c (s +:+ String d "")) = String c (s +:+ String d "").
Proof.
  intros Hc Hd. unfold strip. rewrite lstrip_id by done.
  change (String c (s +:+ String d "")) with (String c s +:+ String d "").
  by apply rstrip_last.
Qed.

Lemma plain_not_space_or c : is_plain c = true -> is_printable c = true.
Proof. unfold is_plain. by intros [[? _]%andb_true_iff _]%andb_true_iff. Qed.

(** A quoted literal. *)
Lemma parse_quoted s :
  is_plain_text s = true -> parse_expr ("'" +:+ s +:+ "'") = Parsed (EStr s).
Proof.
  intros Hs. unfold parse_expr.
  assert (str_all is_printable ("'" +:+ s +:+ "'") = true) as ->.
  { rewrite !str_all_app, (plain_printable _ Hs). done. }
  cbv iota beta. simpl negb. cbv iota.
  assert (strip ("'" +:+ s +:+ "'") = "'" +:+ s +:+ "'") as ->.
  { rewrite append_cons, append_nil_l. by apply strip_ends. }
  rewrite enclosed_app, Hs.
  rewrite append_cons, append_nil_l.
  reflexivity.
Qed.

Lemma strip_call a s :
  strip (String a (s +:+ ")")) = String a (s +:+ ")") \/ is_space a = true.
Proof.
  destruct (is_space a) eqn:Ha; [by right|left]. by apply strip_ends.
Qed.

(** [Decimal('...')]. *)
Lemma parse_decimal s :
  is_plain_text s = true ->
  parse_expr ("Decimal('" +:+ s +:+ "')") = Parsed (EDecimal s).
Proof.
  intros Hs. unfold parse_expr.
  assert (str_all is_printable ("Decimal('" +:+ s +:+ "')") = true) as ->.
  { rewrite !str_all_app, (plain_printable _ Hs). done. }
  cbv iota beta. simpl negb. cbv iota.
  assert (strip ("Decimal('" +:+ s +:+ "')") = "Decimal('" +:+ s +:+ "')") as ->.
  { rewrite append_cons.
    replace ("ecimal('" +:+ s +:+ "')") with (("ecimal('" +:+ s +:+ "'") +:+ ")")
      by (rewrite !app_assoc_str; reflexivity).
    by apply strip_ends. }
  rewrite (enclosed_app "Decimal('" "')"), Hs.
  assert (enclosed "'" "'" ("Decimal('" +:+ s +:+ "')") = None) as ->
    by (rewrite append_cons; reflexivity).
  rewrite append_cons.
  reflexivity.
Qed.

(** [datetime.strptime('...', '%Y-%m-%d %H:%M:%S')]. *)
Lemma parse_strptime s :
  is_plain_text s = true ->
  parse_expr ("datetime.strptime('" +:+ s +:+ "', '" +:+ datetime_format +:+ "')")
  = Parsed (EStrptime s).
Proof.
  intros Hs. unfold parse_expr.
  change ("', '" +:+ datetime_format +:+ "')") with strptime_tail.
  assert (str_all is_printable ("datetime.strptime('" +:+ s +:+ strptime_tail)
          = true) as ->.
  { rewrite !str_all_app, (plain_printable _ Hs). done. }
  cbv iota beta. simpl negb. cbv iota.
  assert (strip ("datetime.strptime('" +:+ s +:+ strptime_tail)
          = "datetime.strptime('" +:+ s +:+ strptime_tail) as ->.
  { rewrite append_cons.
    replace ("atetime.strptime('" +:+ s +:+ strptime_tail)
      with (("atetime.strptime('" +:+ s +:+ "', '%Y-%m-%d %H:%M:%S'") +:+ ")")
      by (rewrite !app_assoc_str; reflexivity).
    by apply strip_ends. }
  rewrite (enclosed_app "datetime.strptime('" strptime_tail), Hs.
  assert (enclosed "'" "'" ("datetime.strptime('" +:+ s +:+ strptime_tail) = None)
    as -> by (rewrite append_cons; reflexivity).
  assert (enclosed "Decimal('" "')" ("datetime.strptime('" +:+ s +:+ strptime_tail)
          = None) as -> by (rewrite append_cons; reflexivity).
  rewrite append_cons.
  reflexivity.
Qed.

Lemma digit_not_comma c : is_digit c = true -> Ascii.eqb "," c = false.
Proof. destruct c as [[] [] [] [] [] [] [] []]; done. Qed.

Lemma digit_printable c : is_digit c = true -> is_printable c = true.
Proof. destruct c as [[] [] [] [] [] [] [] []]; done. Qed.

Lemma split_comma_cons c s :
  split_comma (String c s) =
    if Ascii.eqb "," c then
      match after_prefix " " s with
      | Some r => Some (EmptyString, r)
      | None =>
          match split_comma s with
          | Some (a, b) => Some (String c a, b)
          | None => None
          end
      end
    else
      match split_comma s with
      | Some (a, b) => Some (String c a, b)
      | None => None
      end.
Proof. cbn [split_comma after_prefix]. by destruct (Ascii.eqb "," c). Qed.

Lemma split_comma_app a r :
  str_all is_digit a = true -> split_comma (a +:+ ", " +:+ r) = Some (a, r).
Proof.
  intros Ha. induction a as [|c a IH].
  - rewrite append_nil_l, !append_cons, append_nil_l. reflexivity.
  - simpl in Ha. apply andb_true_iff in Ha as [Hc Ha].
    by rewrite append_cons, split_comma_cons, (digit_not_comma _ Hc), (IH Ha).
Qed.

Lemma three_ints_app a b c :
  str_all is_digit a = true -> str_all is_digit b = true ->
  str_all is_digit c = true ->
  three_ints (a +:+ ", " +:+ b +:+ ", " +:+ c) =
    match int_literal a, int_literal b, int_literal c with
    | Parsed x, Parsed y, Parsed z => Parsed (x, y, z)
    | Other, _, _ | _, Other, _ | _, _, Other => Other
    | _, _, _ => BadSyntax
    end.
Proof.
  intros Ha Hb Hc. unfold three_ints.
  rewrite (split_comma_app a) by done. rewrite (split_comma_app b) by done.
  by rewrite Ha, Hb, Hc.
Qed.

Lemma call_text_printable f a b c :
  str_all is_printable f = true ->
  str_all is_digit a = true -> str_all is_digit b = true ->
  str_all is_digit c = true ->
  str_all is_printable (f +:+ a +:+ ", " +:+ b +:+ ", " +:+ c +:+ ")") = true.
Proof.
  intros Hf Ha Hb Hc. rewrite !str_all_app, Hf.
  rewrite (str_all_impl _ _ a digit_printable Ha),
    (str_all_impl _ _ b digit_printable Hb),
    (str_all_impl _ _ c digit_printable Hc). done.
Qed.

Lemma parse_date a b c :
  str_all is_digit a = true -> str_all is_digit b = true ->
  str_all is_digit c = true ->
  parse_expr ("date(" +:+ a +:+ ", " +:+ b +:+ ", " +:+ c +:+ ")")
  = call_result EDate a b c.
Proof.
  intros Ha Hb Hc. unfold parse_expr, call_result.
  rewrite call_text_printable by done.
  cbv iota beta. simpl negb. cbv iota.
  set (X := a +:+ ", " +:+ b +:+ ", " +:+ c).
  replace ("date(" +:+ a +:+ ", " +:+ b +:+ ", " +:+ c +:+ ")")
    with ("date(" +:+ X +:+ ")") by (unfold X; rewrite !app_assoc_str; reflexivity).
  assert (strip ("date(" +:+ X +:+ ")") = "date(" +:+ X +:+ ")") as ->.
  { rewrite append_cons.
    replace ("ate(" +:+ X +:+ ")") with (("ate(" +:+ X) +:+ ")")
      by (rewrite !app_assoc_str; reflexivity).
    by apply strip_ends. }
  rewrite (enclosed_app "date(" ")").
  assert (enclosed "'" "'" ("date(" +:+ X +:+ ")") = None) as ->
    by (rewrite append_cons; reflexivity).
  assert (enclosed "Decimal('" "')" ("date(" +:+ X +:+ ")") = None) as ->
    by (rewrite append_cons; reflexivity).
  assert (enclosed "datetime.strptime('" strptime_tail ("date(" +:+ X +:+ ")")
          = None) as -> by (rewrite !append_cons; reflexivity).
  rewrite append_cons. destruct (three_ints X) as [[[x y] z]| |]; reflexivity.
Qed.

Lemma parse_time a b c :
  str_all is_digit a = true -> str_all is_digit b = true ->
  str_all is_digit c = true ->
  parse_expr ("time(" +:+ a +:+ ", " +:+ b +:+ ", " +:+ c +:+ ")")
  = call_result ETime a b c.
Proof.
  intros Ha Hb Hc. unfold parse_expr, call_result.
  rewrite call_text_printable by done.
  cbv iota beta. simpl negb. cbv iota.
  set (X := a +:+ ", " +:+ b +:+ ", " +:+ c).
  replace ("time(" +:+ a +:+ ", " +:+ b +:+ ", " +:+ c +:+ ")")
    with ("time(" +:+ X +:+ ")") by (unfold X; rewrite !app_assoc_str; reflexivity).
  assert (strip ("time(" +:+ X +:+ ")") = "time(" +:+ X +:+ ")") as ->.
  { rewrite append_cons.
    replace ("ime(" +:+ X +:+ ")") with (("ime(" +:+ X) +:+ ")")
      by (rewrite !app_assoc_str; reflexivity).
    by apply strip_ends. }
  rewrite (enclosed_app "time(" ")").
  assert (enclosed "'" "'" ("time(" +:+ X +:+ ")") = None) as ->
    by (rewrite append_cons; reflexivity).
  assert (enclosed "Decimal('" "')" ("time(" +:+ X +:+ ")") = None) as ->
    by (rewrite append_cons; reflexivity).
  assert (enclosed "datetime.strptime('" strptime_tail ("time(" +:+ X +:+ ")")
          = None) as -> by (rewrite !append_cons; reflexivity).
  assert (enclosed "date(" ")" ("time(" +:+ X +:+ ")") = None) as ->
    by (rewrite !append_cons; reflexivity).
  rewrite append_cons. destruct (three_ints X) as [[[x y] z]| |]; reflexivity.
Qed.

(** Integer literals. *)

Lemma int_literal_canonical t n :
  is_canonical t = true -> digits_value t = Some n ->
  int_literal t = Parsed (Z.of_N n).
Proof.
  unfold is_canonical. intros [Hd Hc]%andb_true_iff Hn.
  destruct t as [|c r]; [done|]. unfold int_literal. rewrite Hd.
  destruct (Ascii.eqb c "0") eqn:E.
  - apply Ascii.eqb_eq in E. subst c. apply String.eqb_eq in Hc. subst r.
    simpl in *. by inversion Hn.
  - by rewrite Hn.
Qed.

Lemma digit_first c :
  is_digit c = true ->
  Ascii.eqb c "N" = false /\ Ascii.eqb c "T" = false /\
  Ascii.eqb c "F" = false /\ Ascii.eqb c "-" = false.
Proof. destruct c as [[] [] [] [] [] [] [] []]; done. Qed.

Lemma eqb_first c r d r' :
  Ascii.eqb c d = false -> String.eqb (String c r) (String d r') = false.
Proof. intros Hcd. simpl. by rewrite Hcd. Qed.

Lemma split_minus_digit c r :
  is_digit c = true -> split_minus (String c r) = (false, String c r).
Proof. destruct c as [[] [] [] [] [] [] [] []]; done. Qed.

Lemma parse_canonical t n :
  is_canonical t = true -> digits_value t = Some n ->
  parse_expr t = Parsed (EInt (Z.of_N n)).
Proof.
  intros Hc Hn. pose proof (canonical_digits _ Hc) as Hd.
  unfold parse_expr.
  rewrite (str_all_impl _ _ t digit_printable Hd). cbv iota beta.
  simpl negb. cbv iota. rewrite (digits_strip _ Hd).
  destruct t as [|c r]; [done|].
  pose proof Hd as Hd'. simpl in Hd'. apply andb_true_iff in Hd' as [Hc1 _].
  destruct (digit_first c Hc1) as (HN & HT & HF & _).
  change (String.eqb (String c r) "") with false. cbv iota.
  rewrite (eqb_first c r "N" "one" HN), (eqb_first c r "T" "rue" HT),
    (eqb_first c r "F" "alse" HF).
  rewrite (split_minus_digit c r Hc1). cbv iota beta zeta.
  by rewrite (int_literal_canonical _ _ Hc Hn).
Qed.

Lemma parse_minus t n :
  is_canonical t = true -> digits_value t = Some n ->
  parse_expr (String "-" t) = Parsed (EInt (- Z.of_N n)).
Proof.
  intros Hc Hn. pose proof (canonical_digits _ Hc) as Hd.
  unfold parse_expr.
  assert (str_all is_printable (String "-" t) = true) as ->.
  { simpl. by rewrite (str_all_impl _ _ t digit_printable Hd). }
  cbv iota beta. simpl negb. cbv iota.
  assert (strip (String "-" t) = String "-" t) as ->.
  { apply strip_id. simpl. revert Hd. apply str_all_impl, digit_not_space. }
  change (String.eqb (String "-" t) "") with false.
  change (String.eqb (String "-" t) "None") with false.
  change (String.eqb (String "-" t) "True") with false.
  change (String.eqb (String "-" t) "False") with false. cbv iota.
  change (split_minus (String "-" t)) with (true, t). cbv iota beta zeta.
  by rewrite (int_literal_canonical _ _ Hc Hn).
Qed.

(** The text of an integer reads as that integer. *)
Lemma parse_str_of_Z z : parse_expr (str_of_Z z) = Parsed (EInt z).
Proof.
  destruct z as [|p|p].
  - reflexivity.
  - rewrite str_of_Z_pos.
    apply (parse_canonical _ (N.pos p));
      [apply str_of_N_canonical|apply digits_value_str_of_N].
  - rewrite str_of_Z_neg.
    apply (parse_minus _ (N.pos p));
      [apply str_of_N_canonical|apply digits_value_str_of_N].
Qed.

Lemma literal_2 n :
  0 <= n < 100 -> n <> 8 -> n <> 9 -> int_literal (fmt_0d 2 n) = Parsed n.
Proof.
  intros Hn H8 H9.
  assert (forallb (fun n => (n =? 8) || (n =? 9) || literal_ok 2 n) (below 100)
          = true) as Hall by (vm_compute; reflexivity).
  rewrite forallb_forall in Hall. specialize (Hall n (below_spec 100 n Hn)).
  apply orb_true_iff in Hall as [Hx|Hok].
  - apply orb_true_iff in Hx as [Hx|Hx]; apply Z.eqb_eq in Hx; contradiction.
  - unfold literal_ok in Hok. destruct (int_literal (fmt_0d 2 n)); try done.
    apply Z.eqb_eq in Hok. by subst.
Qed.

Lemma literal_4 n :
  1000 <= n < 10000 -> int_literal (fmt_0d 4 n) = Parsed n.
Proof.
  intros Hn.
  assert (forallb (fun n => (n <? 1000) || literal_ok 4 n) (below 10000) = true)
    as Hall by (vm_compute; reflexivity).
  rewrite forallb_forall in Hall.
  specialize (Hall n (below_spec 10000 n ltac:(lia))).
  apply orb_true_iff in Hall as [Hx|Hok].
  - apply Z.ltb_lt in Hx. lia.
  - unfold literal_ok in Hok. destruct (int_literal (fmt_0d 4 n)); try done.
    apply Z.eqb_eq in Hok. by subst.
Qed.

(** ** Literals *)

Lemma span_all p s : str_all p s = true -> span p s = (s, EmptyString).
Proof.
  intros Hs. rewrite <- (app_empty_r s) at 1. by apply span_app.
Qed.

Lemma int_literal_digits s z : int_literal s = Parsed z -> str_all is_digit s = true.
Proof.
  unfold int_literal. destruct s as [|c r]; [done|].
  by destruct (str_all is_digit (String c r)).
Qed.

Lemma float_literal_not_int w : is_float_literal w = true -> int_literal w = Other.
Proof.
  intros Hf. unfold int_literal. destruct w as [|c r]; [done|].
  destruct (str_all is_digit (String c r)) eqn:Hd; [|done]. exfalso.
  unfold is_float_literal in Hf. rewrite (span_all _ _ Hd) in Hf.
  cbv beta iota zeta in Hf. by rewrite andb_false_r in Hf.
Qed.

Lemma parse_float s :
  str_all is_printable s = true -> strip s = s ->
  is_float_literal (snd (split_minus s)) = true ->
  parse_expr s = Parsed (EFloat s).
Proof.
  intros Hp Hs Hf. unfold parse_expr. rewrite Hp. simpl negb. cbv iota zeta.
  rewrite Hs.
  destruct (String.eqb_spec s "") as [->|_]; [done|].
  destruct (String.eqb_spec s "None") as [->|_]; [done|].
  destruct (String.eqb_spec s "True") as [->|_]; [done|].
  destruct (String.eqb_spec s "False") as [->|_]; [done|].
  destruct (split_minus s) as [neg w]. simpl in Hf.
  by rewrite (float_literal_not_int _ Hf), Hf.
Qed.

(* ===================================================================== *)
(** * The methods *)
(* ===================================================================== *)

Section Properties.

Context {H : host}.

(** ** Calls and what they keep *)

Section Respects.

Variable R : state -> state -> Prop.

Hypothesis R_refl : forall st, R st st.

Hypothesis R_trans : forall a b c, R a b -> R b c -> R a c.

Lemma respects_ret {A} (a : A) : respects R (ret a).
Proof. intros st r st' [= <- <-]. apply R_refl. Qed.

Lemma respects_raise {A} e : respects R (raise (A := A) e).
Proof. intros st r st' [= <- <-]. apply R_refl. Qed.

Lemma respects_lift {A} (x : result A) : respects R (lift x).
Proof. intros st r st' [= <- <-]. apply R_refl. Qed.

Lemma respects_get_state : respects R get_state.
Proof. intros st r st' [= <- <-]. apply R_refl. Qed.

Lemma respects_browse i : respects R (browse i).
Proof. intros st r st' [= <- <-]. apply R_refl. Qed.

Lemma respects_pool_get n : respects R (pool_get n).
Proof. intros st r st' [= <- <-]. apply R_refl. Qed.

Lemma respects_bind {A B} (m : M A) (k : A -> M B) :
  respects R m -> (forall a, respects R (k a)) -> respects R (bind m k).
Proof.
  intros Hm Hk st r st'. unfold bind.
  destruct (m st) as [[a|e|] st1] eqn:E; intros Hr.
  - eapply R_trans; [by eapply Hm|by eapply Hk].
  - inversion Hr; subst. by eapply Hm.
  - inversion Hr; subst. by eapply Hm.
Qed.

Lemma respects_for_each {A} (l : list A) (body : A -> M unit) :
  (forall x, In x l -> respects R (body x)) -> respects R (for_each l body).
Proof.
  induction l as [|x l IH]; intros Hb; simpl.
  - apply respects_ret.
  - apply respects_bind; [apply Hb; by left|].
    intros _. apply IH. intros y Hy. apply Hb. by right.
Qed.

End Respects.

(** A loop whose body returns, while an invariant holds, returns. *)
Lemma for_each_returns {A} (P : state -> Prop) (l : list A) (body : A -> M unit) st :
  (forall x st, In x l -> P st -> exists st', body x st = (Ret tt, st') /\ P st') ->
  P st -> exists st', for_each l body st = (Ret tt, st') /\ P st'.
Proof.
  revert st. induction l as [|x l IH]; intros st Hb HP; simpl.
  - by exists st.
  - destruct (Hb x st (or_introl eq_refl) HP) as (st1 & E1 & HP1).
    unfold bind. rewrite E1. apply IH; [|done].
    intros y st2 Hy. apply Hb. by right.
Qed.

(** ** What the state holds *)

Lemma same_records_refl st : same_records st st.
Proof. by repeat split. Qed.

Lemma same_records_trans a b c :
  same_records a b -> same_records b c -> same_records a c.
Proof. intros (?&?&?&?) (?&?&?&?). repeat split; congruence. Qed.

Lemma same_classes_refl st : same_classes st st.
Proof. intros m. by destruct (pool st !! m). Qed.

Lemma same_classes_trans a b c :
  same_classes a b -> same_classes b c -> same_classes a c.
Proof.
  intros Hab Hbc m. specialize (Hab m). specialize (Hbc m).
  destruct (pool a !! m), (pool b !! m), (pool c !! m); try done.
  destruct Hab as (?&?&?), Hbc as (?&?&?). repeat split; congruence.
Qed.

Lemma same_records_find_entry st st' i :
  same_records st st' -> find_entry st' i = find_entry st i.
Proof. intros (Ht&_). unfold find_entry. by rewrite Ht. Qed.

Lemma same_records_entry_model st st' e :
  same_records st st' -> entry_model st' e = entry_model st e.
Proof. intros (_&_&Hm&_). unfold entry_model, find_model. by rewrite Hm. Qed.

Lemma same_records_entry_field st st' e :
  same_records st st' -> entry_field st' e = entry_field st e.
Proof. intros (_&_&_&Hf). unfold entry_field, find_field. by rewrite Hf. Qed.

(** ** [delete] *)

Lemma removes_only_refl ids st : removes_only ids st st.
Proof.
  split; [apply same_records_refl|]. split; [apply same_classes_refl|]. done.
Qed.

Lemma key_of_same ids st st' model name :
  same_records st st' -> key_of st' ids model name -> key_of st ids model name.
Proof.
  intros Hs (i & e & m & f & Hi & He & Hm & Hf & Hmm & Hfn).
  exists i, e, m, f.
  rewrite (same_records_find_entry _ _ _ Hs) in He.
  rewrite (same_records_entry_model _ _ _ Hs) in Hm.
  rewrite (same_records_entry_field _ _ _ Hs) in Hf. done.
Qed.

Lemma removes_only_trans ids a b c :
  removes_only ids a b -> removes_only ids b c -> removes_only ids a c.
Proof.
  intros (Hr1 & Hc1 & Hl1 & Hp1) (Hr2 & Hc2 & Hl2 & Hp2).
  split; [by eapply same_records_trans|]. split; [by eapply same_classes_trans|].
  split; [congruence|].
  intros model name Hk. rewrite Hp2, Hp1; [done..|].
  intros Hk'. apply Hk. by eapply key_of_same.
Qed.

Lemma del_default_spec model name st Model :
  pool st !! model = Some Model ->
  exists st', del_default model name st = (Ret tt, st') /\
    same_records st st' /\ same_classes st st' /\ log st' = log st /\
    provider st' model name = None /\
    forall m n, (m, n) <> (model, name) -> provider st' m n = provider st m n.
Proof.
  intros Hm. unfold del_default. rewrite Hm. eexists. split; [done|].
  split; [done|]. split.
  { intros m. simpl. destruct (decide (m = model)) as [->|Hne].
    - by rewrite lookup_insert_eq, Hm.
    - rewrite lookup_insert_ne by done. by destruct (pool st !! m). }
  split; [done|]. split.
  { unfold provider. simpl. rewrite lookup_insert_eq. simpl. apply lookup_delete_eq. }
  intros m n Hne. unfold provider. simpl.
  destruct (decide (m = model)) as [->|Hm'].
  - rewrite lookup_insert_eq, Hm. simpl. apply lookup_delete_ne. congruence.
  - by rewrite lookup_insert_ne.
Qed.

Lemma delete_one_removes ids i :
  In i ids -> respects (removes_only ids) (delete_one i).
Proof.
  intros Hi st r st'. unfold delete_one, bind, browse, get_state, lift, pool_get.
  destruct (find_entry st i) as [e|] eqn:He; simpl;
    [|intros [= <- <-]; apply removes_only_refl].
  destruct (entry_model st e) as [m|] eqn:Hm; simpl;
    [|intros [= <- <-]; apply removes_only_refl].
  destruct (pool st !! m_model m) as [Model|] eqn:Hp; simpl;
    [|intros [= <- <-]; apply removes_only_refl].
  destruct (entry_field st e) as [f|] eqn:Hf; simpl;
    [|intros [= <- <-]; apply removes_only_refl].
  destruct (mc_defaults Model !! f_name f) eqn:Hd;
    [|intros [= <- <-]; apply removes_only_refl].
  destruct (del_default_spec (m_model m) (f_name f) st Model Hp)
    as (st1 & -> & Hr & Hc & Hl & _ & Hother).
  intros [= <- <-]. repeat split; try done; try apply Hr.
  intros model name Hk. apply Hother. intros [= -> ->]. apply Hk.
  by exists i, e, m, f.
Qed.

Lemma resolved_same st st' i :
  same_records st st' -> same_classes st st' -> resolved st i -> resolved st' i.
Proof.
  intros Hr Hc (e & m & f & Model & He & Hm & Hf & Hp).
  specialize (Hc (m_model m)). rewrite Hp in Hc.
  destruct (pool st' !! m_model m) as [Model'|] eqn:Hp'; [|done].
  exists e, m, f, Model'.
  rewrite (same_records_find_entry _ _ _ Hr), (same_records_entry_model _ _ _ Hr),
    (same_records_entry_field _ _ _ Hr). done.
Qed.

Lemma delete_one_returns i st :
  resolved st i ->
  exists st', delete_one i st = (Ret tt, st') /\
    forall e m f, find_entry st i = Some e -> entry_model st e = Some m ->
      entry_field st e = Some f -> provider st' (m_model m) (f_name f) = None.
Proof.
  intros (e & m & f & Model & He & Hm & Hf & Hp).
  unfold delete_one, bind, browse, get_state, lift, pool_get.
  rewrite He; simpl. rewrite Hm; simpl. rewrite Hp; simpl. rewrite Hf; simpl.
  destruct (mc_defaults Model !! f_name f) eqn:Hd.
  - destruct (del_default_spec (m_model m) (f_name f) st Model Hp)
      as (st1 & -> & _ & _ & _ & Hnone & _).
    exists st1. split; [done|]. intros e' m' f' [= <-] Hm' Hf'.
    rewrite Hm in Hm'. rewrite Hf in Hf'. by simplify_eq.
  - exists st. split; [done|]. intros e' m' f' [= <-] Hm' Hf'.
    rewrite Hm in Hm'. rewrite Hf in Hf'. simplify_eq.
    unfold provider. by rewrite Hp.
Qed.

Lemma removes_only_weaken ids st st' :
  removes_only ids st st' ->
  same_classes st st' /\
  forall model name,
    ~ key_of st ids model name -> provider st' model name = provider st model name.
Proof. by intros (_ & ? & _ & ?). Qed.

(** C10.  [delete] takes from the [_defaults] of the pool nothing but the
    functions of the records it deletes: the function under any other
    pair of a model and a field name is the one that was there, and the
    classes are otherwise the same; and it returns whenever the records,
    their model and their field are there, whether or not a function was
    installed for them. *)
Theorem delete_removes_only_its_own (ids : list Z) (st : state) :
  (forall model name,
      ~ key_of st ids model name ->
      provider (snd (delete ids st)) model name = provider st model name) /\
  same_classes st (snd (delete ids st)) /\
  ((forall i, In i ids -> resolved st i) -> fst (delete ids st) = Ret tt).
Proof.
  assert (respects (removes_only ids) (for_each ids delete_one)) as Hloop.
  { apply respects_for_each.
    - apply removes_only_refl.
    - apply removes_only_trans.
    - intros i Hi. by apply delete_one_removes. }
  unfold delete, bind.
  destruct (for_each ids delete_one st) as [[[]|e|] st1] eqn:E;
    specialize (Hloop _ _ _ E); destruct (removes_only_weaken _ _ _ Hloop) as [Hc Hp].
  - unfold sql_delete. simpl. split; [done|]. split; [done|]. done.
  - simpl. split; [done|]. split; [done|]. intros Hres. exfalso.
    destruct (for_each_returns
                (fun s => same_records st s /\ same_classes st s) ids delete_one st)
      as (st2 & E2 & _).
    + intros i s Hi [Hr Hcl].
      destruct (delete_one_returns i s) as (s' & Es & _).
      { eapply resolved_same; [done..|]. by apply Hres. }
      exists s'. split; [done|].
      destruct (delete_one_removes ids i Hi _ _ _ Es) as (Hr' & Hc' & _).
      split; [by eapply same_records_trans|by eapply same_classes_trans].
    + split; [apply same_records_refl|apply same_classes_refl].
    + rewrite E in E2. done.
  - simpl. split; [done|]. split; [done|]. intros Hres. exfalso.
    destruct (for_each_returns
                (fun s => same_records st s /\ same_classes st s) ids delete_one st)
      as (st2 & E2 & _).
    + intros i s Hi [Hr Hcl].
      destruct (delete_one_returns i s) as (s' & Es & _).
      { eapply resolved_same; [done..|]. by apply Hres. }
      exists s'. split; [done|].
      destruct (delete_one_removes ids i Hi _ _ _ Es) as (Hr' & Hc' & _).
      split; [by eapply same_records_trans|by eapply same_classes_trans].
    + split; [apply same_records_refl|apply same_classes_refl].
    + rewrite E in E2. done.
Qed.

(** ** [set_default_values] *)

Lemma installs_only_refl st : installs_only st st.
Proof.
  split; [apply same_records_refl|]. split; [apply same_classes_refl|]. done.
Qed.

Lemma installs_only_trans a b c :
  installs_only a b -> installs_only b c -> installs_only a c.
Proof.
  intros (Hr1 & Hc1 & Hl1 & Hp1) (Hr2 & Hc2 & Hl2 & Hp2).
  split; [by eapply same_records_trans|]. split; [by eapply same_classes_trans|].
  split; [congruence|]. auto.
Qed.

Lemma set_default_spec model name f st Model :
  pool st !! model = Some Model ->
  exists st', set_default model name f st = (Ret tt, st') /\
    installs_only st st' /\ provider st' model name = Some f /\
    forall m n, (m, n) <> (model, name) -> provider st' m n = provider st m n.
Proof.
  intros Hm. unfold set_default. rewrite Hm. eexists. split; [done|].
  assert (forall m n, (m, n) <> (model, name) ->
            provider (with_pool st (<[model:=with_defaults Model
                        (<[name:=f]> (mc_defaults Model))]> (pool st))) m n
            = provider st m n) as Hother.
  { intros m n Hne. unfold provider. simpl.
    destruct (decide (m = model)) as [->|Hm'].
    - rewrite lookup_insert_eq, Hm. simpl. apply lookup_insert_ne. congruence.
    - by rewrite lookup_insert_ne. }
  assert (provider (with_pool st (<[model:=with_defaults Model
                        (<[name:=f]> (mc_defaults Model))]> (pool st))) model name
          = Some f) as Hthis.
  { unfold provider. simpl. rewrite lookup_insert_eq. simpl. apply lookup_insert_eq. }
  split; [|done].
  split; [done|]. split.
  { intros m. simpl. destruct (decide (m = model)) as [->|Hne].
    - by rewrite lookup_insert_eq, Hm.
    - rewrite lookup_insert_ne by done. by destruct (pool st !! m). }
  split; [done|].
  intros m n Hs. destruct (decide ((m, n) = (model, name))) as [[= -> ->]|Hne].
  - by rewrite Hthis.
  - by rewrite Hother.
Qed.

Lemma installed_installs_only st st' i :
  installs_only st st' -> installed st i -> installed st' i.
Proof.
  intros (Hr & _ & _ & Hp) (e & m & f & He & Hm & Hf & Hs).
  exists e, m, f.
  rewrite (same_records_find_entry _ _ _ Hr), (same_records_entry_model _ _ _ Hr),
    (same_records_entry_field _ _ _ Hr). auto.
Qed.

(** The body of the loop either leaves the state as it is, and does not
    return, or returns after one assignment to the [_defaults] of the
    model of the record, under the name of its field. *)
Lemma install_inv loc i st r st' :
  install loc i st = (r, st') ->
  (st' = st /\ forall loc', r <> Ret loc') \/
  exists e m Model f g loc',
    find_entry st i = Some e /\ entry_model st e = Some m /\
    pool st !! m_model m = Some Model /\ entry_field st e = Some f /\
    set_default (m_model m) (f_name f) g st = (Ret tt, st') /\ r = Ret loc'.
Proof.
  unfold install, bind, browse, get_state, lift, pool_get, raise.
  destruct (find_entry st i) as [e|] eqn:He; simpl;
    [|intros [= <- <-]; by left].
  destruct (entry_model st e) as [m|] eqn:Hm; simpl;
    [|intros [= <- <-]; by left].
  destruct (pool st !! m_model m) as [Model|] eqn:Hp; simpl;
    [|intros [= <- <-]; by left].
  destruct (entry_field st e) as [f|] eqn:Hf; simpl;
    [|intros [= <- <-]; by left].
  set (def := match default_source _ _ _ with Some src => Some src | None => _ end).
  destruct def as [src|]; [|intros [= <- <-]; by left].
  destruct (exec_source src) as [bound|e1|]; [|intros [= <- <-]; by left..].
  destruct (py_eval _ _) as [g|e1|]; [|intros [= <- <-]; by left..].
  destruct (set_default_spec (m_model m) (f_name f) g st Model Hp)
    as (st1 & E1 & _).
  rewrite E1. unfold ret. intros [= <- <-]. right.
  by eexists e, m, Model, f, g, _.
Qed.

Lemma install_spec loc i st r st' :
  install loc i st = (r, st') ->
  installs_only st st' /\
  (forall loc', r = Ret loc' -> installed st' i).
Proof.
  intros Hrun.
  destruct (install_inv _ _ _ _ _ Hrun)
    as [[-> Hno]|(e & m & Model & f & g & loc1 & He & Hm & Hp & Hf & Hset & ->)].
  - split; [apply installs_only_refl|]. intros loc' ->. by destruct (Hno loc').
  - destruct (set_default_spec (m_model m) (f_name f) g st Model Hp)
      as (st1 & E1 & Hi & Hthis & _).
    rewrite E1 in Hset. injection Hset as <-.
    split; [done|]. intros _ _. destruct Hi as (Hr & _).
    exists e, m, f.
    rewrite (same_records_find_entry _ _ _ Hr), (same_records_entry_model _ _ _ Hr),
      (same_records_entry_field _ _ _ Hr), Hthis. done.
Qed.

Lemma install_all_spec ids loc st r st' :
  install_all loc ids st = (r, st') ->
  installs_only st st' /\
  (forall loc', r = Ret loc' -> forall i, In i ids -> installed st' i).
Proof.
  revert loc st. induction ids as [|i ids IH]; intros loc st; simpl.
  - intros [= <- <-]. split; [apply installs_only_refl|]. by intros _ _ i [].
  - unfold bind. destruct (install loc i st) as [[loc1|e|] st1] eqn:E1.
    + destruct (install_spec _ _ _ _ _ E1) as [Hi1 Hd1].
      intros E2. destruct (IH _ _ E2) as [Hi2 Hd2].
      split; [by eapply installs_only_trans|].
      intros loc' -> j [<-|Hj].
      * eapply installed_installs_only; [done|]. by eapply Hd1.
      * by eapply Hd2.
    + intros [= <- <-]. split; [by eapply install_spec|done].
    + intros [= <- <-]. split; [by eapply install_spec|done].
Qed.

Lemma set_default_values_spec ids st r st' :
  set_default_values ids st = (r, st') ->
  installs_only st st' /\
  (r = Ret tt ->
   forall i, In i (match ids with [] => map e_id (table st) | _ => ids end) ->
             installed st' i).
Proof.
  unfold set_default_values, bind, get_state.
  destruct (install_all (first_locals _) _ st) as [[loc|e|] st1] eqn:E;
    intros [= <- <-]; destruct (install_all_spec _ _ _ _ _ E) as [Hi Hd];
    (split; [done|]); try done.
  intros _. by eapply Hd.
Qed.

(** ** [load_default_values] *)

Lemma exec_source_no_escape src :
  no_escape -> exec_source src <> Unmodelled.
Proof.
  intros [Hexec _]. unfold exec_source.
  destruct (py_exec src) as [?| |]; [done..|].
  pose proof (Hexec src) as Hne. by destruct (exec_beyond src).
Qed.

Lemma py_eval_no_escape ns text :
  no_escape -> py_eval ns text <> Unmodelled.
Proof.
  intros [_ Heval]. unfold py_eval.
  destruct (str_all _ _); [by destruct (ns !! text)|].
  pose proof (Heval text ns) as Hne. by destruct (eval_beyond text ns).
Qed.

Lemma install_no_escape loc i st :
  no_escape -> fst (install loc i st) <> Unmodelled.
Proof.
  intros Hne.
  unfold install, bind, browse, get_state, lift, pool_get, raise.
  destruct (find_entry st i) as [e|]; simpl; [|done].
  destruct (entry_model st e) as [m|]; simpl; [|done].
  destruct (pool st !! m_model m) as [Model|] eqn:Hp; simpl; [|done].
  destruct (entry_field st e) as [f|]; simpl; [|done].
  set (def := match default_source _ _ _ with Some src => Some src | None => _ end).
  destruct def as [src|]; [|done].
  destruct (exec_source src) as [bound|e1|] eqn:Ex; [|done|].
  - destruct (py_eval _ _) as [g|e1|] eqn:Ev; [|done|].
    + destruct (set_default_spec (m_model m) (f_name f) g st Model Hp)
        as (st1 & -> & _). done.
    + by destruct (py_eval_no_escape _ _ Hne Ev).
  - by destruct (exec_source_no_escape _ Hne Ex).
Qed.

Lemma install_all_no_escape ids loc st :
  no_escape -> fst (install_all loc ids st) <> Unmodelled.
Proof.
  intros Hne. revert loc st. induction ids as [|i ids IH]; intros loc st;
    simpl; [done|].
  unfold bind. pose proof (install_no_escape loc i st Hne) as H1.
  destruct (install loc i st) as [[loc1|e|] st1]; [apply IH|done..].
Qed.

Lemma set_default_values_no_escape ids st :
  no_escape -> fst (set_default_values ids st) <> Unmodelled.
Proof.
  intros Hne. unfold set_default_values, bind, get_state.
  pose proof (install_all_no_escape
                match ids with [] => map e_id (table st) | _ => ids end
                (first_locals match ids with
                              | [] => map e_id (table st) | _ => ids end)
                st Hne) as H1.
  by destruct (install_all _ _ st) as [[loc|e|] st1].
Qed.

(** C5.  Whatever [set_default_values] raises at start-up, the method
    returns, with one more warning in the log; it never raises.  The
    errors are those of the method and every error that the interpreter
    reports for a source outside the fragment; and when the interpreter
    reports an error for every such source that it does not take as a
    function, the method returns. *)
Theorem load_default_values_never_raises (st : state) :
  (forall e, fst (load_default_values st) <> Raise e) /\
  (forall e st',
      set_default_values [] st = (Raise e, st') ->
      load_default_values st = (Ret tt, with_log st' (log st' ++ [warning]))) /\
  (forall st',
      set_default_values [] st = (Ret tt, st') ->
      load_default_values st = (Ret tt, st')) /\
  (no_escape -> fst (load_default_values st) = Ret tt).
Proof.
  unfold load_default_values.
  pose proof (set_default_values_no_escape [] st) as Hne.
  destruct (set_default_values [] st) as [[[]|e|] st1]; repeat split; try done.
  all: try by intros; simplify_eq.
  intros Hn. by destruct (Hne Hn).
Qed.

(** ** The table under [write] and [set_value] *)

Lemma same_catalog_type st st' e e' :
  same_catalog st st' -> e_field e' = e_field e ->
  on_change_with_field_type st' e' = on_change_with_field_type st e.
Proof.
  intros [_ Hf] He. unfold on_change_with_field_type, entry_field, find_field.
  by rewrite He, Hf.
Qed.

Lemma installs_only_catalog st st' : installs_only st st' -> same_catalog st st'.
Proof. by intros ((_ & _ & ? & ?) & _). Qed.

Lemma sql_update_spec ids v st :
  sql_update ids v st = (Ret tt, with_table st (updated ids v (table st))) \/
  sql_update ids v st = (Raise (ConstraintError "default_uniq"), st).
Proof. unfold sql_update, updated. destruct (default_uniq _); auto. Qed.

Lemma updated_fields ids d t :
  omap e_field (updated ids (only_default_value d) t) = omap e_field t.
Proof.
  unfold updated. induction t as [|e t IH]; [done|].
  rewrite map_cons. destruct (has_id ids e).
  - change (omap e_field (update_row (only_default_value d) e :: ?l))
      with (match e_field e with Some y => y :: omap e_field l
                                | None => omap e_field l end).
    rewrite IH. reflexivity.
  - change (omap e_field (e :: ?l))
      with (match e_field e with Some y => y :: omap e_field l
                                | None => omap e_field l end).
    rewrite IH. reflexivity.
Qed.

(** Writing [default_value] alone never meets the constraint. *)
Lemma sql_update_default_value ids d st :
  default_uniq (table st) = true ->
  sql_update ids (only_default_value d) st
  = (Ret tt, with_table st (updated ids (only_default_value d) (table st))).
Proof.
  intros Hu. unfold sql_update. fold (updated ids (only_default_value d) (table st)).
  unfold default_uniq. rewrite updated_fields. unfold default_uniq in Hu. by rewrite Hu.
Qed.

(** [save]: the column is written, then the default of the record is
    installed. *)
Lemma save_eq i d st :
  save i d st =
    match sql_update [i] (only_default_value d) st with
    | (Ret _, s1) => set_default_values [i] s1
    | (Raise e, s1) => (Raise e, s1)
    | (Unmodelled, s1) => (Unmodelled, s1)
    end.
Proof.
  unfold save, write_with. cbn [for_each existsb snd fst gives_ref
    only_default_value v_model v_field v_typed orb map concat].
  unfold bind, ret.
  destruct (sql_update [i] (only_default_value d) st) as [[[]|e|] s1]; [|done..].
  by destruct (set_default_values [i] s1) as [[[]|e|] s2].
Qed.

Lemma save_spec i d st r st' :
  save i d st = (r, st') ->
  (st' = st /\ r = Raise (ConstraintError "default_uniq")) \/
  (exists r1,
      set_default_values [i]
        (with_table st (updated [i] (only_default_value d) (table st)))
      = (r1, st') /\
      r = match r1 with Ret _ => Ret tt | Raise e => Raise e | Unmodelled => Unmodelled end).
Proof.
  rewrite save_eq.
  destruct (sql_update_spec [i] (only_default_value d) st) as [-> | ->].
  - destruct (set_default_values [i] _) as [[[]|e|] st2] eqn:E;
      intros [= <- <-]; right; by eexists.
  - intros [= <- <-]. by left.
Qed.


Lemma Forall2_diag {A} (R : A -> A -> Prop) l : (forall x, R x x) -> Forall2 R l l.
Proof. intros HR. induction l; constructor; auto. Qed.





Lemma has_id_single i e : has_id [i] e = (e_id e =? i).
Proof. unfold has_id. simpl. by rewrite orb_false_r. Qed.



Lemma is_type_false ft name : ft <> Some name -> is_type ft name = false.
Proof.
  intros Hne. destruct ft as [t|]; [|done]. simpl.
  apply String.eqb_neq. congruence.
Qed.

Lemma is_type_true ft name : is_type ft name = true <-> ft = Some name.
Proof.
  destruct ft as [t|]; simpl; [|done].
  rewrite String.eqb_eq. split; congruence.
Qed.



(** ** What every method keeps

    The methods change the state through five steps only: a row is
    inserted, rows are updated, rows are deleted, a function is put in
    [_defaults], a function is taken out of it; and the start-up adds a
    line to the log.  A relation between states that is kept by these
    steps is kept by every method. *)

Section Structural.

Variable R : state -> state -> Prop.

Variable allowed : values -> Prop.

Hypothesis R_refl : forall st, R st st.

Hypothesis R_trans : forall a b c, R a b -> R b c -> R a c.

Hypothesis R_insert : forall v, respects R (sql_insert v).

Hypothesis R_update : forall ids v, allowed v -> respects R (sql_update ids v).

Hypothesis R_delete : forall ids, respects R (sql_delete ids).

Hypothesis R_set_default : forall m n f, respects R (set_default m n f).

Hypothesis R_del_default : forall m n, respects R (del_default m n).

Hypothesis R_log : forall st l, R st (with_log st l).

Hypothesis allowed_default_value : forall d, allowed (only_default_value d).

Ltac step :=
  first
    [ apply (respects_ret R R_refl) | apply (respects_raise R R_refl)
    | apply (respects_lift R R_refl) | apply (respects_get_state R R_refl)
    | apply (respects_browse R R_refl) | apply (respects_pool_get R R_refl)
    | apply (respects_bind R R_trans); [|intros ?]
    | apply (respects_for_each R R_refl R_trans); intros ? ?
    | apply R_insert | apply R_delete
    | apply R_set_default | apply R_del_default ].

Lemma install_keeps loc i : respects R (install loc i).
Proof.
  unfold install. repeat step.
  match goal with
  | |- respects R (match ?d with Some _ => _ | None => _ end) =>
      destruct d as [src|]; repeat step
  end.
Qed.

Lemma install_all_keeps ids : forall loc, respects R (install_all loc ids).
Proof.
  induction ids as [|i ids IH]; intros loc; simpl; [step|].
  step; [apply install_keeps|apply IH].
Qed.

Lemma set_default_values_keeps ids : respects R (set_default_values ids).
Proof. unfold set_default_values. repeat step. apply install_all_keeps. Qed.

Lemma validate_keeps ids : respects R (validate ids).
Proof.
  unfold validate. repeat step. destruct (in_domain_of_field _ _); step.
Qed.

Lemma write_with_keeps setter args :
  (forall ids n v, respects R (setter ids n v)) ->
  Forall (fun a => allowed (snd a)) args ->
  respects R (write_with setter args).
Proof.
  intros Hs Ha. unfold write_with. rewrite Forall_forall in Ha.
  step.
  - step. apply R_update. apply Ha. by apply list_elem_of_In.
  - step.
    + repeat step. apply Hs.
    + step.
      * destruct (existsb _ _); [apply validate_keeps|step].
      * step. apply set_default_values_keeps.
Qed.

Lemma save_keeps i d : respects R (save i d).
Proof.
  unfold save. apply write_with_keeps; [intros; step|].
  constructor; [apply allowed_default_value|constructor].
Qed.

Lemma set_value_one_keeps name value i : respects R (set_value_one name value i).
Proof.
  unfold set_value_one. repeat step.
  destruct (_ && _); [apply save_keeps|step].
Qed.

Lemma set_value_keeps ids name value : respects R (set_value ids name value).
Proof. unfold set_value. step. apply set_value_one_keeps. Qed.

Lemma write_keeps args :
  Forall (fun a => allowed (snd a)) args -> respects R (write args).
Proof. apply write_with_keeps. apply set_value_keeps. Qed.

Lemma check_row_keeps v : respects R (check_row v).
Proof.
  unfold check_row. repeat step.
  destruct (member _ _); [step|].
  match goal with
  | |- respects R (match ?d with Some _ => _ | None => _ end) =>
      destruct d as [fd|]; [|step]
  end.
  destruct (fd_functional fd); step.
Qed.

Lemma insert_all_keeps vlist : respects R (insert_all vlist).
Proof.
  induction vlist as [|v vlist IH]; simpl; [step|].
  step; [step|]. step; [apply IH|step].
Qed.

Lemma modelsql_create_keeps vlist : respects R (modelsql_create vlist).
Proof.
  unfold modelsql_create. step; [apply insert_all_keeps|].
  step; [|step; [apply validate_keeps|step]]. do 2 step. apply set_value_keeps.
Qed.

Lemma create_keeps vlist : respects R (create vlist).
Proof.
  unfold create. step; [step; apply check_row_keeps|apply modelsql_create_keeps].
Qed.

Lemma delete_one_keeps i : respects R (delete_one i).
Proof.
  unfold delete_one. repeat step.
  match goal with
  | |- respects R (match ?d with Some _ => _ | None => _ end) =>
      destruct d; step
  end.
Qed.

Lemma delete_keeps ids : respects R (delete ids).
Proof. unfold delete. step; [step; apply delete_one_keeps|step]. Qed.

Lemma load_default_values_keeps : respects R load_default_values.
Proof.
  intros st r st'. unfold load_default_values.
  destruct (set_default_values [] st) as [[[]|e|] st1] eqn:E;
    intros [= <- <-]; pose proof (set_default_values_keeps [] _ _ _ E); eauto.
Qed.

End Structural.

(** ** One entry per field *)

Lemma default_uniq_spec t : default_uniq t = true <-> NoDup (omap e_field t).
Proof. unfold default_uniq. apply bool_decide_eq_true. Qed.

Lemma omap_cons {A B} (f : A -> option B) x l :
  omap f (x :: l) = match f x with Some y => y :: omap f l | None => omap f l end.
Proof. reflexivity. Qed.

Lemma omap_filter_NoDup {A B} (f : A -> option B) (P : A -> Prop)
    `{!forall x, Decision (P x)} (l : list A) :
  NoDup (omap f l) -> NoDup (omap f (filter P l)).
Proof.
  induction l as [|x l IH]; [done|].
  rewrite filter_cons, omap_cons.
  destruct (decide (P x)).
  - rewrite omap_cons. destruct (f x) as [y|]; [|done].
    intros [Hy Hl]%NoDup_cons. apply NoDup_cons. split; [|auto].
    intros Hin. apply Hy.
    apply list_elem_of_omap in Hin as (z & Hz & Hfz).
    apply list_elem_of_omap. exists z. split; [|done].
    by apply list_elem_of_filter in Hz as [_ ?].
  - destruct (f x); [intros [_ ?]%NoDup_cons|]; auto.
Qed.

Lemma keeps_unique_refl st : keeps_unique st st.
Proof. by intros ?. Qed.

Lemma keeps_unique_trans a b c :
  keeps_unique a b -> keeps_unique b c -> keeps_unique a c.
Proof. unfold keeps_unique. auto. Qed.

Lemma sql_insert_unique v : respects keeps_unique (sql_insert v).
Proof.
  intros st r st'. unfold sql_insert.
  destruct (v_model v); [|intros [= <- <-]; apply keeps_unique_refl].
  destruct (v_field v); [|intros [= <- <-]; apply keeps_unique_refl].
  destruct (default_uniq _) eqn:E; intros [= <- <-];
    [|apply keeps_unique_refl].
  intros _. by apply default_uniq_spec.
Qed.

Lemma sql_update_unique ids v : respects keeps_unique (sql_update ids v).
Proof.
  intros st r st'. unfold sql_update.
  destruct (default_uniq _) eqn:E; intros [= <- <-];
    [|apply keeps_unique_refl].
  intros _. by apply default_uniq_spec.
Qed.

Lemma sql_delete_unique ids : respects keeps_unique (sql_delete ids).
Proof.
  intros st r st'. unfold sql_delete. intros [= <- <-].
  unfold keeps_unique, unique_fields. simpl. apply omap_filter_NoDup.
Qed.

Lemma set_default_unique m n f : respects keeps_unique (set_default m n f).
Proof.
  intros st r st'. unfold set_default.
  destruct (pool st !! m); intros [= <- <-]; by intros ?.
Qed.

Lemma del_default_unique m n : respects keeps_unique (del_default m n).
Proof.
  intros st r st'. unfold del_default.
  destruct (pool st !! m); intros [= <- <-]; by intros ?.
Qed.

Lemma transaction_unique {A} (m : M A) :
  respects keeps_unique m -> respects keeps_unique (transaction m).
Proof.
  intros Hm st r st'. unfold transaction.
  destruct (m st) as [[a|e|] st1] eqn:E; intros [= <- <-].
  - by eapply Hm.
  - by intros ?.
  - by intros ?.
Qed.

Lemma serve_unique q st : unique_fields st -> unique_fields (serve q st).
Proof.
  assert (forall {A} (m : M A) st,
             respects keeps_unique m -> unique_fields st ->
             unique_fields (snd (transaction m st))) as Htr.
  { intros A m s Hm Hu. destruct (transaction m s) as [r s'] eqn:E.
    by apply (transaction_unique m Hm s r s'). }
  assert (forall st l, keeps_unique st (with_log st l)) as Hlog
    by by intros ???.
  intros Hu. destruct q as [vlist|args|ids|ids name value|]; simpl; apply Htr;
    try done.
  - apply (create_keeps keeps_unique (fun _ => True));
      first [apply keeps_unique_refl | apply keeps_unique_trans
            | apply sql_insert_unique | intros; apply sql_update_unique
            | apply set_default_unique | done].
  - apply (write_keeps keeps_unique (fun _ => True));
      first [apply keeps_unique_refl | apply keeps_unique_trans
            | intros; apply sql_update_unique
            | apply set_default_unique | by apply Forall_forall | done].
  - apply (delete_keeps keeps_unique);
      first [apply keeps_unique_refl | apply keeps_unique_trans
            | apply sql_delete_unique | apply del_default_unique].
  - apply (set_value_keeps keeps_unique (fun _ => True));
      first [apply keeps_unique_refl | apply keeps_unique_trans
            | intros; apply sql_update_unique
            | apply set_default_unique | done].
  - apply (load_default_values_keeps keeps_unique);
      first [apply keeps_unique_refl | apply keeps_unique_trans
            | apply set_default_unique | apply Hlog].
Qed.

Lemma reachable_unique st : reachable st -> unique_fields st.
Proof.
  induction 1 as [st Ht|st q _ IH].
  - unfold unique_fields. rewrite Ht. constructor.
  - by apply serve_unique.
Qed.

(** ** Steps that write no reference *)

Lemma same_refs_refl e : same_refs e e.
Proof. by repeat split. Qed.

Lemma same_refs_trans a b c : same_refs a b -> same_refs b c -> same_refs a c.
Proof. intros (?&?&?) (?&?&?). repeat split; congruence. Qed.

Lemma Forall2_trans' {A} (R : A -> A -> Prop) l1 l2 l3 :
  (forall x y z, R x y -> R y z -> R x z) ->
  Forall2 R l1 l2 -> Forall2 R l2 l3 -> Forall2 R l1 l3.
Proof.
  intros HR H1. revert l3. induction H1; intros l3 H3; inversion H3; subst;
    constructor; eauto.
Qed.

Lemma same_catalog_refl st : same_catalog st st.
Proof. by split. Qed.

Lemma same_catalog_trans a b c :
  same_catalog a b -> same_catalog b c -> same_catalog a c.
Proof. intros [??] [??]. split; congruence. Qed.

Lemma rewrites_refl st : rewrites st st.
Proof.
  split; [apply same_catalog_refl|]. split; [apply same_classes_refl|].
  split; [done|]. split; [apply Forall2_diag, same_refs_refl|done].
Qed.

Lemma rewrites_trans a b c : rewrites a b -> rewrites b c -> rewrites a c.
Proof.
  intros (Hc1 & Hk1 & Hn1 & Hf1 & Hp1) (Hc2 & Hk2 & Hn2 & Hf2 & Hp2).
  split; [by eapply same_catalog_trans|]. split; [by eapply same_classes_trans|].
  split; [congruence|].
  split; [eapply Forall2_trans'; [apply same_refs_trans|done..]|auto].
Qed.

Lemma installs_only_rewrites st st' : installs_only st st' -> rewrites st st'.
Proof.
  intros (Hr & Hc & _ & Hp). split; [by destruct Hr as (_&_&?&?)|].
  split; [done|]. split; [by destruct Hr as (_&?&_)|].
  split; [|done]. destruct Hr as (-> & _). apply Forall2_diag, same_refs_refl.
Qed.

Lemma same_classes_pool st st' : pool st' = pool st -> same_classes st st'.
Proof. intros Hp m. rewrite Hp. by destruct (pool st !! m). Qed.

Lemma sql_update_rewrites ids v :
  no_refs v -> respects rewrites (sql_update ids v).
Proof.
  intros [Hm Hf] st r st'.
  destruct (sql_update_spec ids v st) as [E | E]; rewrite E; intros [= <- <-].
  - split; [done|]. split; [by apply same_classes_pool|]. split; [done|].
    split; [|done]. simpl. unfold updated. clear E.
    induction (table st) as [|e t IH]; [constructor|].
    rewrite map_cons. constructor; [|done].
    destruct (has_id ids e); [|apply same_refs_refl].
    unfold update_row, same_refs. simpl. by rewrite Hm, Hf.
  - apply rewrites_refl.
Qed.

Lemma set_default_rewrites m n f : respects rewrites (set_default m n f).
Proof.
  intros st r st'. destruct (pool st !! m) as [Model|] eqn:Hm.
  - destruct (set_default_spec m n f st Model Hm) as (st1 & -> & Hi & _).
    intros [= <- <-]. by apply installs_only_rewrites.
  - unfold set_default. rewrite Hm. intros [= <- <-]. apply rewrites_refl.
Qed.

Lemma set_value_rewrites ids name value :
  respects rewrites (set_value ids name value).
Proof.
  apply (set_value_keeps rewrites no_refs);
    first [apply rewrites_refl | apply rewrites_trans
          | apply sql_update_rewrites | apply set_default_rewrites | done].
Qed.

Lemma set_default_values_rewrites ids :
  respects rewrites (set_default_values ids).
Proof.
  apply (set_default_values_keeps rewrites);
    first [apply rewrites_refl | apply rewrites_trans
          | apply set_default_rewrites].
Qed.


Lemma rewrites_unique st st' : rewrites st st' -> keeps_unique st st'.
Proof.
  intros (_ & _ & _ & HF & _). unfold keeps_unique, unique_fields.
  assert (omap e_field (table st') = omap e_field (table st)) as ->; [|done].
  induction HF as [|e e' t t' (_ & _ & Hf) HF IH]; [done|].
  rewrite !omap_cons, Hf, IH. reflexivity.
Qed.

Lemma find_Forall2_fwd t t' i e :
  Forall2 same_refs t t' ->
  find (fun e => e_id e =? i) t = Some e ->
  exists e', find (fun e => e_id e =? i) t' = Some e' /\ same_refs e e'.
Proof.
  intros HF. induction HF as [|a b t t' Hab HF IH]; [done|].
  simpl. destruct Hab as (Hid & Hm & Hf). rewrite Hid. destruct (e_id a =? i).
  - intros [= <-]. exists b. by repeat split.
  - apply IH.
Qed.

Lemma rewrites_installed st st' i :
  rewrites st st' -> installed st i -> installed st' i.
Proof.
  intros (Hc & _ & _ & HF & Hp) (e & m & f & He & Hm & Hf & Hs).
  destruct (find_Forall2_fwd _ _ _ _ HF He) as (e' & He' & _ & Hm' & Hf').
  exists e', m, f. split; [done|].
  destruct Hc as [Hcm Hcf].
  unfold entry_model, entry_field, find_model, find_field in *.
  rewrite Hm', Hf', Hcm, Hcf. auto.
Qed.

(** ** [create] *)

Lemma check_row_state v st : snd (check_row v st) = st.
Proof.
  unfold check_row, bind, get_state, lift, pool_get, raise, ret. simpl.
  destruct (v_field v) as [fid|]; simpl; [|done].
  destruct (find_field st fid) as [field|]; simpl; [|done].
  destruct (find_model st (f_model field)) as [m|]; simpl; [|done].
  destruct (pool st !! m_model m) as [model|]; simpl; [|done].
  destruct (member _ _); [done|].
  destruct (mc_fields model !! f_name field) as [fd|]; [|done].
  by destruct (fd_functional fd).
Qed.

Lemma check_row_target v st field model :
  target st v = Some (field, model) ->
  fst (check_row v st) =
    if exposes_default model field
    then Raise (UserError "field_has_default_value" (f_name field))
    else if is_functional model field
         then Raise (UserError "field_is_functional" (f_name field))
         else match mc_fields model !! f_name field with
              | Some _ => Ret tt
              | None => Raise (KeyError (f_name field))
              end.
Proof.
  unfold target, check_row, bind, get_state, lift, pool_get, raise, ret,
    exposes_default, is_functional. simpl.
  destruct (v_field v) as [fid|]; simpl; [|done].
  destruct (find_field st fid) as [field'|]; simpl; [|done].
  destruct (find_model st (f_model field')) as [m|]; simpl; [|done].
  destruct (pool st !! m_model m) as [model'|]; simpl; [|done].
  intros [= -> ->].
  destruct (member _ _); [done|].
  destruct (mc_fields model !! f_name field) as [fd|]; [|done].
  by destruct (fd_functional fd).
Qed.

Lemma check_row_same st st' v v' :
  same_catalog st st' -> same_classes st st' -> v_field v' = v_field v ->
  fst (check_row v' st') = fst (check_row v st).
Proof.
  intros [Hcm Hcf] Hk Hv.
  unfold check_row, bind, get_state, lift, pool_get, raise, ret. simpl.
  rewrite Hv. destruct (v_field v) as [fid|]; simpl; [|done].
  unfold find_field, find_model. rewrite Hcf, Hcm.
  destruct (find _ (ir_fields st)) as [field|]; simpl; [|done].
  destruct (find _ (ir_models st)) as [m|]; simpl; [|done].
  specialize (Hk (m_model m)).
  destruct (pool st !! m_model m) as [model|], (pool st' !! m_model m) as [model'|];
    simpl; try done.
  destruct Hk as (-> & -> & _).
  destruct (member _ _); [done|].
  destruct (mc_fields model !! _) as [fd|]; [|done].
  by destruct (fd_functional fd).
Qed.

Lemma checks_state vlist st : snd (for_each vlist check_row st) = st.
Proof.
  induction vlist as [|v vlist IH]; [done|]. simpl. unfold bind.
  pose proof (check_row_state v st) as Hs.
  destruct (check_row v st) as [[[]|e|] st1]; simpl in Hs; subst; done.
Qed.

(** The checks pass on the rows [pre], and stop at the next row with the
    error [e]. *)
Lemma checks_stop pre v post st e :
  Forall (fun r => fst (check_row r st) = Ret tt) pre ->
  fst (check_row v st) = Raise e ->
  for_each (pre ++ v :: post) check_row st = (Raise e, st).
Proof.
  intros Hpre Hv. induction Hpre as [|r pre Hr Hpre IH]; simpl; unfold bind.
  - pose proof (check_row_state v st) as Hs.
    destruct (check_row v st) as [res st1]; simpl in *. by subst.
  - pose proof (check_row_state r st) as Hs.
    destruct (check_row r st) as [res st1]; simpl in *. by subst.
Qed.

Lemma create_stops vlist st e :
  for_each vlist check_row st = (Raise e, st) ->
  create vlist st = (Raise e, st).
Proof. intros Hc. unfold create, bind. by rewrite Hc. Qed.

(** C3, as the code has it.  The rows are checked in order, and for each
    the default method is looked for before the kind of the field: when
    the rows before [v] pass, and the model of the field of [v] has an
    attribute [default_<field>], [create] raises the error
    [field_has_default_value]; when it has none and the field is a
    [fields.Function], it raises [field_is_functional].  In both cases
    the state is the one before the call: no row is stored, no function
    installed. *)
Theorem create_refuses (st : state) (pre post : list values) (v : values)
    (field : ir_model_field) (model : model_class) :
  Forall (fun r => fst (check_row r st) = Ret tt) pre ->
  target st v = Some (field, model) ->
  (exposes_default model field = true ->
   create (pre ++ v :: post) st
   = (Raise (UserError "field_has_default_value" (f_name field)), st)) /\
  (exposes_default model field = false -> is_functional model field = true ->
   create (pre ++ v :: post) st
   = (Raise (UserError "field_is_functional" (f_name field)), st)).
Proof.
  intros Hpre Ht. pose proof (check_row_target v st field model Ht) as Hc.
  split.
  - intros He. rewrite He in Hc. by apply create_stops, checks_stop.
  - intros He Hf. rewrite He, Hf in Hc. by apply create_stops, checks_stop.
Qed.

Lemma sql_insert_spec v st i st' :
  sql_insert v st = (Ret i, st') ->
  i = next_id st /\ table st' = table st ++ [row_of i v] /\
  next_id st' = next_id st + 1 /\ pool st' = pool st /\
  same_catalog st st' /\ log st' = log st /\ unique_fields st' /\
  is_Some (v_model v) /\ is_Some (v_field v).
Proof.
  unfold sql_insert.
  destruct (v_model v) as [m|] eqn:Hm; [|done].
  destruct (v_field v) as [f|] eqn:Hf; [|done].
  destruct (default_uniq _) eqn:Hu; [|done].
  intros [= <- <-]. simpl. unfold row_of. rewrite Hm, Hf.
  split_and!; try done. by apply default_uniq_spec.
Qed.

Lemma insert_all_spec vlist st ids st' :
  insert_all vlist st = (Ret ids, st') ->
  ids = map e_id (rows_of (next_id st) vlist) /\
  table st' = table st ++ rows_of (next_id st) vlist /\
  next_id st' = next_id st + Z.of_nat (length vlist) /\
  pool st' = pool st /\ same_catalog st st' /\ log st' = log st /\
  (vlist <> [] -> unique_fields st').
Proof.
  revert st ids st'. induction vlist as [|v vlist IH]; intros st ids st'; simpl.
  - intros [= <- <-]. rewrite app_nil_r, Z.add_0_r. by split_and!.
  - unfold bind at 1. destruct (sql_insert v st) as [[i|e|] st1] eqn:E1; [|done..].
    apply sql_insert_spec in E1 as (-> & Ht1 & Hn1 & Hp1 & Hc1 & Hl1 & Hu1 & _).
    unfold bind. destruct (insert_all vlist st1) as [[ids1|e|] st2] eqn:E2; [|done..].
    intros [= <- <-].
    apply IH in E2 as (-> & Ht2 & Hn2 & Hp2 & Hc2 & Hl2 & Hu2).
    rewrite Hn1 in *. split_and!; try congruence.
    + rewrite Ht2, Ht1, <- app_assoc. done.
    + lia.
    + by eapply same_catalog_trans.
    + intros _. destruct vlist; [|by apply Hu2].
      simpl in Ht2. rewrite app_nil_r in Ht2. unfold unique_fields in *.
      by rewrite Ht2.
Qed.

(** A loop that returns has run its body, with success, for each
    element. *)
Lemma for_each_ret_inv {A} (R : state -> state -> Prop) (l : list A)
    (body : A -> M unit) st st' x :
  (forall st, R st st) -> (forall a b c, R a b -> R b c -> R a c) ->
  (forall y, respects R (body y)) ->
  for_each l body st = (Ret tt, st') -> In x l ->
  exists s s', R st s /\ body x s = (Ret tt, s') /\ R s' st'.
Proof.
  intros Hrefl Htrans Hb. revert st. induction l as [|y l IH]; intros st; [done|].
  simpl. unfold bind. destruct (body y st) as [[[]|e|] st1] eqn:E1; [|done..].
  intros E2 [<-|Hin].
  - exists st, st1. split; [done|]. split; [done|].
    by apply (respects_for_each R Hrefl Htrans l body (fun y _ => Hb y) st1 (Ret tt)).
  - destruct (IH _ E2 Hin) as (s & s' & H1 & H2 & H3).
    exists s, s'. split; [|done]. eapply Htrans; [|done]. by eapply Hb.
Qed.

Lemma set_typed_rewrites iv : respects rewrites (set_typed iv).
Proof.
  apply respects_for_each; [apply rewrites_refl|apply rewrites_trans|].
  intros nv _. apply set_value_rewrites.
Qed.

Lemma validate_cons i ids st :
  validate (i :: ids) st =
    match find_entry st i with
    | Some self =>
        if in_domain_of_field st self then validate ids st
        else (Raise (UserError "domain_validation_record" "field"), st)
    | None => (Raise (KeyError "id"), st)
    end.
Proof.
  unfold validate. cbn [for_each]. unfold bind at 1. unfold bind at 1, browse.
  destruct (find_entry st i) as [self|]; [|done]. cbn [of_option].
  unfold bind at 1, get_state.
  by destruct (in_domain_of_field st self).
Qed.

(** The validation is a check: it returns or raises, and leaves the
    state as it is. *)
Lemma validate_checks ids st :
  validate ids st = (Ret tt, st) \/
  validate ids st = (Raise (UserError "domain_validation_record" "field"), st) \/
  validate ids st = (Raise (KeyError "id"), st).
Proof.
  induction ids as [|i ids IH]; [by left|].
  rewrite validate_cons.
  destruct (find_entry st i) as [self|]; [|right; by right].
  destruct (in_domain_of_field st self); [exact IH|right; by left].
Qed.

Lemma validate_state ids st : snd (validate ids st) = st.
Proof. by destruct (validate_checks ids st) as [-> |[-> | ->]]. Qed.

(** The validation at the end of [super().write]. *)
Lemma validation_checks (b : bool) ids st :
  (if b then validate ids else ret tt) st = (Ret tt, st) \/
  exists e, (if b then validate ids else ret tt) st = (Raise e, st).
Proof.
  destruct b; [|by left].
  destruct (validate_checks ids st) as [-> |[-> | ->]]; [by left|right..];
    by eexists.
Qed.

(** A [create] that returns: the checks have passed, the rows are
    inserted, the setters of the typed values have returned, and the new
    records are in the domain. *)
Lemma create_ret_inv vlist st ids st' :
  create vlist st = (Ret ids, st') ->
  for_each vlist check_row st = (Ret tt, st) /\
  exists st1,
    insert_all vlist st = (Ret ids, st1) /\
    for_each (combine ids vlist) set_typed st1 = (Ret tt, st') /\
    rewrites st1 st' /\
    validate ids st' = (Ret tt, st').
Proof.
  unfold create, bind at 1.
  pose proof (checks_state vlist st) as Hs.
  destruct (for_each vlist check_row st) as [[[]|e|] s0]; simpl in Hs; subst s0;
    [|done..].
  unfold modelsql_create, bind at 1.
  destruct (insert_all vlist st) as [[ids1|e|] st1] eqn:E1; [|done..].
  unfold bind at 1.
  destruct (for_each (combine ids1 vlist) set_typed st1) as [[[]|e|] st2] eqn:E2;
    [|done..].
  unfold bind, ret.
  destruct (validate_checks ids1 st2) as [Hv|[Hv|Hv]]; rewrite Hv; [|done..].
  intros [= <- <-]. split; [done|]. exists st1. split; [done|]. split; [done|].
  split; [|done].
  apply (respects_for_each rewrites rewrites_refl rewrites_trans _ _
           (fun iv _ => set_typed_rewrites iv) _ _ _ E2).
Qed.

Lemma omap_app_field t t' :
  omap e_field (t ++ t') = omap e_field t ++ omap e_field t'.
Proof. apply omap_app. Qed.

(** A row that passes the checks of [create] names a field. *)
Lemma check_row_field v st : fst (check_row v st) = Ret tt -> is_Some (v_field v).
Proof.
  unfold check_row, bind, get_state, lift. simpl.
  destruct (v_field v) as [fid|]; [by eexists|done].
Qed.

Lemma checks_pass vlist st :
  for_each vlist check_row st = (Ret tt, st) ->
  Forall (fun v => fst (check_row v st) = Ret tt) vlist.
Proof.
  induction vlist as [|v vlist IH]; [constructor|].
  simpl. unfold bind. pose proof (check_row_state v st) as Hs.
  destruct (check_row v st) as [[[]|e|] s1] eqn:E; simpl in Hs; subst s1;
    [|done..].
  intros Hrest. constructor; [by rewrite E|by apply IH].
Qed.

(** Rows that name a model and a field, of which one names a field that
    the table, or a row before it, has: the insertion stops at the
    constraint. *)
Lemma insert_all_stops vlist st :
  Forall (fun v => is_Some (v_model v) /\ is_Some (v_field v)) vlist ->
  unique_fields st ->
  ~ NoDup (omap e_field (table st) ++ omap v_field vlist) ->
  exists st',
    insert_all vlist st = (Raise (ConstraintError "default_uniq"), st').
Proof.
  intros Hall. revert st. induction Hall as [|v vlist [[m Hm] [f Hf]] _ IH];
    intros st Hu Hdup.
  - rewrite app_nil_r in Hdup. done.
  - simpl. unfold bind at 1.
    destruct (sql_insert v st) as [[i|e|] st1] eqn:E1.
    + apply sql_insert_spec in E1 as (-> & Ht1 & _ & _ & _ & _ & Hu1 & _).
      destruct (IH st1 Hu1) as [st' Hst'].
      { rewrite Ht1, omap_app. unfold row_of. rewrite omap_cons. cbn [e_field].
        rewrite Hf. simpl omap. rewrite <- app_assoc. simpl.
        by rewrite omap_cons, Hf in Hdup. }
      exists st'. unfold bind. by rewrite Hst'.
    + revert E1. unfold sql_insert. rewrite Hm, Hf.
      destruct (default_uniq _); [done|]. intros [= <- <-]. by eexists.
    + revert E1. unfold sql_insert. rewrite Hm, Hf.
      by destruct (default_uniq _).
Qed.

(** C6.  No two rows of a table that the module reaches have the same
    field.  In any state, a [create] of a row for a field that has an
    entry raises the error of the constraint [default_uniq], when the
    row passes the checks of [create] and names a model, and leaves the
    state as it is.  And a [create] of several rows, of which one is for
    a field that has an entry or that a row before it is for, raises
    that error, and the request leaves the table as it was. *)
Theorem one_entry_per_field :
  (forall st, reachable st -> NoDup (omap e_field (table st))) /\
  (forall st v f,
      v_field v = Some f -> f ∈ omap e_field (table st) ->
      is_Some (v_model v) ->
      fst (check_row v st) = Ret tt ->
      create [v] st = (Raise (ConstraintError "default_uniq"), st)) /\
  (forall st vlist,
      unique_fields st ->
      ~ NoDup (omap e_field (table st) ++ omap v_field vlist) ->
      for_each vlist check_row st = (Ret tt, st) ->
      Forall (fun v => is_Some (v_model v)) vlist ->
      fst (create vlist st) = Raise (ConstraintError "default_uniq") /\
      table (serve (Create vlist) st) = table st).
Proof.
  split; [apply reachable_unique|]. split.
  - intros st v f Hf Hin [m Hm] Hchk.
    assert (check_row v st = (Ret tt, st)) as Hchk'.
    { pose proof (check_row_state v st) as Hs.
      destruct (check_row v st) as [r s1]; simpl in *. by subst. }
    unfold create, bind at 1. simpl for_each. unfold bind at 1. rewrite Hchk'.
    unfold ret at 1. unfold modelsql_create, bind at 1. simpl insert_all.
    unfold bind at 1. unfold sql_insert. rewrite Hm, Hf.
    assert (default_uniq
              (table st ++
               [{| e_id := next_id st; e_model := Some m; e_field := Some f;
                   e_default_value :=
                     if v_default_value v is Some d then d else None |}])
            = false) as ->; [|done].
    apply not_true_is_false. rewrite default_uniq_spec, omap_app_field.
    intros Hnd. apply NoDup_app in Hnd as (_ & Hnd & _).
    apply (Hnd f Hin). rewrite omap_cons. by left.
  - intros st vlist Hu Hdup Hchk Hmod.
    assert (Forall (fun v => is_Some (v_model v) /\ is_Some (v_field v)) vlist)
      as Hall.
    { apply checks_pass in Hchk. rewrite Forall_forall in *.
      intros v Hv. split; [by apply Hmod|].
      by apply (check_row_field v st), Hchk. }
    destruct (insert_all_stops vlist st Hall Hu Hdup) as [st' Hins].
    assert (create vlist st = (Raise (ConstraintError "default_uniq"), st'))
      as Hcr.
    { unfold create, bind at 1. rewrite Hchk.
      unfold modelsql_create, bind at 1. by rewrite Hins. }
    split; [by rewrite Hcr|].
    unfold serve, transaction. by rewrite Hcr.
Qed.

(** ** [get_selection_values] *)

Lemma record_options_NoDup (rs : list (Z * string)) :
  NoDup (map fst rs) -> NoDup (map record_option rs).
Proof.
  induction rs as [|r rs IH]; [constructor|].
  simpl. intros [Hr Hrs]%NoDup_cons. apply NoDup_cons. split; [|auto].
  intros Hin. apply Hr. apply list_elem_of_In in Hin.
  apply in_map_iff in Hin as (r' & Heq & Hin).
  apply list_elem_of_In, in_map_iff. exists r'. split; [|done].
  unfold record_option in Heq. inversion Heq as [[Hs Hn]].
  by apply str_of_Z_inj.
Qed.

Lemma pairs_NoDup (l : list (pyval * string)) : NoDup (map Pair l) <-> NoDup l.
Proof.
  induction l as [|x l IH]; simpl.
  - split; constructor.
  - rewrite !NoDup_cons, IH.
    assert (Pair x ∈ map Pair l <-> x ∈ l) as ->; [|done].
    rewrite !list_elem_of_In, in_map_iff. split.
    + by intros (y & [= ->] & Hy).
    + intros Hx. by exists x.
Qed.

Lemma pair_in_pairs (x : pyval * string) l : Pair x ∈ map Pair l <-> x ∈ l.
Proof.
  rewrite !list_elem_of_In, in_map_iff. split.
  - by intros (y & [= ->] & Hy).
  - intros Hx. by exists x.
Qed.

(** C8, as the code has it.  For a field of a model that is in the
    catalogue, the options are the empty option followed, for a
    [selection] whose field declares a list of options, by these
    options, in their order, and, for a [many2one], by one option per
    record of the related model: its id as text and its name.  Nothing
    is taken out of the list: the options of a [selection] have no
    duplicate exactly when the declared options have none and do not
    hold the empty option themselves; the options of a [many2one] have
    none when the ids of the records are distinct. *)
Theorem selection_options (st : state) (self : entry)
    (field : ir_model_field) (model : ir_model) :
  entry_field st self = Some field ->
  find_model st (f_model field) = Some model ->
  (f_ttype field = "selection" ->
   forall Model fd options,
     pool st !! m_model model = Some Model ->
     mc_fields Model !! f_name field = Some fd ->
     fd_selection fd = Some (Options options) ->
     get_selection_values st self
     = Ret (Pair (PNone, "") :: map Pair options) /\
     (NoDup (Pair (PNone, "") :: map Pair options) <->
      ((PNone, "") ∉ options) /\ NoDup options)) /\
  (f_ttype field = "many2one" ->
   forall Model,
     pool st !! f_relation field = Some Model ->
     get_selection_values st self
     = Ret (Pair (PNone, "")
            :: map Pair (map record_option (mc_records Model))) /\
     (NoDup (map fst (mc_records Model)) ->
      NoDup (Pair (PNone, "")
             :: map Pair (map record_option (mc_records Model))))).
Proof.
  intros Hf Hm. unfold get_selection_values, on_change_with_field_type.
  rewrite Hf, Hm. split.
  - intros Ht Model fd options HM Hfd Hsel. rewrite Ht. simpl is_type. cbv iota.
    rewrite HM, Hfd, Hsel. split; [done|].
    by rewrite NoDup_cons, pair_in_pairs, pairs_NoDup.
  - intros Ht Model HM. rewrite Ht. simpl is_type. cbv iota.
    rewrite HM. split; [done|].
    intros Hnd. apply NoDup_cons. rewrite pair_in_pairs, pairs_NoDup.
    split; [|by apply record_options_NoDup].
    intros Hin. apply list_elem_of_In, in_map_iff in Hin as (r & Heq & _).
    discriminate Heq.
Qed.

(** ** The references of an entry *)









(** ** When the functions are installed *)

Lemma write_installs args st st' :
  write args st = (Ret tt, st') ->
  forall a i, In a args -> In i (fst a) -> installed st' i.
Proof.
  unfold write, write_with, bind at 1.
  destruct (for_each args _ st) as [[[]|e|] s1]; [|done..].
  unfold bind at 1.
  destruct (for_each args _ s1) as [[[]|e|] s2]; [|done..].
  unfold bind at 1.
  destruct (validation_checks (existsb (fun a => gives_ref (snd a)) args)
              (concat (map fst args)) s2) as [-> |[e ->]]; [|done].
  intros E a i Ha Hi.
  destruct (for_each_ret_inv rewrites args
              (fun a => set_default_values (fst a)) s2 st' a
              rewrites_refl rewrites_trans
              (fun y => set_default_values_rewrites (fst y)) E Ha)
    as (s & s' & _ & Es & Hrw).
  eapply rewrites_installed; [done|].
  apply set_default_values_spec in Es as [_ Hd].
  apply Hd; [done|]. by destruct (fst a).
Qed.

Lemma startup_installs st st' :
  set_default_values [] st = (Ret tt, st') ->
  forall e, In e (table st) -> installed st' (e_id e).
Proof.
  intros E e He. apply set_default_values_spec in E as [_ Hd].
  apply Hd; [done|]. by apply in_map.
Qed.

Lemma forgets_refl st : forgets st st.
Proof. split; [apply same_records_refl|done]. Qed.

Lemma forgets_trans a b c : forgets a b -> forgets b c -> forgets a c.
Proof.
  intros [Hr1 Hp1] [Hr2 Hp2]. split; [by eapply same_records_trans|auto].
Qed.

Lemma delete_one_forgets i : respects forgets (delete_one i).
Proof.
  apply (delete_one_keeps forgets); [apply forgets_refl|apply forgets_trans|].
  intros m n st r st'. destruct (pool st !! m) as [Model|] eqn:Hm.
  - destruct (del_default_spec m n st Model Hm) as (s & -> & Hr & _ & _ & Hnone & Hother).
    intros [= <- <-]. split; [done|]. intros m' n' Hn.
    destruct (decide ((m', n') = (m, n))) as [[= -> ->]|Hne]; [done|].
    by rewrite Hother.
  - unfold del_default. rewrite Hm. intros [= <- <-]. apply forgets_refl.
Qed.

Lemma delete_one_ret_resolved i st st' :
  delete_one i st = (Ret tt, st') -> resolved st i.
Proof.
  unfold delete_one, bind, browse, get_state, lift, pool_get.
  destruct (find_entry st i) as [e|] eqn:He; simpl; [|done].
  destruct (entry_model st e) as [m|] eqn:Hm; simpl; [|done].
  destruct (pool st !! m_model m) as [Model|] eqn:Hp; simpl; [|done].
  destruct (entry_field st e) as [f|] eqn:Hf; simpl; [|done].
  intros _. by exists e, m, f, Model.
Qed.

Lemma delete_uninstalls ids st st' :
  delete ids st = (Ret tt, st') ->
  forall i e m f,
    In i ids -> find_entry st i = Some e -> entry_model st e = Some m ->
    entry_field st e = Some f -> provider st' (m_model m) (f_name f) = None.
Proof.
  unfold delete, bind.
  destruct (for_each ids delete_one st) as [[[]|e0|] s1] eqn:E; [|done..].
  unfold sql_delete. intros [= <-] i e m f Hi He Hm Hf.
  destruct (for_each_ret_inv forgets ids delete_one st s1 i
              forgets_refl forgets_trans delete_one_forgets E Hi)
    as (s & s' & [Hr _] & Es & [_ Hkeep]).
  change (provider s1 (m_model m) (f_name f) = None). apply Hkeep.
  destruct (delete_one_returns i s (delete_one_ret_resolved _ _ _ Es))
    as (s'' & Es' & Hnone).
  rewrite Es in Es'. injection Es' as <-.
  apply (Hnone e).
  - by rewrite (same_records_find_entry _ _ _ Hr).
  - by rewrite (same_records_entry_model _ _ _ Hr).
  - by rewrite (same_records_entry_field _ _ _ Hr).
Qed.

Lemma find_rows_of n vlist k v :
  vlist !! k = Some v ->
  find (fun e => e_id e =? n + Z.of_nat k) (rows_of n vlist)
  = Some (row_of (n + Z.of_nat k) v).
Proof.
  revert n k. induction vlist as [|w vlist IH]; intros n k; [done|].
  destruct k as [|k].
  - intros [= ->]. simpl. by rewrite Z.add_0_r, Z.eqb_refl.
  - intros Hk. cbn [rows_of find].
    change (e_id (row_of n w)) with n.
    destruct (n =? n + Z.of_nat (S k)) eqn:E; [apply Z.eqb_eq in E; lia|].
    replace (n + Z.of_nat (S k)) with (n + 1 + Z.of_nat k) by lia.
    by apply IH.
Qed.

Lemma find_app_fresh (t t' : list entry) i :
  Forall (fun e => e_id e <> i) t ->
  find (fun e => e_id e =? i) (t ++ t') = find (fun e => e_id e =? i) t'.
Proof.
  induction 1 as [|e t He _ IH]; [done|]. simpl.
  destruct (e_id e =? i) eqn:E; [by apply Z.eqb_eq in E|done].
Qed.

Lemma combine_rows_of n vlist k v :
  vlist !! k = Some v ->
  In (n + Z.of_nat k, v) (combine (map e_id (rows_of n vlist)) vlist).
Proof.
  revert n k. induction vlist as [|w vlist IH]; intros n k; [done|].
  destruct k as [|k].
  - intros [= ->]. left. by rewrite Z.add_0_r.
  - intros Hk. right.
    replace (n + Z.of_nat (S k)) with (n + 1 + Z.of_nat k) by lia.
    by apply IH.
Qed.

Lemma set_value_single_installs i name value st st' e :
  unique_fields st ->
  find_entry st i = Some e -> on_change_with_field_type st e = Some name ->
  is_not_none value = true ->
  set_value [i] name value st = (Ret tt, st') -> installed st' i.
Proof.
  intros Hu He Ht Hnn. unfold set_value. simpl. unfold bind at 1.
  destruct (set_value_one name value i st) as [[[]|e0|] s1] eqn:E; [|done..].
  intros [= <-]. revert E.
  unfold set_value_one, bind, browse, get_state. rewrite He. simpl.
  rewrite (proj2 (is_type_true _ _) Ht), Hnn. simpl.
  intros Hs. apply save_spec in Hs as [[_ ?]|(r1 & Hsd & Hr)]; [done|].
  destruct r1 as [[]|?|]; try done.
  apply set_default_values_spec in Hsd as [_ Hd]. apply Hd; [done|].
  by left.
Qed.

(** A [create] with a typed value of the type of the field installs the
    function of the new record. *)
Lemma create_installs vlist st ids st' k v name value fid field :
  fresh_ids st ->
  create vlist st = (Ret ids, st') ->
  vlist !! k = Some v -> In (name, value) (v_typed v) ->
  is_not_none value = true ->
  v_field v = Some fid -> find_field st fid = Some field ->
  f_ttype field = name ->
  installed st' (next_id st + Z.of_nat k).
Proof.
  intros Hfresh Hcr Hk Hnv Hnn Hvf Hff Htt.
  apply create_ret_inv in Hcr as (_ & st1 & Hins & Hloop & _).
  apply insert_all_spec in Hins as (-> & Ht1 & _ & _ & Hc1 & _ & Hu1).
  set (i := next_id st + Z.of_nat k) in *.
  destruct (for_each_ret_inv rewrites _ set_typed st1 st' (i, v)
              rewrites_refl rewrites_trans set_typed_rewrites Hloop
              (combine_rows_of _ _ _ _ Hk))
    as (s & s' & Hrs & Es & Hrs').
  unfold set_typed in Es. simpl in Es.
  destruct (for_each_ret_inv rewrites _
              (fun nv : string * pyval => set_value [i] (fst nv) (snd nv))
              s s' (name, value)
              rewrites_refl rewrites_trans
              (fun nv => set_value_rewrites [i] (fst nv) (snd nv)) Es Hnv)
    as (t & t' & Hrt & Et & Hrt').
  simpl in Et.
  eapply rewrites_installed; [exact Hrs'|].
  eapply rewrites_installed; [exact Hrt'|].
  assert (rewrites st1 t) as Hr1t by by eapply rewrites_trans.
  assert (find_entry st1 i = Some (row_of i v)) as Hfind.
  { unfold find_entry. rewrite Ht1, find_app_fresh.
    - by apply find_rows_of.
    - eapply Forall_impl; [exact Hfresh|]. simpl. intros e He. unfold i. lia. }
  pose proof Hr1t as (Hcat & _ & _ & HF & _).
  destruct (find_Forall2_fwd _ _ _ _ HF Hfind) as (e' & He' & _ & _ & Hf').
  eapply set_value_single_installs; [| exact He' | | exact Hnn | exact Et].
  - eapply rewrites_unique; [exact Hr1t|].
    apply Hu1. by destruct vlist.
  - unfold on_change_with_field_type, entry_field. rewrite Hf'. simpl.
    rewrite Hvf. unfold find_field in *.
    destruct Hcat as [_ Hcf]. destruct Hc1 as [_ Hcf1].
    rewrite Hcf, Hcf1, Hff. by rewrite Htt.
Qed.

Lemma insert_all_pool vlist : respects (fun st st' => pool st' = pool st) (insert_all vlist).
Proof.
  apply (insert_all_keeps (fun st st' => pool st' = pool st)); [done|congruence|].
  intros v st r st'. unfold sql_insert.
  destruct (v_model v), (v_field v); try destruct (default_uniq _);
    by intros [= <- <-].
Qed.

(** A [create] without typed values leaves the pool as it is. *)
Lemma create_without_value vlist st :
  Forall (fun v => v_typed v = []) vlist ->
  pool (snd (create vlist st)) = pool st.
Proof.
  intros Hno. unfold create, bind at 1.
  pose proof (checks_state vlist st) as Hs.
  destruct (for_each vlist check_row st) as [[[]|e|] s0]; simpl in Hs; subst s0;
    [|done..].
  unfold modelsql_create, bind at 1.
  destruct (insert_all vlist st) as [r st1] eqn:E1.
  pose proof (insert_all_pool vlist _ _ _ E1) as Hp. simpl in Hp.
  destruct r as [ids|e|]; [|done..].
  assert (for_each (combine ids vlist) set_typed st1 = (Ret tt, st1)) as Hloop.
  { clear E1. revert ids. induction Hno as [|v vlist Hv Hno IH];
      intros [|i ids]; try done.
    cbn [combine for_each]. unfold set_typed at 1. cbn [snd fst].
    rewrite Hv. cbn [for_each].
    unfold bind at 1. unfold ret at 1. apply IH. }
  unfold bind at 1. rewrite Hloop. unfold bind, ret.
  by destruct (validate_checks ids st1) as [-> |[-> | ->]].
Qed.

(** ** [get_value], kind by kind *)

Section GetValue.

Variables (st : state) (self : entry).

Let value := e_default_value self.

Let text := value_text (e_default_value self).

Lemma get_value_boolean :
  on_change_with_field_type st self = Some "boolean" ->
  get_value st self "boolean"
  = Ret (PBool (if value is Some v then String.eqb v "True" else false)).
Proof. intros Ht. unfold get_value. rewrite Ht. reflexivity. Qed.

Lemma get_value_integer :
  on_change_with_field_type st self = Some "integer" ->
  get_value st self "integer"
  = if truthy value
    then of_option ConversionError (option_map PInt (py_int text))
    else Ret (PInt 0).
Proof. intros Ht. unfold get_value. rewrite Ht. reflexivity. Qed.

Lemma get_value_float :
  on_change_with_field_type st self = Some "float" ->
  get_value st self "float"
  = if truthy value
    then of_option ConversionError (option_map PFloat (float_of_str text))
    else Ret (PFloat float_zero).
Proof. intros Ht. unfold get_value. rewrite Ht. reflexivity. Qed.

Lemma get_value_numeric :
  on_change_with_field_type st self = Some "numeric" ->
  get_value st self "numeric"
  = if truthy value
    then of_option ConversionError (option_map PDecimal (dec_of_str text))
    else Ret (PDecimal (DFinite false "0" (-1))).
Proof. intros Ht. unfold get_value. rewrite Ht. reflexivity. Qed.

Lemma get_value_date :
  on_change_with_field_type st self = Some "date" ->
  get_value st self "date"
  = if truthy value then
      match py_int (py_slice 0 4 text), py_int (py_slice 5 7 text),
            py_int (str_drop 8 text) with
      | Some y, Some m, Some d =>
          of_option ConversionError (option_map PDate (date_new y m d))
      | _, _, _ => Raise ConversionError
      end
    else Ret PNone.
Proof. intros Ht. unfold get_value. rewrite Ht. reflexivity. Qed.

Lemma get_value_datetime :
  on_change_with_field_type st self = Some "datetime" ->
  get_value st self "datetime"
  = if truthy value
    then of_option ConversionError (option_map PDateTime (strptime text))
    else Ret PNone.
Proof. intros Ht. unfold get_value. rewrite Ht. reflexivity. Qed.

Lemma get_value_time :
  on_change_with_field_type st self = Some "time" ->
  get_value st self "time"
  = if truthy value then
      match py_int (py_slice 0 2 text), py_int (py_slice 3 5 text),
            py_int (str_drop 6 text) with
      | Some h, Some m, Some s =>
          match time_new h m s with
          | Some t => Ret (if time_truthy t then PTime t else PNone)
          | None => Raise ConversionError
          end
      | _, _, _ => Raise ConversionError
      end
    else Ret PNone.
Proof. intros Ht. unfold get_value. rewrite Ht. reflexivity. Qed.

Lemma get_value_text kind :
  member kind ["char"; "text"; "many2one"; "selection"; "reference"] = true ->
  on_change_with_field_type st self = Some kind ->
  get_value st self kind = Ret (stored value).
Proof.
  intros Hk Ht. unfold get_value. rewrite Ht. simpl is_type.
  rewrite String.eqb_refl. unfold member in Hk. simpl in Hk.
  repeat (apply orb_true_iff in Hk as [Hk|Hk];
          [apply String.eqb_eq in Hk; subst kind; reflexivity|]).
  done.
Qed.

End GetValue.

Lemma truthy_text s : s <> "" -> truthy (Some s) = true.
Proof. by destruct s. Qed.

(** ** Writing a value and reading it back *)

Lemma dec_str_nonempty d :
  dec_of_str (dec_str d) = Some d -> dec_str d <> "".
Proof. intros Hd He. rewrite He in Hd. done. Qed.

Lemma date_str_nonempty d : valid_date d = true -> date_str d <> "".
Proof.
  intros Hv He. destruct (valid_date_bounds _ Hv) as (Hy & _).
  destruct (padded_ok_spec _ _ (padded_4 (year d) ltac:(lia))) as (Ly & _).
  apply (f_equal String.length) in He. unfold date_str in He.
  rewrite length_app, Ly in He. done.
Qed.

Lemma time_str_nonempty t : valid_time t = true -> time_str t <> "".
Proof.
  intros Hv He. destruct (valid_time_bounds _ Hv) as (Hh & _).
  destruct (padded_ok_spec _ _ (padded_2 (hour t) ltac:(lia))) as (Lh & _).
  apply (f_equal String.length) in He. unfold time_str in He.
  rewrite length_app, Lh in He. done.
Qed.

Lemma datetime_str_nonempty dt :
  valid_date (dt_date dt) = true -> datetime_str dt <> "".
Proof.
  intros Hv He. apply (date_str_nonempty _ Hv).
  unfold datetime_str in He. by destruct (date_str (dt_date dt)).
Qed.

(** [get_value] on the text of a value of the kind is the value. *)
Lemma get_value_py_str st self kind v :
  on_change_with_field_type st self = Some kind ->
  in_domain kind v ->
  e_default_value self = Some (py_str v) ->
  get_value st self kind = Ret v.
Proof.
  intros Ht Hd Hv. destruct v as [|b|z|x|s|d|d|dt|t]; simpl in Hd.
  - done.
  - subst kind. rewrite get_value_boolean, Hv by done. by destruct b.
  - subst kind. rewrite get_value_integer, Hv by done. simpl value_text.
    rewrite truthy_text by apply str_of_Z_nonempty. simpl py_str.
    by rewrite py_int_str_of_Z.
  - destruct Hd as (-> & Hne & Hx). rewrite get_value_float, Hv by done.
    simpl value_text. simpl py_str. by rewrite truthy_text, Hx.
  - destruct Hd as [Hk _]. rewrite get_value_text, Hv by done. done.
  - assert (kind = "numeric" /\ dec_of_str (dec_str d) = Some d) as [-> Hr].
    { destruct d as [neg ds e|neg|]; [|by split; [|apply dec_of_str_infinity]|done].
      destruct Hd as [-> Hc]. split; [done|]. by apply dec_of_str_finite. }
    rewrite get_value_numeric, Hv by done. simpl value_text. simpl py_str.
    by rewrite truthy_text, Hr by by apply dec_str_nonempty.
  - destruct Hd as [-> Hvd]. rewrite get_value_date, Hv by done.
    simpl value_text. simpl py_str.
    rewrite truthy_text by by apply date_str_nonempty.
    destruct (valid_date_bounds _ Hvd) as (Hy & Hm & Hdd).
    destruct d as [y m dd]. simpl in Hy, Hm, Hdd.
    destruct (date_str_parts y m dd) as (-> & -> & ->); [lia..|].
    rewrite !py_int_padded by (first [apply padded_2 | apply padded_4]; lia).
    unfold date_new. by rewrite Hvd.
  - destruct Hd as (-> & Hvd & Hvt & Hus). rewrite get_value_datetime, Hv by done.
    simpl value_text. simpl py_str.
    rewrite truthy_text by by apply datetime_str_nonempty.
    destruct dt as [d t]. by rewrite strptime_datetime_str.
  - destruct Hd as (-> & Hvt & Hus & Htr). rewrite get_value_time, Hv by done.
    simpl value_text. simpl py_str.
    rewrite truthy_text by by apply time_str_nonempty.
    destruct (valid_time_bounds _ Hvt) as (Hh & Hm & Hs & _).
    destruct t as [h m s us]. simpl in Hh, Hm, Hs, Hus. subst us.
    destruct (time_str_parts h m s) as (-> & -> & ->); [lia..|].
    rewrite !py_int_padded by (apply padded_2; lia).
    unfold time_new. by rewrite Hvt, Htr.
Qed.

Lemma find_updated i v t self :
  find (fun e => e_id e =? i) t = Some self ->
  find (fun e => e_id e =? i) (updated [i] v t) = Some (update_row v self).
Proof.
  unfold updated. induction t as [|e t IH]; [done|].
  rewrite map_cons. rewrite has_id_single. simpl find.
  destruct (e_id e =? i) eqn:Hei.
  - intros [= ->]. simpl. by rewrite Hei.
  - rewrite Hei. apply IH.
Qed.

(** Under the constraint, [save] is the update of the column followed by
    [set_default_values] on the record. *)
Lemma save_unique i d st :
  unique_fields st ->
  exists r1,
    save i d st =
      (r1, snd (set_default_values [i]
                  (with_table st (updated [i] (only_default_value d) (table st))))).
Proof.
  intros Hu. rewrite save_eq.
  rewrite sql_update_default_value by by apply default_uniq_spec.
  destruct (set_default_values [i] _) as [r1 st2]. by eexists.
Qed.

(** After [set_value] on a record of the type, with a value that is not
    [None], the row holds the text of the value. *)
Lemma set_value_stores st i self kind v :
  unique_fields st ->
  find_entry st i = Some self ->
  on_change_with_field_type st self = Some kind ->
  is_not_none v = true ->
  let st' := snd (set_value [i] kind v st) in
  same_catalog st st' /\
  find_entry st' i = Some (update_row (only_default_value (Some (py_str v))) self).
Proof.
  intros Hu Hself Ht Hv. unfold set_value. simpl for_each.
  assert (let st1 := snd (set_value_one kind v i st) in
          same_catalog st st1 /\
          find_entry st1 i
          = Some (update_row (only_default_value (Some (py_str v))) self))
    as [Hc Hf].
  { unfold set_value_one, bind, browse, get_state. rewrite Hself. simpl.
    assert (is_type (on_change_with_field_type st self) kind = true) as ->
      by by apply is_type_true.
    rewrite Hv. change (true && true) with true. cbv iota.
    destruct (save_unique i (Some (py_str v)) st Hu) as [r1 ->]. simpl snd.
    destruct (set_default_values [i] _) as [r2 st2] eqn:E. simpl.
    apply set_default_values_spec in E as [Hi _].
    split.
    - by apply installs_only_catalog in Hi.
    - rewrite (same_records_find_entry _ _ _ (proj1 Hi)).
      unfold find_entry. simpl. by apply find_updated. }
  unfold bind, ret.
  destruct (set_value_one kind v i st) as [[[]|e|] st1]; simpl in *; done.
Qed.

Lemma in_domain_not_none kind v : in_domain kind v -> is_not_none v = true.
Proof. by destruct v. Qed.

(** The values of a kind are values of one of the twelve kinds. *)
Lemma in_domain_kind kind v :
  in_domain kind v -> member kind _FIELD_TYPES = true.
Proof.
  destruct v as [|b|z|x|s|d|d|dt|t]; cbn [in_domain]; try done;
    try by intros ->.
  - by intros [-> _].
  - intros [Hk _]. unfold member in *. simpl in Hk.
    repeat (apply orb_true_iff in Hk as [Hk|Hk];
            [apply String.eqb_eq in Hk; by subst kind|]).
    done.
  - destruct d; [by intros [-> _]|by intros ->|done].
  - by intros [-> _].
  - by intros [-> _].
  - by intros [-> _].
Qed.

(** ** The function that [set_default_values] installs *)

Lemma default_source_eq ft name value :
  default_source (Some ft) name value =
    let text := value_text value in
    if member ft ["char"; "text"; "selection"; "reference"] then
      Some (def_head name +:+ "'" +:+ fmt_s value +:+ "'")
    else if member ft ["boolean"; "integer"; "float"; "many2one"] then
      Some (def_head name +:+ fmt_s value)
    else if String.eqb ft "numeric" then
      Some (def_head name +:+ "Decimal('" +:+ fmt_s value +:+ "')")
    else if String.eqb ft "date" then
      if truthy value then
        Some (def_head name +:+ "date(" +:+ py_slice 0 4 text +:+ ", "
              +:+ py_slice 5 7 text +:+ ", " +:+ str_drop 8 text +:+ ")")
      else None
    else if String.eqb ft "datetime" then
      if truthy value then
        Some (def_head name +:+ "datetime.strptime('" +:+ text
              +:+ "', '" +:+ datetime_format +:+ "')")
      else None
    else if String.eqb ft "time" then
      if truthy value then
        Some (def_head name +:+ "time(" +:+ py_slice 0 2 text +:+ ", "
              +:+ py_slice 3 5 text +:+ ", " +:+ str_drop 6 text +:+ ")")
      else None
    else None.
Proof. reflexivity. Qed.

Lemma exec_source_def name body g :
  str_all is_ident_char name = true ->
  parse_expr body = Parsed g ->
  exec_source (def_head name +:+ body) = Ret ("default_" +:+ name, g).
Proof.
  intros Hn Hg. unfold exec_source. by rewrite (py_exec_def _ _ Hn), Hg.
Qed.

(** [eval] of the name of the function of a field. *)
Lemma py_eval_name ns name :
  str_all is_ident_char name = true ->
  py_eval ns ("default_" +:+ name)
  = of_option (NameError ("default_" +:+ name)) (ns !! ("default_" +:+ name)).
Proof. intros Hn. unfold py_eval. by rewrite str_all_app, Hn. Qed.

(** The body of the loop for a record whose model and field resolve, and
    for which the method writes a source that the language accepts: it
    returns, and the function is in [_defaults] under the name of the
    field. *)
Lemma install_with_source loc st i e m Model f body g :
  find_entry st i = Some e ->
  entry_model st e = Some m ->
  pool st !! m_model m = Some Model ->
  entry_field st e = Some f ->
  str_all is_ident_char (f_name f) = true ->
  default_source (Some (f_ttype f)) (f_name f) (e_default_value e)
  = Some (def_head (f_name f) +:+ body) ->
  parse_expr body = Parsed g ->
  exists st',
    install loc i st
    = (Ret {| def_default_function := Some (def_head (f_name f) +:+ body);
              defined := <["default_" +:+ f_name f := g]>
                           (<["default_value" := ERecord i]> (defined loc)) |},
       st') /\
    provider st' (m_model m) (f_name f) = Some g /\
    installs_only st st'.
Proof.
  intros He Hm Hp Hf Hid Hsrc Hg.
  destruct (set_default_spec (m_model m) (f_name f) g st Model Hp)
    as (st' & Hset & Hi & Hthis & _).
  exists st'. split; [|done].
  unfold install, bind, browse, get_state, lift, pool_get.
  rewrite He. simpl. rewrite Hm. simpl. rewrite Hp. simpl. rewrite Hf. simpl.
  unfold on_change_with_field_type. rewrite Hf, Hsrc.
  rewrite (exec_source_def _ _ _ Hid Hg). cbn [fst snd].
  rewrite (py_eval_name _ _ Hid), lookup_insert_eq. cbn [of_option].
  by rewrite Hset.
Qed.

(** One such record: the call returns. *)
Lemma install_one st i e m Model f body g :
  find_entry st i = Some e ->
  entry_model st e = Some m ->
  pool st !! m_model m = Some Model ->
  entry_field st e = Some f ->
  str_all is_ident_char (f_name f) = true ->
  default_source (Some (f_ttype f)) (f_name f) (e_default_value e)
  = Some (def_head (f_name f) +:+ body) ->
  parse_expr body = Parsed g ->
  exists st',
    set_default_values [i] st = (Ret tt, st') /\
    provider st' (m_model m) (f_name f) = Some g /\
    installs_only st st'.
Proof.
  intros He Hm Hp Hf Hid Hsrc Hg.
  destruct (install_with_source (first_locals [i]) st i e m Model f body g
              He Hm Hp Hf Hid Hsrc Hg) as (st' & Hrun & Hprov & Hi).
  exists st'. split; [|done].
  unfold set_default_values, bind at 1, get_state. simpl install_all.
  unfold bind at 1. unfold bind at 1. by rewrite Hrun.
Qed.

(** ** When the installed function and the typed view agree *)

Ltac decide_kind :=
  repeat match goal with
  | |- context [member ?k ?l] =>
      let b := eval vm_compute in (member k l) in
      lazymatch b with
      | true => change (member k l) with true
      | false => change (member k l) with false
      end
  | |- context [String.eqb ?a ?b] =>
      let v := eval vm_compute in (String.eqb a b) in
      lazymatch v with
      | true => change (String.eqb a b) with true
      | false => change (String.eqb a b) with false
      end
  end; cbv beta iota zeta.

(** The source for a record of the kind with the stored text [s], and
    the function it defines. *)
Lemma agrees_source kind name s :
  agrees kind s ->
  exists body g,
    default_source (Some kind) name (Some s) = Some (def_head name +:+ body) /\
    parse_expr body = Parsed g /\
    forall st self,
      on_change_with_field_type st self = Some kind ->
      e_default_value self = Some s ->
      py_call g = get_value st self kind.
Proof.
  unfold agrees. rewrite default_source_eq. cbv zeta.
  destruct (member kind ["char"; "text"; "selection"; "reference"]) eqn:Hk.
  { intros Hs. eexists _, _. split; [reflexivity|]. split; [by apply parse_quoted|].
    intros st self Ht Hv. rewrite get_value_text, Hv; [done| |done].
    unfold member in *. simpl in *.
    repeat (apply orb_true_iff in Hk as [Hk|Hk]; [rewrite Hk; by rewrite ?orb_true_r|]).
    done. }
  destruct (String.eqb_spec kind "boolean") as [->|_].
  { decide_kind. intros Hs. eexists _, (EBool (String.eqb s "True")).
    split; [reflexivity|]. split; [by destruct Hs as [-> | ->]|].
    intros st self Ht Hv. by rewrite get_value_boolean, Hv. }
  destruct (String.eqb_spec kind "integer") as [->|_].
  { decide_kind. intros [z ->]. eexists _, _. split; [reflexivity|].
    split; [apply parse_str_of_Z|].
    intros st self Ht Hv. rewrite get_value_integer, Hv by done.
    simpl value_text. rewrite truthy_text by apply str_of_Z_nonempty.
    by rewrite py_int_str_of_Z. }
  destruct (String.eqb_spec kind "float") as [->|_].
  { decide_kind. intros (Hp & Hs & Hf & [x Hx]). eexists _, _.
    split; [reflexivity|]. split; [by apply parse_float|].
    intros st self Ht Hv. rewrite get_value_float, Hv by done.
    simpl value_text. simpl py_call. rewrite Hx.
    rewrite truthy_text; [done|]. intros ->. by vm_compute in Hf. }
  destruct (String.eqb_spec kind "numeric") as [->|_].
  { decide_kind. intros [Hne Hs]. eexists _, _. split; [reflexivity|].
    split; [by apply parse_decimal|].
    intros st self Ht Hv. rewrite get_value_numeric, Hv by done.
    by rewrite truthy_text. }
  destruct (String.eqb_spec kind "datetime") as [->|_].
  { decide_kind. intros [Hne Hs]. rewrite truthy_text by done.
    eexists _, _. split; [reflexivity|].
    split; [by apply parse_strptime|].
    intros st self Ht Hv. rewrite get_value_datetime, Hv by done.
    by rewrite truthy_text. }
  simpl orb. cbv iota.
  destruct (String.eqb_spec kind "date") as [->|_].
  { decide_kind.
    intros (Hne & y & m & d & [Ly Py] & [Lm Pm] & [Ld Pd]).
    rewrite truthy_text by done. simpl value_text.
    eexists _, (EDate y m d). split; [reflexivity|]. split.
    - rewrite parse_date by by eapply int_literal_digits.
      unfold call_result. rewrite three_ints_app by by eapply int_literal_digits.
      by rewrite Ly, Lm, Ld.
    - intros st self Ht Hv. rewrite get_value_date, Hv by done.
      rewrite truthy_text by done. simpl value_text. by rewrite Py, Pm, Pd. }
  destruct (String.eqb_spec kind "time") as [->|_]; [|done].
  decide_kind.
  intros (Hne & h & m & d & [Lh Ph] & [Lm Pm] & [Ld Pd] & Hnz).
  rewrite truthy_text by done. simpl value_text.
  eexists _, (ETime h m d). split; [reflexivity|]. split.
  - rewrite parse_time by by eapply int_literal_digits.
    unfold call_result. rewrite three_ints_app by by eapply int_literal_digits.
    by rewrite Lh, Lm, Ld.
  - intros st self Ht Hv. rewrite get_value_time, Hv by done.
    rewrite truthy_text by done. simpl value_text. rewrite Ph, Pm, Pd.
    simpl py_call. destruct (time_new h m d) as [t|] eqn:Et; [|done].
    by rewrite (Hnz t).
Qed.

(** C4.  For a record whose model and field resolve, whose field has a
    name that is an identifier, and whose stored text is one on which
    the kind [agrees], [set_default_values] returns and leaves in the
    [_defaults] of the model, under the name of the field, a function
    whose call gives what [get_value] of the kind gives for the record. *)
Theorem provider_returns_typed_value (st : state) (i : Z) (e : entry)
    (m : ir_model) (Model : model_class) (f : ir_model_field) (s : string) :
  find_entry st i = Some e ->
  entry_model st e = Some m ->
  pool st !! m_model m = Some Model ->
  entry_field st e = Some f ->
  str_all is_ident_char (f_name f) = true ->
  e_default_value e = Some s ->
  agrees (f_ttype f) s ->
  exists st' g,
    set_default_values [i] st = (Ret tt, st') /\
    provider st' (m_model m) (f_name f) = Some g /\
    py_call g = get_value st' e (f_ttype f).
Proof.
  intros He Hm Hp Hf Hid Hv Ha.
  destruct (agrees_source _ (f_name f) _ Ha) as (body & g & Hsrc & Hg & Hcall).
  rewrite <- Hv in Hsrc.
  destruct (install_one st i e m Model f body g He Hm Hp Hf Hid Hsrc Hg)
    as (st' & Hrun & Hprov & Hi).
  exists st', g. split; [done|]. split; [done|].
  apply Hcall; [|done].
  unfold on_change_with_field_type.
  by rewrite (same_records_entry_field _ _ _ (proj1 Hi)), Hf.
Qed.

(** ** The values that are installed as they are set *)

Lemma member_In k l : member k l = true -> In k l.
Proof.
  unfold member. intros Hm. apply existsb_exists in Hm as (x & Hx & He).
  apply String.eqb_eq in He. by subst.
Qed.

Lemma dec_char_plain c : dec_char c = true -> is_plain c = true.
Proof. by destruct c as [[] [] [] [] [] [] [] []]. Qed.

Lemma digit_plain c : is_digit c = true -> is_plain c = true.
Proof. intros Hc. apply dec_char_plain. unfold dec_char. by rewrite Hc. Qed.

Lemma digits_plain s : str_all is_digit s = true -> str_all is_plain s = true.
Proof. apply str_all_impl, digit_plain. Qed.

Lemma padded_plain w n :
  padded_ok w n = true -> str_all is_plain (fmt_0d w n) = true.
Proof. intros Hp. apply digits_plain. by apply padded_ok_spec. Qed.

Lemma dec_str_plain d :
  match d with
  | DFinite _ ds _ => is_canonical ds = true
  | DInfinity _ => True
  | DNaN _ _ _ => False
  end ->
  str_all is_plain (dec_str d) = true.
Proof.
  destruct d as [neg ds e|neg|]; [|by destruct neg|done].
  intros Hc.
  destruct (dec_str_shape neg ds e Hc) as (ip & f & x & -> & Hip & _ & Hf & _).
  rewrite !str_all_app.
  assert (str_all is_plain (sign_str neg) = true) as -> by (by destruct neg).
  rewrite (digits_plain _ Hip). simpl.
  assert (str_all is_plain (frac_text f) = true) as ->.
  { destruct f as [fp|]; [|done]. simpl in Hf.
    unfold frac_text. rewrite str_all_app. by rewrite (digits_plain _ Hf). }
  destruct x as [k|]; [|done]. unfold exp_text. rewrite str_all_app. simpl.
  apply (str_all_impl dec_char); [apply dec_char_plain|apply fmt_plus_d_chars].
Qed.

Lemma date_str_plain d :
  valid_date d = true -> str_all is_plain (date_str d) = true.
Proof.
  intros Hv. destruct (valid_date_bounds _ Hv) as (Hy & Hm & Hd).
  unfold date_str. rewrite !str_all_app.
  rewrite !padded_plain by (first [apply padded_2|apply padded_4]; lia).
  done.
Qed.

Lemma time_str_plain t :
  valid_time t = true -> microsecond t = 0 ->
  str_all is_plain (time_str t) = true.
Proof.
  intros Hv Hus. destruct (valid_time_bounds _ Hv) as (Hh & Hm & Hs & _).
  unfold time_str. rewrite Hus. simpl Z.eqb. cbv iota.
  rewrite !str_all_app.
  rewrite !padded_plain by (apply padded_2; lia).
  done.
Qed.

Lemma reads_as_2 n : 0 <= n < 100 -> n <> 8 -> n <> 9 -> reads_as (fmt_0d 2 n) n.
Proof.
  intros Hn H8 H9. split; [by apply literal_2|].
  apply py_int_padded, padded_2. lia.
Qed.

Lemma reads_as_4 n : 1000 <= n < 10000 -> reads_as (fmt_0d 4 n) n.
Proof.
  intros Hn. split; [by apply literal_4|]. apply py_int_padded, padded_4. lia.
Qed.

(** The text of a value of the kind that is [installable] is one on
    which the installed function and the typed view agree. *)
Lemma installable_agrees kind v :
  in_domain kind v -> installable kind v -> agrees kind (py_str v).
Proof.
  destruct v as [|b|z|x|s|d|d|dt|t]; cbn [in_domain installable py_str].
  - done.
  - intros -> _.
    change ((if b then "True" else "False") = "True" \/
            (if b then "True" else "False") = "False").
    destruct b; auto.
  - intros -> _. change (exists z', str_of_Z z = str_of_Z z'). by exists z.
  - by intros _ Ha.
  - intros [Hk _] [Hne Hs]. apply member_In in Hk. simpl in Hk.
    destruct Hk as [<-|[<-|[<-|[<-|[<-|[]]]]]]; try done; exact Hs.
  - intros Hd _.
    assert (kind = "numeric" /\ dec_of_str (dec_str d) = Some d /\
            str_all is_plain (dec_str d) = true) as (-> & Hr & Hp).
    { destruct d as [neg ds e|neg|]; [| |done].
      - destruct Hd as [-> Hc]. split; [done|].
        split; [by apply dec_of_str_finite|by apply dec_str_plain].
      - split; [done|]. split; [apply dec_of_str_infinity|].
        by apply dec_str_plain. }
    change (dec_str d <> "" /\ is_plain_text (dec_str d) = true).
    split; [by apply dec_str_nonempty|done].
  - intros [-> Hv] (Hy & Hm8 & Hm9 & Hd8 & Hd9).
    destruct (valid_date_bounds _ Hv) as (By & Bm & Bd).
    change (date_str d <> "" /\
            exists y m dd,
              reads_as (py_slice 0 4 (date_str d)) y /\
              reads_as (py_slice 5 7 (date_str d)) m /\
              reads_as (str_drop 8 (date_str d)) dd).
    split; [by apply date_str_nonempty|].
    exists (year d), (month d), (day d).
    destruct d as [y m dd]. cbn [year month day] in *.
    destruct (date_str_parts y m dd) as (-> & -> & ->); [lia..|].
    split_and!; [apply reads_as_4|apply reads_as_2..]; lia.
  - intros (-> & Hvd & Hvt & Hus) _.
    change (datetime_str dt <> "" /\ is_plain_text (datetime_str dt) = true).
    split; [by apply datetime_str_nonempty|].
    unfold datetime_str, is_plain_text. rewrite !str_all_app.
    by rewrite date_str_plain, time_str_plain.
  - intros (-> & Hv & Hus & Htr) (Hh8 & Hh9 & Hm8 & Hm9 & Hs8 & Hs9).
    destruct (valid_time_bounds _ Hv) as (Bh & Bm & Bs & _).
    change (time_str t <> "" /\
            exists h m s,
              reads_as (py_slice 0 2 (time_str t)) h /\
              reads_as (py_slice 3 5 (time_str t)) m /\
              reads_as (str_drop 6 (time_str t)) s /\
              forall t', time_new h m s = Some t' -> time_truthy t' = true).
    split; [by apply time_str_nonempty|].
    exists (hour t), (minute t), (second t).
    destruct t as [h m s us]. cbn [hour minute second microsecond] in *.
    subst us.
    destruct (time_str_parts h m s) as (-> & -> & ->); [lia..|].
    split_and!; [apply reads_as_2..|]; try lia.
    intros t'. unfold time_new. rewrite Hv. by intros [= <-].
Qed.

(** [save] under the constraint: the update of the column, then
    [set_default_values] on the record. *)
Lemma save_runs i d st :
  unique_fields st ->
  save i d st =
    set_default_values [i]
      (with_table st (updated [i] (only_default_value d) (table st))).
Proof.
  intros Hu. rewrite save_eq.
  by rewrite sql_update_default_value by by apply default_uniq_spec.
Qed.

Lemma set_value_installs st i e m Model f v :
  unique_fields st ->
  find_entry st i = Some e ->
  entry_model st e = Some m ->
  pool st !! m_model m = Some Model ->
  entry_field st e = Some f ->
  str_all is_ident_char (f_name f) = true ->
  in_domain (f_ttype f) v ->
  installable (f_ttype f) v ->
  exists st' g,
    set_value [i] (f_ttype f) v st = (Ret tt, st') /\
    provider st' (m_model m) (f_name f) = Some g /\
    py_call g = Ret v /\
    find_entry st' i
    = Some (update_row (only_default_value (Some (py_str v))) e) /\
    rewrites st st'.
Proof.
  intros Hu He Hm Hp Hf Hid Hd Hi.
  pose proof (installable_agrees _ _ Hd Hi) as Ha.
  set (d := Some (py_str v)).
  set (stU := with_table st (updated [i] (only_default_value d) (table st))).
  set (e' := update_row (only_default_value d) e).
  assert (find_entry stU i = Some e') as He'
    by (unfold find_entry; simpl; by apply find_updated).
  destruct (agrees_source _ (f_name f) _ Ha) as (body & g & Hsrc & Hg & Hcall).
  destruct (install_one stU i e' m Model f body g He' Hm Hp Hf Hid Hsrc Hg)
    as (st' & Hrun & Hprov & Hinst).
  exists st', g.
  assert (set_value [i] (f_ttype f) v st = (Ret tt, st')) as Hset.
  { unfold set_value. simpl for_each. unfold bind at 1.
    unfold set_value_one, bind at 1, browse. rewrite He. simpl.
    unfold bind at 1, get_state.
    assert (is_type (on_change_with_field_type st e) (f_ttype f) = true) as ->.
    { apply is_type_true. unfold on_change_with_field_type. by rewrite Hf. }
    rewrite (in_domain_not_none _ _ Hd). change (true && true) with true.
    cbv iota. fold d. rewrite (save_runs i d st Hu). fold stU. by rewrite Hrun. }
  assert (on_change_with_field_type stU e' = Some (f_ttype f)) as Ht'.
  { unfold on_change_with_field_type.
    change (entry_field stU e') with (entry_field st e). by rewrite Hf. }
  split; [done|]. split; [done|]. split.
  - rewrite (Hcall stU e' Ht' eq_refl). by apply get_value_py_str.
  - split.
    + by rewrite (same_records_find_entry _ _ _ (proj1 Hinst)).
    + pose proof (set_value_rewrites [i] (f_ttype f) v st (Ret tt) st' Hset).
      done.
Qed.

(** ** The round trip of a value *)

(** C1.  Writing a value of the kind of the field through the typed
    view and reading the view again gives the value: when
    [set_value [i] kind v] returns, the row holds [str(v)], and
    [get_value] on it is [v], for the values of [in_domain] (no fraction
    of a second, no [time] at midnight, no NaN, the floats the host
    prints and reads back).  The call returns for the values that are
    [installable], when the model and the field of the record resolve
    and the name of the field is an identifier.  And a record without
    stored text, or with the empty text, reads as the fixed value of its
    kind. *)
Theorem typed_round_trip (st : state) (i : Z) (self : entry) (kind : string) :
  unique_fields st ->
  find_entry st i = Some self ->
  on_change_with_field_type st self = Some kind ->
  (forall v st',
     in_domain kind v ->
     set_value [i] kind v st = (Ret tt, st') ->
     exists self',
       find_entry st' i = Some self' /\
       same_refs self self' /\
       e_default_value self' = Some (py_str v) /\
       get_value st' self' kind = Ret v) /\
  (forall v m Model,
     entry_model st self = Some m ->
     pool st !! m_model m = Some Model ->
     (forall f, entry_field st self = Some f ->
                str_all is_ident_char (f_name f) = true) ->
     in_domain kind v -> installable kind v ->
     exists st', set_value [i] kind v st = (Ret tt, st')) /\
  (truthy (e_default_value self) = false ->
   member kind ["boolean"; "integer"; "float"; "numeric"; "date"; "datetime";
                "time"] = true ->
   get_value st self kind = Ret (fallback kind)).
Proof.
  intros Hu Hself Ht. split; [|split].
  - intros v st' Hd Hrun.
    destruct (set_value_stores st i self kind v Hu Hself Ht
                (in_domain_not_none _ _ Hd)) as [Hc Hf].
    rewrite Hrun in Hc, Hf. cbn [snd] in Hc, Hf.
    eexists. split; [exact Hf|]. split; [done|]. split; [done|].
    apply get_value_py_str; [|done|done].
    rewrite <- Ht. by apply same_catalog_type.
  - intros v m Model Hm Hp Hid Hd Hi.
    assert (exists f, entry_field st self = Some f /\ f_ttype f = kind)
      as (f & Hf & <-).
    { unfold on_change_with_field_type in Ht.
      destruct (entry_field st self) as [f|]; [|done].
      exists f. split; [done|]. congruence. }
    destruct (set_value_installs st i self m Model f v Hu Hself Hm Hp Hf
                (Hid f Hf) Hd Hi) as (st' & g & Hset & _).
    by exists st'.
  - intros Hv Hk. unfold get_value.
    assert (is_type (on_change_with_field_type st self) kind = true) as ->
      by by apply is_type_true.
    cbv zeta. rewrite Hv.
    assert (match e_default_value self with
            | Some v => String.eqb v "True" | None => false end = false) as Hb.
    { destruct (e_default_value self) as [[|c s]|]; done. }
    rewrite Hb. unfold fallback, member in *. simpl in Hk.
    repeat (destruct (String.eqb kind _); [done|]). done.
Qed.


(** C2.  When the functions are installed and removed.  After a [write]
    that returns, every record it was given has a function in the
    [_defaults] of its model under the name of its field; so has every
    stored record after the pass at startup, when the installation
    raises nothing; after a [delete] that returns, the records it was
    given have none.  A [create] installs the function of a new record
    only through the setter of a typed view: the record needs, among its
    values, a typed value of the kind of its field that is not [None];
    a [create] whose rows carry no typed value leaves the pool as it
    was. *)
Theorem providers_follow_entries (st : state) :
  (forall args st' a i,
      write args st = (Ret tt, st') -> In a args -> In i (fst a) ->
      installed st' i) /\
  (forall st',
      set_default_values [] st = (Ret tt, st') ->
      load_default_values st = (Ret tt, st') /\
      forall e, In e (table st) -> installed st' (e_id e)) /\
  (forall ids st' i e m f,
      delete ids st = (Ret tt, st') ->
      In i ids -> find_entry st i = Some e -> entry_model st e = Some m ->
      entry_field st e = Some f ->
      provider st' (m_model m) (f_name f) = None) /\
  (forall vlist ids st' k v name value fid field,
      fresh_ids st ->
      create vlist st = (Ret ids, st') ->
      vlist !! k = Some v -> In (name, value) (v_typed v) ->
      is_not_none value = true ->
      v_field v = Some fid -> find_field st fid = Some field ->
      f_ttype field = name ->
      installed st' (next_id st + Z.of_nat k)) /\
  (forall vlist,
      Forall (fun v => v_typed v = []) vlist ->
      pool (snd (create vlist st)) = pool st).
Proof.
  split_and!.
  - intros args st' a i Hw Ha Hi. by eapply write_installs.
  - intros st' Hs. split.
    + unfold load_default_values. by rewrite Hs.
    + by apply startup_installs.
  - intros ids st' i e m f Hd Hi He Hm Hf. by eapply delete_uninstalls.
  - intros vlist ids st' k v name value fid field Hfresh Hc Hk Hin Hnn Hv Hf Ht.
    by eapply create_installs.
  - intros vlist Hv. by apply create_without_value.
Qed.


End Properties.

(* ===================================================================== *)
(** * Further properties of the methods *)
(* ===================================================================== *)

Section Further.

Context {H : host}.

(** ** Records without a source *)

Ltac kind_cases Hw kind :=
  repeat match goal with
  | |- context [String.eqb kind ?s] =>
      destruct (String.eqb_spec kind s) as [->|?];
      [try (exfalso; destruct Hw as [[Hw _]|Hw]; vm_compute in Hw;
            discriminate)|]
  end.

Lemma without_source_spec kind name value :
  without_source kind value -> default_source (Some kind) name value = None.
Proof.
  intros Hw. rewrite default_source_eq. cbv zeta. unfold member, existsb.
  kind_cases Hw kind; cbn [orb]; try reflexivity;
    (destruct Hw as [[_ ->]|Hw]; [reflexivity|vm_compute in Hw; discriminate]).
Qed.

Lemma install_without_source records st i e m Model f :
  find_entry st i = Some e ->
  entry_model st e = Some m ->
  pool st !! m_model m = Some Model ->
  entry_field st e = Some f ->
  without_source (f_ttype f) (e_default_value e) ->
  install (first_locals records) i st
  = (Raise (NameError "def_default_function"), st).
Proof.
  intros He Hm Hp Hf Hw.
  unfold install, bind, browse, get_state, lift, pool_get.
  rewrite He. simpl. rewrite Hm. simpl. rewrite Hp. simpl. rewrite Hf. simpl.
  unfold on_change_with_field_type. rewrite Hf.
  by rewrite (without_source_spec _ _ _ Hw).
Qed.

(** X1.  When the first record that [set_default_values] is given has no
    source, the name [def_default_function] is not bound when [exec]
    reads it: the call raises, and nothing is installed, for this record
    or for those after it. *)
Theorem first_record_without_source (st : state) (i : Z) (rest : list Z)
    (e : entry) (m : ir_model) (Model : model_class) (f : ir_model_field) :
  find_entry st i = Some e ->
  entry_model st e = Some m ->
  pool st !! m_model m = Some Model ->
  entry_field st e = Some f ->
  without_source (f_ttype f) (e_default_value e) ->
  set_default_values (i :: rest) st
  = (Raise (NameError "def_default_function"), st).
Proof.
  intros He Hm Hp Hf Hw.
  unfold set_default_values, bind at 1, get_state. simpl install_all.
  unfold bind at 1. unfold bind at 1.
  by rewrite (install_without_source _ st i e m Model f).
Qed.

(** X2.  At startup the records are taken in the order of the table: when the
    first one has no source, the pass installs no function at all and
    leaves one warning in the log. *)
Theorem startup_with_a_first_record_without_source (st : state) (e : entry)
    (others : list entry) (m : ir_model) (Model : model_class)
    (f : ir_model_field) :
  table st = e :: others ->
  entry_model st e = Some m ->
  pool st !! m_model m = Some Model ->
  entry_field st e = Some f ->
  without_source (f_ttype f) (e_default_value e) ->
  load_default_values st = (Ret tt, with_log st (log st ++ [warning])).
Proof.
  intros Ht Hm Hp Hf Hw.
  assert (find_entry st (e_id e) = Some e) as He.
  { unfold find_entry. rewrite Ht. simpl. by rewrite Z.eqb_refl. }
  assert (set_default_values [] st
          = (Raise (NameError "def_default_function"), st)) as Hs.
  { unfold set_default_values, bind at 1, get_state. rewrite Ht.
    simpl install_all. unfold bind at 1. unfold bind at 1.
    by rewrite (install_without_source _ st (e_id e) e m Model f). }
  unfold load_default_values. by rewrite Hs.
Qed.

(** ** A [write] that names no record *)

Lemma with_table_same st : with_table st (table st) = st.
Proof. by destruct st. Qed.

Lemma for_each_nothing {A} (l : list A) st :
  for_each l (fun _ => ret tt) st = (Ret tt, st).
Proof. induction l as [|x l IH]; [done|]. simpl. unfold bind, ret. apply IH. Qed.

Lemma map_same {A} (f : A -> A) (l : list A) :
  (forall x, f x = x) -> map f l = l.
Proof. intros Hf. induction l as [|x l IH]; simpl; by rewrite ?Hf, ?IH. Qed.

(** X3.  An action of [write] with an empty list of records changes no row,
    and the list it hands to [set_default_values] is false in
    [if not default_values]: the functions of all the stored records are
    installed, as at startup. *)
Theorem write_without_records (st : state) (v : values) :
  unique_fields st ->
  write [([], v)] st = set_default_values [] st.
Proof.
  intros Hu. unfold write, write_with. simpl for_each.
  assert (sql_update [] v st = (Ret tt, st)) as Hupd.
  { unfold sql_update.
    rewrite (map_same (fun e => if has_id [] e then update_row v e else e))
      by done.
    apply default_uniq_spec in Hu. by rewrite Hu, with_table_same. }
  unfold bind at 1. unfold bind at 1. rewrite Hupd. unfold ret at 1.
  unfold bind at 1. unfold bind at 1.
  change (fun nv : string * pyval => set_value [] (fst nv) (snd nv))
    with (fun _ : string * pyval => ret (A:=unit) tt).
  rewrite for_each_nothing. unfold ret at 1.
  unfold bind, ret.
  assert ((if existsb (fun a : list Z * values => gives_ref (snd a)) [([], v)]
           then validate (concat (map fst [([], v)]))
           else fun st0 : state => (Ret tt, st0)) st = (Ret tt, st)) as ->
    by (by destruct (existsb _ _)).
  by destruct (set_default_values [] st) as [[[]|e|] st'].
Qed.

(** ** What [get_value] raises *)

(** X4.  [get_value] returns a value or raises the error of a conversion;
    it raises only for a record of the kind asked for, with a stored
    text that is not empty, and of a kind whose text is converted. *)
Theorem get_value_raises_only_a_conversion (st : state) (self : entry)
    (name : string) :
  (exists v, get_value st self name = Ret v) \/
  (get_value st self name = Raise ConversionError /\
   on_change_with_field_type st self = Some name /\
   truthy (e_default_value self) = true /\
   member name ["integer"; "float"; "numeric"; "date"; "datetime"; "time"]
   = true).
Proof.
  unfold get_value.
  destruct (is_type _ name) eqn:Ht; [|left; by eexists].
  apply is_type_true in Ht. cbv zeta.
  destruct (String.eqb_spec name "boolean") as [->|_]; [left; by eexists|].
  assert (forall (b : bool) (r : result pyval) (d : pyval),
            member name ["integer"; "float"; "numeric"; "date"; "datetime";
                         "time"] = true ->
            ((exists v, r = Ret v) \/ r = Raise ConversionError) ->
            (exists v, (if truthy (e_default_value self) then r else Ret d)
                       = Ret v) \/
            ((if truthy (e_default_value self) then r else Ret d)
             = Raise ConversionError /\
             on_change_with_field_type st self = Some name /\
             truthy (e_default_value self) = true /\
             member name ["integer"; "float"; "numeric"; "date"; "datetime";
                          "time"] = true)) as Hcase.
  { intros _ r d Hm Hr. destruct (truthy (e_default_value self));
      [|left; by eexists].
    destruct Hr as [Hr| ->]; [by left|by right]. }
  assert (forall {A} (o : option A) (k : A -> pyval),
            (exists v, of_option ConversionError (option_map k o) = Ret v) \/
            of_option ConversionError (option_map k o) = Raise ConversionError)
    as Hopt.
  { intros A [a|] k; [left; by eexists|by right]. }
  destruct (String.eqb_spec name "integer") as [->|_];
    [apply (Hcase true); [done|apply Hopt]|].
  destruct (String.eqb_spec name "float") as [->|_];
    [apply (Hcase true); [done|apply Hopt]|].
  destruct (String.eqb_spec name "numeric") as [->|_];
    [apply (Hcase true); [done|apply Hopt]|].
  destruct (String.eqb_spec name "date") as [->|_].
  { apply (Hcase true); [done|].
    destruct (py_int (py_slice 0 4 _)); [|by right].
    destruct (py_int (py_slice 5 7 _)); [|by right].
    destruct (py_int (str_drop 8 _)); [|by right]. apply Hopt. }
  destruct (String.eqb_spec name "datetime") as [->|_];
    [apply (Hcase true); [done|apply Hopt]|].
  destruct (String.eqb_spec name "time") as [->|_].
  { apply (Hcase true); [done|].
    destruct (py_int (py_slice 0 2 _)); [|by right].
    destruct (py_int (py_slice 3 5 _)); [|by right].
    destruct (py_int (str_drop 6 _)); [|by right].
    destruct (time_new _ _ _); [left; by eexists|by right]. }
  left. by eexists.
Qed.

(** ** [get_selection_values] on the other kinds, and its errors *)

(** X5.  For an instance whose field is of a kind other than [selection] and
    [many2one], or that has no field, the options are the empty option
    alone.  For a [selection] the class of the model must be in the pool
    and have the field, and for a [many2one] the related class must be in
    the pool: the key that is missing is raised. *)
Theorem selection_values_edges (st : state) (self : entry) :
  (on_change_with_field_type st self <> Some "selection" ->
   on_change_with_field_type st self <> Some "many2one" ->
   get_selection_values st self = Ret [Pair (PNone, "")]) /\
  (forall field model,
      entry_field st self = Some field ->
      find_model st (f_model field) = Some model ->
      (f_ttype field = "selection" ->
       pool st !! m_model model = None ->
       get_selection_values st self = Raise (KeyError (m_model model))) /\
      (f_ttype field = "selection" ->
       forall Model,
         pool st !! m_model model = Some Model ->
         mc_fields Model !! f_name field = None ->
         get_selection_values st self = Raise (KeyError (f_name field))) /\
      (f_ttype field = "many2one" ->
       pool st !! f_relation field = None ->
       get_selection_values st self = Raise (KeyError (f_relation field)))).
Proof.
  split.
  - intros Hs Hm. unfold get_selection_values.
    destruct (entry_field st self) as [field|]; [|done].
    destruct (find_model st (f_model field)) as [model|]; [|done].
    by rewrite !is_type_false.
  - intros field model Hf Hmodel. unfold get_selection_values.
    rewrite Hf, Hmodel. unfold on_change_with_field_type. rewrite Hf.
    split_and!.
    + intros -> Hp. simpl. by rewrite Hp.
    + intros -> Model Hp Hfd. simpl. by rewrite Hp, Hfd.
    + intros -> Hp. simpl. by rewrite Hp.
Qed.

(** ** The slices of a date and of a time *)

Lemma slices_of_parts a p b q c n k :
  String.length a = n -> String.length b = k ->
  py_slice 0 n (a +:+ String p (b +:+ String q c)) = a /\
  py_slice (S n) (S n + k) (a +:+ String p (b +:+ String q c)) = b /\
  str_drop (S n + S k) (a +:+ String p (b +:+ String q c)) = c.
Proof.
  intros Ha Hb. unfold py_slice.
  assert (forall r, str_drop (S n) (a +:+ String p r) = r) as Hdrop.
  { intros r. subst n. clear. induction a as [|x a IH]; [done|].
    rewrite append_cons. apply IH. }
  split_and!.
  - rewrite Nat.sub_0_r. simpl str_drop. by apply str_take_len.
  - rewrite Hdrop. replace (S n + k - S n)%nat with k by lia.
    by apply str_take_len.
  - replace (S n + S k)%nat with (S k + S n)%nat by lia.
    assert (forall i j s, str_drop (i + j) s = str_drop i (str_drop j s))
      as Hadd.
    { clear. intros i j. induction j as [|j IH]; intros s.
      - by rewrite Nat.add_0_r.
      - rewrite Nat.add_succ_r. destruct s as [|x s]; simpl.
        + by destruct i.
        + apply IH. }
    rewrite Hadd, Hdrop. subst k. clear.
    induction b as [|x b IH]; [done|]. rewrite append_cons. apply IH.
Qed.

(** X6.  The typed views of a date and of a time read three slices of the
    stored text and never look at the two characters between them: two
    records of the same field whose texts differ only there read as the
    same value, and [set_default_values] writes the same source for
    them. *)
Theorem separators_are_not_read (st : state) (self self' : entry)
    (kind a b c : string) (p q p' q' : ascii) :
  (kind = "date" /\ String.length a = 4%nat \/
   kind = "time" /\ String.length a = 2%nat) ->
  String.length b = 2%nat ->
  e_field self' = e_field self ->
  e_default_value self = Some (a +:+ String p (b +:+ String q c)) ->
  e_default_value self' = Some (a +:+ String p' (b +:+ String q' c)) ->
  get_value st self' kind = get_value st self kind /\
  forall name,
    default_source (Some kind) name (e_default_value self')
    = default_source (Some kind) name (e_default_value self).
Proof.
  intros Hk Hb Hf Hv Hv'.
  assert (forall x y, truthy (Some (a +:+ String x y)) = true) as Htr.
  { intros x y. destruct Hk as [[_ Ha]|[_ Ha]]; by destruct a. }
  assert (on_change_with_field_type st self' = on_change_with_field_type st self)
    as Ht.
  { unfold on_change_with_field_type, entry_field. by rewrite Hf. }
  destruct Hk as [[-> Ha]|[-> Ha]].
  - destruct (slices_of_parts a p b q c 4 2 Ha Hb) as (S1 & S2 & S3).
    destruct (slices_of_parts a p' b q' c 4 2 Ha Hb) as (S1' & S2' & S3').
    simpl Nat.add in *. split.
    + unfold get_value. rewrite Ht, Hv, Hv'. cbv zeta. simpl value_text.
      by rewrite !Htr, S1, S2, S3, S1', S2', S3'.
    + intros name. rewrite !default_source_eq, Hv, Hv'. cbv zeta.
      simpl value_text. by rewrite !Htr, S1, S2, S3, S1', S2', S3'.
  - destruct (slices_of_parts a p b q c 2 2 Ha Hb) as (S1 & S2 & S3).
    destruct (slices_of_parts a p' b q' c 2 2 Ha Hb) as (S1' & S2' & S3').
    simpl Nat.add in *. split.
    + unfold get_value. rewrite Ht, Hv, Hv'. cbv zeta. simpl value_text.
      by rewrite !Htr, S1, S2, S3, S1', S2', S3'.
    + intros name. rewrite !default_source_eq, Hv, Hv'. cbv zeta.
      simpl value_text. by rewrite !Htr, S1, S2, S3, S1', S2', S3'.
Qed.

(** ** A record whose stored text is missing *)

(** X7.  The column [default_value] of a record that was created without a
    value is empty ([None]), and [set_default_values] formats it with
    [%s]: for the kinds whose text is quoted the function that is
    installed returns the text [None], where the typed view reads no
    value; for the kinds whose text is written as it is the function
    returns [None]; for [numeric] the function is installed and its call
    raises. *)
Theorem function_of_a_record_without_text (st : state) (i : Z) (e : entry)
    (m : ir_model) (Model : model_class) (f : ir_model_field) :
  find_entry st i = Some e ->
  entry_model st e = Some m ->
  pool st !! m_model m = Some Model ->
  entry_field st e = Some f ->
  str_all is_ident_char (f_name f) = true ->
  e_default_value e = None ->
  (member (f_ttype f) ["char"; "text"; "selection"; "reference"] = true ->
   exists st',
     set_default_values [i] st = (Ret tt, st') /\
     provider st' (m_model m) (f_name f) = Some (EStr "None") /\
     py_call (EStr "None") = Ret (PStr "None") /\
     get_value st' e (f_ttype f) = Ret PNone) /\
  (member (f_ttype f) ["boolean"; "integer"; "float"; "many2one"] = true ->
   exists st',
     set_default_values [i] st = (Ret tt, st') /\
     provider st' (m_model m) (f_name f) = Some ENone /\
     py_call ENone = Ret PNone) /\
  (f_ttype f = "numeric" ->
   exists st',
     set_default_values [i] st = (Ret tt, st') /\
     provider st' (m_model m) (f_name f) = Some (EDecimal "None") /\
     py_call (EDecimal "None") = Raise ConversionError).
Proof.
  intros He Hm Hp Hf Hid Hv.
  assert (forall body g,
            default_source (Some (f_ttype f)) (f_name f) None
            = Some (def_head (f_name f) +:+ body) ->
            parse_expr body = Parsed g ->
            exists st',
              set_default_values [i] st = (Ret tt, st') /\
              provider st' (m_model m) (f_name f) = Some g /\
              installs_only st st') as Hrun.
  { intros body g Hsrc Hg. rewrite <- Hv in Hsrc.
    by apply (install_one st i e m Model f body g). }
  split_and!.
  - intros Hk.
    destruct (Hrun "'None'" (EStr "None")) as (st' & Hr & Hpr & Hi);
      [|reflexivity|].
    { apply member_In in Hk. simpl in Hk.
      destruct Hk as [<-|[<-|[<-|[<-|[]]]]]; reflexivity. }
    exists st'. split_and!; try done.
    rewrite get_value_text, Hv; [done| |].
    + apply member_In in Hk. simpl in Hk.
      destruct Hk as [<-|[<-|[<-|[<-|[]]]]]; reflexivity.
    + unfold on_change_with_field_type.
      by rewrite (same_records_entry_field _ _ _ (proj1 Hi)), Hf.
  - intros Hk.
    destruct (Hrun "None" ENone) as (st' & Hr & Hpr & Hi); [|reflexivity|].
    { apply member_In in Hk. simpl in Hk.
      destruct Hk as [<-|[<-|[<-|[<-|[]]]]]; reflexivity. }
    by exists st'.
  - intros Hk.
    destruct (Hrun "Decimal('None')" (EDecimal "None")) as (st' & Hr & Hpr & Hi);
      [by rewrite Hk|reflexivity|].
    by exists st'.
Qed.

(** ** The rows that [create] cannot read *)

(** X8.  [create] reads the field of every row before it stores any: a row
    without the key [field], a row whose field is not in the catalogue,
    a row whose model has no class in the pool, a row whose field the
    class does not have, each make the call raise, after the rows before
    it have passed, with nothing stored. *)
Theorem create_reads_every_row_first (st : state) (pre post : list values)
    (v : values) :
  Forall (fun r => fst (check_row r st) = Ret tt) pre ->
  (v_field v = None ->
   create (pre ++ v :: post) st = (Raise (KeyError "field"), st)) /\
  (forall fid,
      v_field v = Some fid -> find_field st fid = None ->
      create (pre ++ v :: post) st = (Raise ValueError, st)) /\
  (forall fid field m,
      v_field v = Some fid -> find_field st fid = Some field ->
      find_model st (f_model field) = Some m ->
      pool st !! m_model m = None ->
      create (pre ++ v :: post) st = (Raise (KeyError (m_model m)), st)) /\
  (forall field model,
      target st v = Some (field, model) ->
      exposes_default model field = false ->
      mc_fields model !! f_name field = None ->
      create (pre ++ v :: post) st = (Raise (KeyError (f_name field)), st)).
Proof.
  intros Hpre.
  assert (forall e, fst (check_row v st) = Raise e ->
            create (pre ++ v :: post) st = (Raise e, st)) as Hstop.
  { intros e He. apply create_stops. by apply checks_stop. }
  split_and!.
  - intros Hv. apply Hstop.
    unfold check_row, bind, get_state, lift. by rewrite Hv.
  - intros fid Hv Hf. apply Hstop.
    unfold check_row, bind, get_state, lift. rewrite Hv. simpl. by rewrite Hf.
  - intros fid field m Hv Hf Hm Hp. apply Hstop.
    unfold check_row, bind, get_state, lift, pool_get. rewrite Hv. simpl.
    rewrite Hf. simpl. rewrite Hm. simpl. by rewrite Hp.
  - intros field model Ht Hd Hfd. apply Hstop.
    rewrite (check_row_target _ _ _ _ Ht), Hd.
    unfold is_functional. by rewrite Hfd.
Qed.

(** ** The rows that [delete] takes *)

Lemma find_not_deleted ids i (t : list entry) :
  In i ids ->
  find (fun e => e_id e =? i) (filter (fun e => negb (has_id ids e)) t) = None.
Proof.
  intros Hi. induction t as [|e t IH]; [done|].
  rewrite filter_cons. destruct (decide _) as [Hd|Hd]; [|done].
  simpl. destruct (e_id e =? i) eqn:Hei; [|done].
  apply Z.eqb_eq in Hei. exfalso.
  apply negb_prop_elim in Hd. apply Hd. apply Is_true_true.
  unfold has_id. apply existsb_exists. exists i. split; [done|].
  by apply Z.eqb_eq.
Qed.

(** X9.  A [delete] that returns has taken from the table the rows with the
    ids it was given, and no other; one that does not return has taken
    none. *)
Theorem delete_takes_its_rows (ids : list Z) (st : state) :
  (fst (delete ids st) = Ret tt ->
   table (snd (delete ids st))
   = filter (fun e => negb (has_id ids e)) (table st) /\
   forall i, In i ids -> find_entry (snd (delete ids st)) i = None) /\
  (fst (delete ids st) <> Ret tt ->
   table (snd (delete ids st)) = table st).
Proof.
  unfold delete, bind.
  destruct (for_each ids delete_one st) as [r st1] eqn:E.
  assert (table st1 = table st) as Ht.
  { assert (respects forgets (for_each ids delete_one)) as Hr.
    { apply respects_for_each; [apply forgets_refl|apply forgets_trans|].
      intros i _. apply delete_one_forgets. }
    by destruct (Hr _ _ _ E) as [[? _] _]. }
  destruct r as [[]|e|]; unfold sql_delete; simpl.
  - split; [|intros Hne; by destruct Hne]. intros _. rewrite Ht.
    split; [done|].
    intros i Hi. unfold find_entry. simpl. by apply find_not_deleted.
  - done.
  - done.
Qed.

(** ** The source of the record before *)

Lemma default_name_inj a b : "default_" +:+ a = "default_" +:+ b -> a = b.
Proof.
  intros Hab. apply (f_equal (after_prefix "default_")) in Hab.
  rewrite !after_prefix_app in Hab. congruence.
Qed.

(** The body of the loop for a record without a source, when the name
    [def_default_function] holds a source [src] that [exec] runs. *)
Lemma install_again loc st j e m Model f src bound :
  find_entry st j = Some e ->
  entry_model st e = Some m ->
  pool st !! m_model m = Some Model ->
  entry_field st e = Some f ->
  without_source (f_ttype f) (e_default_value e) ->
  def_default_function loc = Some src ->
  exec_source src = Ret bound ->
  install loc j st =
    match py_eval (<[fst bound := snd bound]>
                     (<["default_value" := ERecord j]> (defined loc)))
            ("default_" +:+ f_name f) with
    | Ret g' =>
        bind (set_default (m_model m) (f_name f) g')
             (fun _ =>
                ret {| def_default_function := Some src;
                       defined := <[fst bound := snd bound]>
                                    (<["default_value" := ERecord j]>
                                       (defined loc)) |}) st
    | Raise e => (Raise e, st)
    | Unmodelled => (Unmodelled, st)
    end.
Proof.
  intros He Hm Hp Hf Hw Hsrc Hexec.
  unfold install, bind at 1, browse. rewrite He. simpl.
  unfold bind at 1, get_state. unfold bind at 1, lift. rewrite Hm. simpl.
  unfold bind at 1, pool_get. rewrite Hp. simpl.
  unfold bind at 1. rewrite Hf. simpl.
  unfold on_change_with_field_type. rewrite Hf.
  rewrite (without_source_spec _ _ _ Hw), Hsrc, Hexec.
  unfold bind at 1. unfold bind at 1.
  by destruct (py_eval _ _).
Qed.

Lemma installs_only_pool st st' name Model :
  installs_only st st' -> pool st !! name = Some Model ->
  exists Model', pool st' !! name = Some Model'.
Proof.
  intros (_ & Hc & _) Hp. specialize (Hc name). rewrite Hp in Hc.
  destruct (pool st' !! name) as [Model'|]; [by eexists|done].
Qed.

(** X10.  A record without a source that comes after a record with one: the
    name [def_default_function] still holds the source of the record
    before, and [exec] runs it again.  When the two fields have the same
    name the call returns, and the model of the second record gets the
    function of the first one.  When they have different names, [eval]
    looks for a name that this [exec] has not bound: for a field named
    [value] it finds the record of the loop, [default_value], and for a
    field named [values] the list [default_values]: the call returns,
    and what it puts in [_defaults] is no function.  For any other name
    the call raises, with the function of the first record installed. *)
Theorem record_without_source_after_another (st : state) (i j : Z)
    (ei ej : entry) (mi mj : ir_model) (Mi Mj : model_class)
    (fi fj : ir_model_field) (s : string) :
  find_entry st i = Some ei ->
  entry_model st ei = Some mi ->
  pool st !! m_model mi = Some Mi ->
  entry_field st ei = Some fi ->
  str_all is_ident_char (f_name fi) = true ->
  e_default_value ei = Some s ->
  agrees (f_ttype fi) s ->
  find_entry st j = Some ej ->
  entry_model st ej = Some mj ->
  pool st !! m_model mj = Some Mj ->
  entry_field st ej = Some fj ->
  str_all is_ident_char (f_name fj) = true ->
  without_source (f_ttype fj) (e_default_value ej) ->
  exists g,
    py_call g = get_value st ei (f_ttype fi) /\
    (f_name fj = f_name fi ->
     exists st',
       set_default_values [i; j] st = (Ret tt, st') /\
       provider st' (m_model mj) (f_name fj) = Some g) /\
    (f_name fj <> f_name fi -> f_name fj = "value" ->
     exists st',
       set_default_values [i; j] st = (Ret tt, st') /\
       provider st' (m_model mj) (f_name fj) = Some (ERecord j) /\
       py_call (ERecord j) = Raise TypeError) /\
    (f_name fj <> f_name fi -> f_name fj = "values" ->
     exists st',
       set_default_values [i; j] st = (Ret tt, st') /\
       provider st' (m_model mj) (f_name fj) = Some (ERecords [i; j]) /\
       py_call (ERecords [i; j]) = Raise TypeError) /\
    (f_name fj <> f_name fi -> f_name fj <> "value" -> f_name fj <> "values" ->
     exists st',
       set_default_values [i; j] st
       = (Raise (NameError ("default_" +:+ f_name fj)), st') /\
       provider st' (m_model mi) (f_name fi) = Some g).
Proof.
  intros Hei Hmi Hpi Hfi Hid Hs Ha Hej Hmj Hpj Hfj Hidj Hw.
  destruct (agrees_source _ (f_name fi) _ Ha) as (body & g & Hsrc & Hg & Hcall).
  rewrite <- Hs in Hsrc.
  set (loc0 := first_locals [i; j]).
  destruct (install_with_source loc0 st i ei mi Mi fi body g
              Hei Hmi Hpi Hfi Hid Hsrc Hg) as (st1 & Hrun1 & Hprov1 & Hi1).
  exists g. split.
  { apply Hcall; [|done]. unfold on_change_with_field_type. by rewrite Hfi. }
  destruct (installs_only_pool _ _ _ _ Hi1 Hpj) as [Mj' Hpj'].
  pose proof (proj1 Hi1) as Hrec.
  set (src := def_head (f_name fi) +:+ body) in *.
  set (loc1 := {| def_default_function := Some src;
                  defined := <["default_" +:+ f_name fi := g]>
                               (<["default_value" := ERecord i]>
                                  (defined loc0)) |}) in *.
  pose proof (install_again loc1 st1 j ej mj Mj' fj src
                ("default_" +:+ f_name fi, g)) as Hrun2.
  rewrite (same_records_find_entry _ _ _ Hrec),
    (same_records_entry_model _ _ _ Hrec),
    (same_records_entry_field _ _ _ Hrec) in Hrun2.
  specialize (Hrun2 Hej Hmj Hpj' Hfj Hw eq_refl
                (exec_source_def _ _ _ Hid Hg)).
  rewrite (py_eval_name _ _ Hidj) in Hrun2. cbn [fst snd] in Hrun2.
  assert (forall r st',
            install loc1 j st1 = (r, st') ->
            set_default_values [i; j] st
            = (match r with
               | Ret _ => Ret tt
               | Raise e => Raise e
               | Unmodelled => Unmodelled
               end, st')) as Hboth.
  { intros r st' Hr.
    unfold set_default_values, bind at 1, get_state. simpl install_all.
    unfold bind at 1. unfold bind at 1. fold loc0. rewrite Hrun1.
    unfold bind at 1. rewrite Hr. by destruct r. }
  assert (f_name fj <> f_name fi ->
            (<["default_" +:+ f_name fi := g]>
               (<["default_value" := ERecord j]> (defined loc1)))
              !! ("default_" +:+ f_name fj)
            = if decide (f_name fj = "value") then Some (ERecord j)
              else if decide (f_name fj = "values")
                   then Some (ERecords [i; j]) else None) as Hlook.
  { intros Hne.
    assert (forall a b : string, a <> b -> "default_" +:+ b <> "default_" +:+ a)
      as Hneq by (intros a b Hab Heq; apply Hab; symmetry;
                  by apply default_name_inj).
    rewrite lookup_insert_ne by by apply Hneq.
    change "default_value" with ("default_" +:+ "value").
    destruct (decide (f_name fj = "value")) as [->|Hv].
    { by rewrite lookup_insert_eq. }
    rewrite lookup_insert_ne by (apply Hneq; congruence).
    unfold loc1. cbn [defined].
    rewrite lookup_insert_ne by by apply Hneq.
    rewrite lookup_insert_ne by (apply Hneq; congruence).
    unfold loc0, first_locals. cbn [defined].
    change "default_values" with ("default_" +:+ "values").
    destruct (decide (f_name fj = "values")) as [->|Hvs].
    { by rewrite lookup_singleton_eq. }
    rewrite lookup_singleton_ne by (apply Hneq; congruence). done. }
  assert (forall obj,
            (<["default_" +:+ f_name fi := g]>
               (<["default_value" := ERecord j]> (defined loc1)))
              !! ("default_" +:+ f_name fj) = Some obj ->
            exists st',
              set_default_values [i; j] st = (Ret tt, st') /\
              provider st' (m_model mj) (f_name fj) = Some obj) as Hret.
  { intros obj Hobj. rewrite Hobj in Hrun2. cbn [of_option] in Hrun2.
    destruct (set_default_spec (m_model mj) (f_name fj) obj st1 Mj' Hpj')
      as (st2 & Hset & _ & Hthis & _).
    unfold bind in Hrun2. rewrite Hset in Hrun2. unfold ret in Hrun2.
    exists st2. by rewrite (Hboth _ _ Hrun2). }
  split; [|split; [|split]].
  - intros Heq. apply Hret. rewrite Heq. apply lookup_insert_eq.
  - intros Hne Hv.
    destruct (Hret (ERecord j)) as (st' & ? & ?); [|by exists st'].
    rewrite (Hlook Hne). by rewrite decide_True.
  - intros Hne Hv.
    destruct (Hret (ERecords [i; j])) as (st' & ? & ?); [|by exists st'].
    rewrite (Hlook Hne).
    rewrite decide_False by (rewrite Hv; discriminate). by rewrite decide_True.
  - intros Hne Hv Hvs. exists st1. split; [|done].
    rewrite (Hlook Hne), !decide_False in Hrun2 by done.
    cbn [of_option] in Hrun2. by rewrite (Hboth _ _ Hrun2).
Qed.

(** ** What the methods leave as it is *)

















(** ** The names that [set_default_values] writes *)

Lemma key_of_cons st i ids model name :
  key_of st ids model name -> key_of st (i :: ids) model name.
Proof.
  intros (j & e & m & f & Hin & Hrest). exists j, e, m, f.
  split; [by right|done].
Qed.

Lemma install_frame loc i st r st' :
  install loc i st = (r, st') ->
  forall model name,
    ~ key_of st [i] model name ->
    provider st' model name = provider st model name.
Proof.
  intros Hrun model name Hk.
  destruct (install_inv _ _ _ _ _ Hrun)
    as [[-> _]|(e & m & Model & f & g & loc1 & He & Hm & Hp & Hf & Hset & _)];
    [done|].
  destruct (set_default_spec (m_model m) (f_name f) g st Model Hp)
    as (st1 & E1 & _ & _ & Hother).
  rewrite E1 in Hset. injection Hset as <-. apply Hother.
  intros [= -> ->]. apply Hk. exists i, e, m, f. split; [by left|done].
Qed.





(** ** Setting a value again *)

(** X15.  The value that [set_value] writes replaces the one before: when
    two calls in a row on a record of the kind, with values that are not
    [None], both return, the row holds the text of the second value, and
    the id, the model and the field it had. *)
Theorem the_last_value_stays (st st1 st2 : state) (i : Z) (self : entry)
    (kind : string) (v1 v2 : pyval) :
  unique_fields st ->
  find_entry st i = Some self ->
  on_change_with_field_type st self = Some kind ->
  is_not_none v1 = true ->
  is_not_none v2 = true ->
  set_value [i] kind v1 st = (Ret tt, st1) ->
  set_value [i] kind v2 st1 = (Ret tt, st2) ->
  find_entry st2 i
  = Some {| e_id := e_id self; e_model := e_model self;
            e_field := e_field self;
            e_default_value := Some (py_str v2) |}.
Proof.
  intros Hu Hself Ht H1 H2 Hrun1 Hrun2.
  destruct (set_value_stores st i self kind v1 Hu Hself Ht H1) as [Hc1 Hf1].
  rewrite Hrun1 in Hc1, Hf1. cbn [snd] in Hc1, Hf1.
  assert (unique_fields st1) as Hu1.
  { apply (rewrites_unique st st1); [|done].
    exact (set_value_rewrites [i] kind v1 st (Ret tt) st1 Hrun1). }
  set (self1 := update_row (only_default_value (Some (py_str v1))) self) in *.
  assert (on_change_with_field_type st1 self1 = Some kind) as Ht1.
  { rewrite <- Ht. by apply same_catalog_type. }
  destruct (set_value_stores st1 i self1 kind v2 Hu1 Hf1 Ht1 H2) as [_ Hf2].
  rewrite Hrun2 in Hf2. exact Hf2.
Qed.

(** ** The constraint under [write] *)

Lemma omap_In {A B} (f : A -> option B) (l : list A) x v :
  In x l -> f x = Some v -> In v (omap f l).
Proof.
  intros Hx Hv. apply list_elem_of_In, list_elem_of_omap.
  exists x. split; [by apply list_elem_of_In|done].
Qed.

Lemma omap_two {A B} (f : A -> option B) (l : list A) x y v :
  NoDup (omap f l) ->
  (exists l1 l2 l3, l = l1 ++ x :: l2 ++ y :: l3) ->
  f x = Some v -> f y = Some v -> False.
Proof.
  intros Hn (l1 & l2 & l3 & ->) Hx Hy.
  rewrite omap_app, omap_cons, Hx in Hn.
  apply NoDup_app in Hn as (_ & _ & Hn). apply NoDup_cons in Hn as [Hn _].
  apply Hn. apply list_elem_of_In. apply (omap_In f _ y); [|done].
  apply in_or_app. right. by left.
Qed.

Lemma find_split {A} (p : A -> bool) (l : list A) x :
  find p l = Some x ->
  exists l1 l2, l = l1 ++ x :: l2 /\ p x = true /\
                Forall (fun y => p y = false) l1.
Proof.
  induction l as [|a l IH]; [done|]. simpl.
  destruct (p a) eqn:Ha.
  - intros [= ->]. exists [], l. by split; [|split; [|constructor]].
  - intros Hf. destruct (IH Hf) as (l1 & l2 & -> & Hx & Hall).
    exists (a :: l1), l2. split; [done|]. split; [done|]. by constructor.
Qed.

(** Two rows with different ids, one after the other in a table. *)
Lemma two_rows (t : list entry) i j ei ej :
  find (fun e => e_id e =? i) t = Some ei ->
  find (fun e => e_id e =? j) t = Some ej ->
  i <> j ->
  (exists l1 l2 l3, t = l1 ++ ei :: l2 ++ ej :: l3) \/
  (exists l1 l2 l3, t = l1 ++ ej :: l2 ++ ei :: l3).
Proof.
  intros Hi Hj Hne.
  destruct (find_split _ _ _ Hi) as (a1 & a2 & -> & Hei & Ha).
  apply Z.eqb_eq in Hei.
  assert (e_id ej = j) as Hej.
  { apply find_some in Hj as [_ Hj]. by apply Z.eqb_eq in Hj. }
  assert (In ej (a1 ++ ei :: a2)) as Hin by (by apply find_some in Hj as [? _]).
  apply in_app_or in Hin as [Hin|[Heq|Hin]].
  - right. apply in_split in Hin as (b1 & b2 & ->).
    exists b1, b2, a2. by rewrite <- app_assoc.
  - subst ej. congruence.
  - left. apply in_split in Hin as (b1 & b2 & ->). by exists a1, b1, b2.
Qed.

(** X16.  The constraint [default_uniq] holds for [write] as well: a [write]
    that gives a record the field of another stored record raises the
    error of the constraint, with the state as it was: no row is
    changed, no function installed. *)
Theorem write_to_a_taken_field (st : state) (i j : Z) (ei ej : entry)
    (fid : Z) (v : values) (rest : list (list Z * values)) :
  find_entry st i = Some ei ->
  find_entry st j = Some ej ->
  i <> j ->
  v_field v = Some fid ->
  e_field ej = Some fid ->
  write (([i], v) :: rest) st = (Raise (ConstraintError "default_uniq"), st).
Proof.
  intros Hi Hj Hne Hv Hf.
  assert (sql_update [i] v st = (Raise (ConstraintError "default_uniq"), st))
    as Hupd.
  { unfold sql_update.
    destruct (default_uniq _) eqn:Hu; [exfalso|done].
    apply default_uniq_spec in Hu.
    set (upd := fun e => if has_id [i] e then update_row v e else e) in *.
    assert (upd ei = update_row v ei) as Hui.
    { unfold upd. rewrite has_id_single.
      apply find_some in Hi as [_ ->]. done. }
    assert (upd ej = ej) as Huj.
    { unfold upd. rewrite has_id_single.
      apply find_some in Hj as [_ Hj]. apply Z.eqb_eq in Hj.
      destruct (e_id ej =? i) eqn:E; [|done]. apply Z.eqb_eq in E. lia. }
    assert (e_field (upd ei) = Some fid) as Hfi.
    { rewrite Hui. unfold update_row. simpl. by rewrite Hv. }
    assert (e_field (upd ej) = Some fid) as Hfj by (by rewrite Huj).
    destruct (two_rows _ _ _ _ _ Hi Hj Hne) as [(l1 & l2 & l3 & Ht)|(l1 & l2 & l3 & Ht)];
      rewrite Ht, map_app, map_cons, map_app, map_cons in Hu.
    - eapply (omap_two e_field _ (upd ei) (upd ej)); [exact Hu| |done..].
      by eexists _, _, _.
    - eapply (omap_two e_field _ (upd ej) (upd ei)); [exact Hu| |done..].
      by eexists _, _, _. }
  unfold write, write_with. simpl for_each.
  unfold bind at 1. unfold bind at 1. by rewrite Hupd.
Qed.

(** ** An error in the middle of the records *)

Lemma install_raises_in_place loc i st e st' :
  install loc i st = (Raise e, st') -> st' = st.
Proof.
  intros Hrun.
  by destruct (install_inv _ _ _ _ _ Hrun)
    as [[-> _]|(? & ? & ? & ? & ? & ? & _ & _ & _ & _ & _ & ?)].
Qed.

Lemma install_all_raises ids loc st e st' :
  install_all loc ids st = (Raise e, st') ->
  exists pre i post,
    ids = pre ++ i :: post /\
    (forall k, In k pre -> installed st' k) /\
    (forall model name,
        ~ key_of st pre model name ->
        provider st' model name = provider st model name) /\
    installs_only st st'.
Proof.
  revert loc st. induction ids as [|i ids IH]; intros loc st; simpl; [done|].
  unfold bind. destruct (install loc i st) as [[loc1|e1|] st1] eqn:E1;
    [| |done].
  - intros E2. destruct (IH _ _ E2) as (pre & k & post & -> & Hin & Hfr & Hi2).
    destruct (install_spec _ _ _ _ _ E1) as [Hi1 Hd1].
    exists (i :: pre), k, post. split; [done|]. split_and!.
    + intros x [<-|Hx]; [|by apply Hin].
      eapply installed_installs_only; [exact Hi2|]. by eapply Hd1.
    + intros model name Hk.
      rewrite (Hfr model name).
      * apply (install_frame _ _ _ _ _ E1).
        intros (x & ex & m & f & [<-|[]] & Hrest). apply Hk.
        exists i, ex, m, f. split; [by left|done].
      * intros Hk'. apply Hk, key_of_cons.
        eapply key_of_same; [|exact Hk']. by destruct Hi1.
    + by eapply installs_only_trans.
  - intros [= <- <-]. apply install_raises_in_place in E1 as ->.
    exists [], i, ids. split; [done|]. split_and!; [by intros ? []|done|].
    apply installs_only_refl.
Qed.

(** X17.  [set_default_values] stops at the first record for which it raises:
    the records before it have their function, those after it are not
    reached, and the [_defaults] are changed under the names of the
    records before it alone.  What has been installed stays. *)
Theorem installation_stops_at_the_first_error (default_values : list Z)
    (st st' : state) (e : py_error) :
  set_default_values default_values st = (Raise e, st') ->
  exists pre i post,
    records_of st default_values = pre ++ i :: post /\
    (forall k, In k pre -> installed st' k) /\
    (forall model name,
        ~ key_of st pre model name ->
        provider st' model name = provider st model name).
Proof.
  unfold set_default_values, bind at 1, get_state.
  fold (records_of st default_values). unfold bind.
  destruct (install_all (first_locals _) _ st) as [[loc|e1|] st1] eqn:E;
    [done| |done].
  intros [= <- <-].
  destruct (install_all_raises _ _ _ _ _ E) as (pre & i & post & ? & ? & ? & _).
  by exists pre, i, post.
Qed.

(** ** Installing again *)















(** ** The value that is set is the default *)

(** X19.  The default that is set is the default that is given: for a record
    whose model and field resolve and a value of the kind of its field
    whose text is a source the language reads back, [set_value] returns,
    and the function it leaves in the [_defaults] of the model, under
    the name of the field, returns the value. *)
Theorem the_value_set_is_the_default (st : state) (i : Z) (e : entry)
    (m : ir_model) (Model : model_class) (f : ir_model_field) (v : pyval) :
  unique_fields st ->
  find_entry st i = Some e ->
  entry_model st e = Some m ->
  pool st !! m_model m = Some Model ->
  entry_field st e = Some f ->
  str_all is_ident_char (f_name f) = true ->
  in_domain (f_ttype f) v ->
  installable (f_ttype f) v ->
  exists st' g,
    set_value [i] (f_ttype f) v st = (Ret tt, st') /\
    provider st' (m_model m) (f_name f) = Some g /\
    py_call g = Ret v.
Proof.
  intros Hu He Hm Hp Hf Hid Hd Hi.
  destruct (set_value_installs st i e m Model f v Hu He Hm Hp Hf Hid Hd Hi)
    as (st' & g & ? & ? & ? & _).
  by exists st', g.
Qed.

(** ** A new entry with its value *)

(** X20.  The main use of the module.  A [create] of one entry for a field
    that has no entry yet, of a model whose class has neither a method
    [default_<field>] nor a [fields.Function] under that name, with the
    typed value of the kind of the field: the call returns the new id,
    the row holds the text of the value, and the function that is left
    in the [_defaults] of the model, under the name of the field,
    returns the value. *)
Theorem a_new_entry_installs_its_value (st : state) (fid : Z)
    (field : ir_model_field) (m : ir_model) (Model : model_class)
    (d : option (option string)) (v : pyval) :
  unique_fields st ->
  fresh_ids st ->
  ~ In fid (omap e_field (table st)) ->
  find_field st fid = Some field ->
  find_model st (f_model field) = Some m ->
  pool st !! m_model m = Some Model ->
  exposes_default Model field = false ->
  is_functional Model field = false ->
  is_Some (mc_fields Model !! f_name field) ->
  str_all is_ident_char (f_name field) = true ->
  in_domain (f_ttype field) v ->
  installable (f_ttype field) v ->
  exists st' g,
    create [ {| v_model := Some (f_model field); v_field := Some fid;
                v_default_value := d; v_typed := [(f_ttype field, v)] |} ] st
    = (Ret [next_id st], st') /\
    find_entry st' (next_id st)
    = Some {| e_id := next_id st; e_model := Some (f_model field);
              e_field := Some fid; e_default_value := Some (py_str v) |} /\
    provider st' (m_model m) (f_name field) = Some g /\
    py_call g = Ret v.
Proof.
  intros Hu Hfresh Hnew Hfield Hm Hp Hexp Hfun [fd Hfd] Hid Hd Hi.
  set (row := {| v_model := Some (f_model field); v_field := Some fid;
                 v_default_value := d; v_typed := [(f_ttype field, v)] |}).
  set (new := {| e_id := next_id st; e_model := Some (f_model field);
                 e_field := Some fid;
                 e_default_value := if d is Some x then x else None |}).
  set (st1 := {| ir_models := ir_models st; ir_fields := ir_fields st;
                 pool := pool st; table := table st ++ [new];
                 next_id := next_id st + 1; log := log st |}).
  assert (for_each [row] check_row st = (Ret tt, st)) as Hcheck.
  { assert (target st row = Some (field, Model)) as Ht
      by (unfold target; simpl; by rewrite Hfield, Hm, Hp).
    pose proof (check_row_target _ _ _ _ Ht) as Hc.
    rewrite Hexp, Hfun, Hfd in Hc. pose proof (check_row_state row st) as Hs.
    simpl for_each. unfold bind.
    destruct (check_row row st) as [r s]. simpl in Hc, Hs. by subst. }
  assert (unique_fields st1) as Hu1.
  { unfold unique_fields. simpl. rewrite omap_app. simpl.
    apply NoDup_app. split; [done|]. split; [|by apply NoDup_singleton].
    intros x Hx [->|[]]%list_elem_of_In. by apply Hnew, list_elem_of_In. }
  assert (sql_insert row st = (Ret (next_id st), st1)) as Hins.
  { unfold sql_insert. simpl. fold new.
    apply default_uniq_spec in Hu1. simpl in Hu1. by rewrite Hu1. }
  assert (find_entry st1 (next_id st) = Some new) as Hnewrow.
  { unfold find_entry. simpl. rewrite find_app_fresh.
    - simpl. by rewrite Z.eqb_refl.
    - eapply Forall_impl; [exact Hfresh|]. intros e He. simpl in He. lia. }
  assert (entry_model st1 new = Some m) as Hm1 by exact Hm.
  assert (entry_field st1 new = Some field) as Hf1 by exact Hfield.
  destruct (set_value_installs st1 (next_id st) new m Model field v
              Hu1 Hnewrow Hm1 Hp Hf1 Hid Hd Hi)
    as (st' & g & Hset & Hprov & Hcall & Hrow & Hrw).
  assert (validate [next_id st] st' = (Ret tt, st')) as Hval.
  { rewrite validate_cons, Hrow.
    assert (in_domain_of_field st'
              (update_row (only_default_value (Some (py_str v))) new) = true)
      as ->; [|done].
    unfold in_domain_of_field. cbn [update_row only_default_value e_field
      e_model v_model v_field new].
    destruct Hrw as ([_ Hcat] & _). unfold find_field in *.
    rewrite Hcat. change (ir_fields st1) with (ir_fields st). rewrite Hfield.
    change (default 0 (Some (f_model field))) with (f_model field).
    by rewrite Z.eqb_refl, (in_domain_kind _ _ Hd). }
  exists st', g. split; [|done].
  unfold create, bind at 1. rewrite Hcheck.
  unfold modelsql_create, bind at 1. simpl insert_all.
  unfold bind at 1. rewrite Hins. unfold bind at 1, ret at 1.
  unfold ret at 1. simpl combine. simpl for_each.
  unfold bind at 1. unfold bind at 1. unfold set_typed at 1. simpl for_each.
  unfold bind at 1. simpl fst. simpl snd. rewrite Hset.
  unfold ret at 1. unfold ret at 1. unfold bind at 1. rewrite Hval.
  reflexivity.
Qed.

(** ** A selection that is given by a method *)

Lemma length_list_ascii s :
  length (list_ascii_of_string s) = String.length s.
Proof. induction s as [|c s IH]; simpl; by rewrite ?IH. Qed.

(** X21.  [get_selection_values] extends its list with the attribute
    [selection] of the field as it is.  When the field gives its options
    by the name of a method, the method is not called: the list is the
    empty option followed by the characters of the name, one string
    each.  When the field has no such attribute, the call raises. *)
Theorem selection_by_method_name (st : state) (self : entry)
    (field : ir_model_field) (model : ir_model) (Model : model_class)
    (fd : field_def) :
  entry_field st self = Some field ->
  find_model st (f_model field) = Some model ->
  f_ttype field = "selection" ->
  pool st !! m_model model = Some Model ->
  mc_fields Model !! f_name field = Some fd ->
  (forall name,
      fd_selection fd = Some (Method name) ->
      get_selection_values st self
      = Ret (Pair (PNone, "") :: map Single (list_ascii_of_string name)) /\
      length (Pair (PNone, "") :: map Single (list_ascii_of_string name))
      = S (String.length name)) /\
  (fd_selection fd = None ->
   get_selection_values st self = Raise AttributeError).
Proof.
  intros Hf Hm Ht HM Hfd. unfold get_selection_values, on_change_with_field_type.
  rewrite Hf, Hm, Ht. simpl is_type. cbv iota. rewrite HM, Hfd. split.
  - intros name ->. split; [done|].
    cbn [length]. by rewrite length_map, length_list_ascii.
  - by intros ->.
Qed.

(** ** The domain of [field] *)

(** X22.  The field of an entry is one of the model of the entry, and of one
    of the twelve kinds: a [create] of one row without typed values, for
    a field that has no entry, that passes the checks of [create],
    returns the new id when the row is in this domain, and raises the
    error of the validation otherwise; the request then leaves the table
    as it was. *)
Theorem create_validates_the_domain (st : state) (v : values) (fid m : Z)
    (field : ir_model_field) :
  unique_fields st ->
  fresh_ids st ->
  v_field v = Some fid ->
  v_model v = Some m ->
  v_typed v = [] ->
  find_field st fid = Some field ->
  fst (check_row v st) = Ret tt ->
  ~ In fid (omap e_field (table st)) ->
  (f_model field = m /\ member (f_ttype field) _FIELD_TYPES = true ->
   fst (create [v] st) = Ret [next_id st]) /\
  (f_model field <> m \/ member (f_ttype field) _FIELD_TYPES = false ->
   fst (create [v] st) = Raise (UserError "domain_validation_record" "field") /\
   table (serve (Create [v]) st) = table st).
Proof.
  intros Hu Hfresh Hvf Hvm Hvt Hfield Hchk Hnew.
  set (new := row_of (next_id st) v).
  set (st1 := {| ir_models := ir_models st; ir_fields := ir_fields st;
                 pool := pool st; table := table st ++ [new];
                 next_id := next_id st + 1; log := log st |}).
  assert (check_row v st = (Ret tt, st)) as Hchk'.
  { pose proof (check_row_state v st) as Hs.
    destruct (check_row v st) as [r s1]; simpl in *. by subst. }
  assert (e_field new = Some fid) as Hnf by (unfold new, row_of; by rewrite Hvf).
  assert (e_model new = Some m) as Hnm by (unfold new, row_of; by rewrite Hvm).
  assert (sql_insert v st = (Ret (next_id st), st1)) as Hins.
  { unfold sql_insert. rewrite Hvm, Hvf.
    assert (default_uniq
              (table st ++
               [{| e_id := next_id st; e_model := Some m; e_field := Some fid;
                   e_default_value :=
                     if v_default_value v is Some d then d else None |}])
            = true) as ->.
    { apply default_uniq_spec. rewrite omap_app. simpl.
      apply NoDup_app. split; [done|]. split; [|by apply NoDup_singleton].
      intros x Hx [->|[]]%list_elem_of_In. by apply Hnew, list_elem_of_In. }
    unfold st1, new, row_of. by rewrite Hvm, Hvf. }
  assert (find_entry st1 (next_id st) = Some new) as Hrow.
  { unfold find_entry. simpl. rewrite find_app_fresh.
    - simpl. by rewrite Z.eqb_refl.
    - eapply Forall_impl; [exact Hfresh|]. intros e He. simpl in He. lia. }
  assert (create [v] st =
            if (f_model field =? m) && member (f_ttype field) _FIELD_TYPES
            then (Ret [next_id st], st1)
            else (Raise (UserError "domain_validation_record" "field"), st1))
    as Hcr.
  { unfold create, bind at 1. cbn [for_each]. unfold bind at 1. rewrite Hchk'.
    unfold ret at 1. unfold modelsql_create, bind at 1. cbn [insert_all].
    unfold bind at 1. rewrite Hins. unfold bind at 1, ret at 1. unfold ret at 1.
    cbn [combine for_each]. unfold bind at 1. unfold bind at 1.
    unfold set_typed at 1. cbn [snd fst]. rewrite Hvt. cbn [for_each].
    unfold ret at 1. unfold ret at 1. unfold bind at 1.
    rewrite validate_cons, Hrow. unfold in_domain_of_field.
    rewrite Hnf, Hnm. change (find_field st1 fid) with (find_field st fid).
    rewrite Hfield. change (default 0 (Some m)) with m.
    by destruct ((f_model field =? m) && member (f_ttype field) _FIELD_TYPES). }
  split.
  - intros [Hm Hk]. rewrite Hcr, Hk. apply Z.eqb_eq in Hm. by rewrite Hm.
  - intros Hout.
    assert ((f_model field =? m) && member (f_ttype field) _FIELD_TYPES = false)
      as Hb.
    { destruct Hout as [Hm| ->]; [|apply andb_false_r].
      apply Z.eqb_neq in Hm. by rewrite Hm. }
    rewrite Hb in Hcr. split; [by rewrite Hcr|].
    unfold serve, transaction. by rewrite Hcr.
Qed.

End Further.

(* ===================================================================== *)
(** * The theorems on the small database *)
(* ===================================================================== *)

#[local] Existing Instance zero_only.

Lemma world_unique : @unique_fields zero_only world.
Proof. apply default_uniq_spec. reflexivity. Qed.

(** C1 on the record 1, of kind integer, and the value 7: the call
    returns, and the value is read back. *)
Lemma typed_round_trip_witness :
  @unique_fields zero_only world /\
  find_entry world 1 = Some count_entry /\
  on_change_with_field_type world count_entry = Some "integer" /\
  exists st' self',
    set_value [1] "integer" (PInt 7) world = (Ret tt, st') /\
    find_entry st' 1 = Some self' /\
    same_refs count_entry self' /\
    e_default_value self' = Some "7" /\
    get_value st' self' "integer" = Ret (PInt 7).
Proof.
  split; [exact world_unique|]. split; [reflexivity|]. split; [reflexivity|].
  destruct (typed_round_trip world 1 count_entry "integer" world_unique
              eq_refl eq_refl) as (Hread & Hret & _).
  destruct (Hret (PInt 7) task_model task eq_refl eq_refl) as [st' Hst'].
  - intros f Hf. injection Hf as <-. reflexivity.
  - reflexivity.
  - exact I.
  - destruct (Hread (PInt 7) st' eq_refl Hst') as (self' & H1 & H2 & H3 & H4).
    exists st', self'. split; [exact Hst'|]. split; [exact H1|].
    split; [exact H2|]. split; [exact H3|exact H4].
Defined.

(** C1: a [datetime] with microseconds is written with them, and the
    text is then refused by [get_value]. *)
Lemma round_trip_loses_microseconds :
  fst (set_value [2] "datetime" (PDateTime with_microseconds) world) = Ret tt /\
  exists e,
    find_entry (snd (set_value [2] "datetime" (PDateTime with_microseconds)
                       world)) 2 = Some e /\
    e_default_value e = Some "2024-01-02 03:04:05.000600" /\
    get_value (snd (set_value [2] "datetime" (PDateTime with_microseconds)
                      world)) e "datetime"
    = Raise ConversionError.
Proof.
  split; [vm_compute; reflexivity|].
  eexists. split; [vm_compute; reflexivity|].
  split; [reflexivity|]. vm_compute. reflexivity.
Qed.

(** C2: a [create] with the stored text alone returns, and installs no
    function. *)
Lemma create_without_typed_value_installs_nothing :
  fst (create [for_field 20 (Some (Some "draft")) []] world) = Ret [4] /\
  find_entry (snd (create [for_field 20 (Some (Some "draft")) []] world)) 4
  = Some {| e_id := 4; e_model := Some 2; e_field := Some 20;
            e_default_value := Some "draft" |} /\
  provider (snd (create [for_field 20 (Some (Some "draft")) []] world))
           "task" "title" = None.
Proof. split; [|split]; vm_compute; reflexivity. Qed.

(** C3 on the field [digits]. *)
Lemma create_refuses_witness :
  Forall (fun r => fst (check_row r world) = Ret tt) [] /\
  target world (for_field 18 None []) = Some (digits_field, task) /\
  (exposes_default task digits_field = true ->
   create ([] ++ for_field 18 None [] :: []) world
   = (Raise (UserError "field_has_default_value" (f_name digits_field)), world)) /\
  (exposes_default task digits_field = false ->
   is_functional task digits_field = true ->
   create ([] ++ for_field 18 None [] :: []) world
   = (Raise (UserError "field_is_functional" (f_name digits_field)), world)).
Proof.
  split; [constructor|]. split; [reflexivity|].
  apply (create_refuses world [] [] (for_field 18 None []) digits_field task);
    [constructor | reflexivity].
Defined.

(** C3: [digits] is a [fields.Function], and [create] fails with the
    other message, since the class has a method [default_digits]. *)
Lemma functional_field_with_default :
  is_functional task digits_field = true /\
  create [for_field 18 None []] world
  = (Raise (UserError "field_has_default_value" "digits"), world).
Proof. split; vm_compute; reflexivity. Qed.

Lemma agrees_5 : @agrees zero_only "integer" "5".
Proof. exists 5. reflexivity. Qed.

(** C4 on the record 1. *)
Lemma provider_returns_typed_value_witness :
  find_entry world 1 = Some count_entry /\
  entry_model world count_entry = Some task_model /\
  pool world !! m_model task_model = Some task /\
  entry_field world count_entry = Some count_field /\
  str_all is_ident_char (f_name count_field) = true /\
  e_default_value count_entry = Some "5" /\
  @agrees zero_only (f_ttype count_field) "5" /\
  exists st' g,
    set_default_values [1] world = (Ret tt, st') /\
    provider st' (m_model task_model) (f_name count_field) = Some g /\
    py_call g = get_value st' count_entry (f_ttype count_field).
Proof.
  split_and!; try reflexivity; try exact agrees_5.
  apply (provider_returns_typed_value world 1 count_entry task_model task
           count_field "5"); try reflexivity.
  exact agrees_5.
Defined.

(** C4: for the empty text of the record 3 the installed function
    returns [None], and the typed view reads 0. *)
Lemma provider_of_empty_text :
  fst (set_default_values [3] world) = Ret tt /\
  provider (snd (set_default_values [3] world)) "task" "priority" = Some ENone /\
  @py_call zero_only ENone = Ret PNone /\
  get_value (snd (set_default_values [3] world)) priority_entry "integer"
  = Ret (PInt 0).
Proof. split_and!; vm_compute; reflexivity. Qed.

(** C5 on a table whose record holds a text with a quote: the source
    is refused, the error is caught, and the warning is logged. *)
Lemma load_default_values_never_raises_witness :
  set_default_values [] quoted = (Raise SyntaxError, quoted) /\
  load_default_values quoted = (Ret tt, with_log quoted [warning]) /\
  fst (load_default_values world) = Ret tt.
Proof.
  assert (set_default_values [] quoted = (Raise SyntaxError, quoted)) as Hrun
    by (vm_compute; reflexivity).
  split; [exact Hrun|].
  destruct (load_default_values_never_raises quoted) as (_ & Hcatch & _).
  destruct (load_default_values_never_raises world) as (_ & _ & _ & Hret).
  split; [exact (Hcatch SyntaxError quoted Hrun)|].
  apply Hret. split; intros; discriminate.
Defined.

(** C6 on the field [count], which has the record 1, and on two rows
    for the field [due], which has none. *)
Lemma one_entry_per_field_witness :
  create [for_field 12 None []] world
  = (Raise (ConstraintError "default_uniq"), world) /\
  fst (create [for_field 13 None []; for_field 13 None []] world)
  = Raise (ConstraintError "default_uniq") /\
  table (serve (Create [for_field 13 None []; for_field 13 None []]) world)
  = table world.
Proof.
  destruct one_entry_per_field as (_ & Hone & Hmany).
  split.
  - apply (Hone world (for_field 12 None []) 12); [reflexivity| |by eexists|
      reflexivity].
    apply list_elem_of_In. simpl. by left.
  - apply (Hmany world [for_field 13 None []; for_field 13 None []]).
    + exact world_unique.
    + simpl. intros Hn. apply NoDup_cons in Hn as [_ Hn].
      apply NoDup_cons in Hn as [_ Hn]. apply NoDup_cons in Hn as [_ Hn].
      apply NoDup_cons in Hn as [Hn _]. apply Hn. by left.
    + vm_compute. reflexivity.
    + repeat constructor; by eexists.
Defined.

(** C6: a [write] moves the record 1 to the field [digits], whose class
    has a method [default_digits]; the [create] of a second entry for
    that field is refused by the checks of [create], which come before
    the constraint. *)
Lemma second_entry_refused_by_the_checks :
  fst (write [([1], to_field 18)] world) = Ret tt /\
  find_entry (snd (write [([1], to_field 18)] world)) 1
  = Some {| e_id := 1; e_model := Some 2; e_field := Some 18;
            e_default_value := Some "5" |} /\
  create [for_field 18 None []] (snd (write [([1], to_field 18)] world))
  = (Raise (UserError "field_has_default_value" "digits"),
     snd (write [([1], to_field 18)] world)).
Proof. split_and!; vm_compute; reflexivity. Qed.

(** C8 on an instance for the field [state]. *)
Lemma selection_options_witness :
  entry_field world state_entry = Some state_field /\
  find_model world (f_model state_field) = Some task_model /\
  get_selection_values world state_entry
  = Ret (Pair (PNone, "")
         :: map Pair [(PNone, ""); (PStr "open", "Open")]) /\
  (NoDup (Pair (@PNone zero_only, "")
          :: map Pair [(PNone, ""); (PStr "open", "Open")]) <->
   ((@PNone zero_only, "") ∉ [(@PNone zero_only, ""); (PStr "open", "Open")])
   /\ NoDup [(@PNone zero_only, ""); (PStr "open", "Open")]).
Proof.
  split; [reflexivity|]. split; [reflexivity|].
  destruct (selection_options world state_entry state_field task_model
              eq_refl eq_refl) as [Hsel _].
  exact (Hsel eq_refl task (plain_field [(PNone, ""); (PStr "open", "Open")])
           [(PNone, ""); (PStr "open", "Open")] eq_refl eq_refl eq_refl).
Defined.

(** C8: the empty option twice, when the selection of the field lists
    it. *)
Lemma selection_options_repeat :
  get_selection_values world state_entry
  = Ret [Pair (PNone, ""); Pair (PNone, ""); Pair (PStr "open", "Open")] /\
  ~ NoDup [Pair (@PNone zero_only, ""); Pair (PNone, "");
           Pair (PStr "open", "Open")].
Proof.
  split; [vm_compute; reflexivity|].
  intros Hn. apply NoDup_cons in Hn as [Hn _]. apply Hn. by left.
Qed.


(** ** Values that the statements above leave out *)

(** A [time] at midnight is written as [00:00:00] and its function is
    installed; the typed view then reads [None], since such a [time] is
    false in [value and time(...) or None]. *)
Lemma midnight_reads_as_none :
  fst (create [for_field 14 None [("time", PTime (mk_time 0 0 0 0))]] world)
  = Ret [4] /\
  provider (snd (create [for_field 14 None [("time", PTime (mk_time 0 0 0 0))]]
                   world)) "task" "start" = Some (ETime 0 0 0) /\
  get_value (snd (create [for_field 14 None [("time", PTime (mk_time 0 0 0 0))]]
                    world))
            {| e_id := 4; e_model := Some 2; e_field := Some 14;
               e_default_value := Some "00:00:00" |} "time"
  = Ret PNone.
Proof. split_and!; vm_compute; reflexivity. Qed.

(** A date in August is written as [2024-08-05]; the source of its
    function holds the literal [08], which the language refuses: the
    request raises, and its transaction leaves the table as it was. *)
Lemma august_is_refused :
  fst (transaction
         (create [for_field 13 None [("date", PDate (mk_date 2024 8 5))]])
         world) = Raise SyntaxError /\
  table (snd (transaction
                (create [for_field 13 None [("date", PDate (mk_date 2024 8 5))]])
                world)) = table world.
Proof. split; vm_compute; reflexivity. Qed.

(** The id of a record of a [many2one] is stored as text; the installed
    function returns the number, the typed view the text. *)
Lemma many2one_returns_the_number :
  fst (create [for_field 15 None [("many2one", PStr "2")]] world) = Ret [4] /\
  provider (snd (create [for_field 15 None [("many2one", PStr "2")]] world))
           "task" "owner" = Some (EInt 2) /\
  @py_call zero_only (EInt 2) = Ret (PInt 2) /\
  get_value (snd (create [for_field 15 None [("many2one", PStr "2")]] world))
            {| e_id := 4; e_model := Some 2; e_field := Some 15;
               e_default_value := Some "2" |} "many2one"
  = Ret (PStr "2").
Proof. split_and!; vm_compute; reflexivity. Qed.

(** ** The further properties on the small database *)

Lemma seen_without_source :
  @without_source (f_ttype seen_field) (e_default_value seen_entry).
Proof. left. split; reflexivity. Qed.

Ltac side :=
  first [ reflexivity | exact seen_without_source | exact agrees_5
        | exact world_unique | lia | exact I | constructor ].

Lemma first_record_without_source_witness :
  find_entry world 2 = Some seen_entry /\
  entry_model world seen_entry = Some task_model /\
  pool world !! m_model task_model = Some task /\
  entry_field world seen_entry = Some seen_field /\
  without_source (f_ttype seen_field) (e_default_value seen_entry) /\
  set_default_values [2; 1] world
  = (Raise (NameError "def_default_function"), world).
Proof.
  do 5 (split; [side|]).
  apply (first_record_without_source world 2 [1] seen_entry task_model task
           seen_field); side.
Defined.

Lemma startup_with_a_first_record_without_source_witness :
  table waiting = seen_entry :: [count_entry] /\
  entry_model waiting seen_entry = Some task_model /\
  pool waiting !! m_model task_model = Some task /\
  entry_field waiting seen_entry = Some seen_field /\
  without_source (f_ttype seen_field) (e_default_value seen_entry) /\
  load_default_values waiting
  = (Ret tt, with_log waiting (log waiting ++ [warning])).
Proof.
  do 5 (split; [side|]).
  apply (startup_with_a_first_record_without_source waiting seen_entry
           [count_entry] task_model task seen_field); side.
Defined.

Lemma value_without_source :
  @without_source (f_ttype value_field) (e_default_value value_entry).
Proof. left. split; reflexivity. Qed.

(** X10 on the record for [count] followed by the record for the field
    [value], which has no text: the call returns, and the object under
    [value] is the record itself. *)
Lemma record_without_source_after_another_witness :
  find_entry world_with_value 1 = Some count_entry /\
  entry_model world_with_value count_entry = Some task_model /\
  pool world_with_value !! m_model task_model = Some task /\
  entry_field world_with_value count_entry = Some count_field /\
  str_all is_ident_char (f_name count_field) = true /\
  e_default_value count_entry = Some "5" /\
  agrees (f_ttype count_field) "5" /\
  find_entry world_with_value 5 = Some value_entry /\
  entry_model world_with_value value_entry = Some task_model /\
  entry_field world_with_value value_entry = Some value_field /\
  str_all is_ident_char (f_name value_field) = true /\
  without_source (f_ttype value_field) (e_default_value value_entry) /\
  exists st',
    set_default_values [1; 5] world_with_value = (Ret tt, st') /\
    provider st' "task" "value" = Some (ERecord 5) /\
    @py_call zero_only (ERecord 5) = Raise TypeError.
Proof.
  do 11 (split; [side|]). split; [exact value_without_source|].
  destruct (record_without_source_after_another world_with_value 1 5
              count_entry value_entry task_model task_model task task
              count_field value_field "5" eq_refl eq_refl eq_refl eq_refl
              eq_refl eq_refl agrees_5 eq_refl eq_refl eq_refl eq_refl eq_refl
              value_without_source)
    as (g & _ & _ & Hvalue & _).
  apply Hvalue; [discriminate|reflexivity].
Defined.

Lemma write_without_records_witness :
  unique_fields world /\
  write [([], to_field 17)] world = set_default_values [] world.
Proof.
  split; [exact world_unique|].
  apply (write_without_records world (to_field 17)). exact world_unique.
Defined.

Lemma separators_are_not_read_witness :
  ("date" = "date" /\ String.length "2024" = 4%nat \/
   "date" = "time" /\ String.length "2024" = 2%nat) /\
  String.length "03" = 2%nat /\
  e_field (due_entry "2024/03.05") = e_field (due_entry "2024-03-05") /\
  e_default_value (due_entry "2024-03-05")
  = Some ("2024" +:+ String "-" ("03" +:+ String "-" "05")) /\
  e_default_value (due_entry "2024/03.05")
  = Some ("2024" +:+ String "/" ("03" +:+ String "." "05")) /\
  get_value world (due_entry "2024/03.05") "date"
  = get_value world (due_entry "2024-03-05") "date" /\
  forall name,
    default_source (Some "date") name (e_default_value (due_entry "2024/03.05"))
    = default_source (Some "date") name
        (e_default_value (due_entry "2024-03-05")).
Proof.
  split; [left; split; reflexivity|]. do 4 (split; [side|]).
  apply (separators_are_not_read world (due_entry "2024-03-05")
           (due_entry "2024/03.05") "date" "2024" "03" "05" "-" "-" "/" ".");
    try reflexivity.
  left. split; reflexivity.
Defined.

Lemma function_of_a_record_without_text_witness :
  find_entry world_with_title 4 = Some title_entry /\
  entry_model world_with_title title_entry = Some task_model /\
  pool world_with_title !! m_model task_model = Some task /\
  entry_field world_with_title title_entry = Some title_field /\
  str_all is_ident_char (f_name title_field) = true /\
  e_default_value title_entry = None /\
  (member (f_ttype title_field) ["char"; "text"; "selection"; "reference"]
   = true ->
   exists st',
     set_default_values [4] world_with_title = (Ret tt, st') /\
     provider st' (m_model task_model) (f_name title_field)
     = Some (EStr "None") /\
     py_call (EStr "None") = Ret (PStr "None") /\
     get_value st' title_entry (f_ttype title_field) = Ret PNone) /\
  (member (f_ttype title_field) ["boolean"; "integer"; "float"; "many2one"]
   = true ->
   exists st',
     set_default_values [4] world_with_title = (Ret tt, st') /\
     provider st' (m_model task_model) (f_name title_field) = Some ENone /\
     py_call ENone = Ret PNone) /\
  (f_ttype title_field = "numeric" ->
   exists st',
     set_default_values [4] world_with_title = (Ret tt, st') /\
     provider st' (m_model task_model) (f_name title_field)
     = Some (EDecimal "None") /\
     py_call (EDecimal "None") = Raise ConversionError).
Proof.
  split; [vm_compute; reflexivity|]. split; [reflexivity|].
  split; [vm_compute; reflexivity|]. split; [reflexivity|].
  split; [reflexivity|]. split; [reflexivity|].
  apply (function_of_a_record_without_text world_with_title 4 title_entry
           task_model task title_field);
    first [reflexivity | vm_compute; reflexivity].
Defined.

Lemma create_reads_every_row_first_witness :
  Forall (fun r => fst (check_row r world) = Ret tt) [] /\
  (v_field without_field = None ->
   create ([] ++ without_field :: []) world = (Raise (KeyError "field"), world)) /\
  (forall fid,
      v_field without_field = Some fid -> find_field world fid = None ->
      create ([] ++ without_field :: []) world = (Raise ValueError, world)) /\
  (forall fid field m,
      v_field without_field = Some fid -> find_field world fid = Some field ->
      find_model world (f_model field) = Some m ->
      pool world !! m_model m = None ->
      create ([] ++ without_field :: []) world
      = (Raise (KeyError (m_model m)), world)) /\
  (forall field model,
      target world without_field = Some (field, model) ->
      exposes_default model field = false ->
      mc_fields model !! f_name field = None ->
      create ([] ++ without_field :: []) world
      = (Raise (KeyError (f_name field)), world)).
Proof.
  split; [constructor|].
  apply (create_reads_every_row_first world [] [] without_field). constructor.
Defined.






Lemma the_last_value_stays_witness :
  unique_fields world /\
  find_entry world 1 = Some count_entry /\
  on_change_with_field_type world count_entry = Some "integer" /\
  is_not_none (PInt 7) = true /\
  is_not_none (PInt 8) = true /\
  set_value [1] "integer" (PInt 7) world
  = (Ret tt, snd (set_value [1] "integer" (PInt 7) world)) /\
  set_value [1] "integer" (PInt 8) (snd (set_value [1] "integer" (PInt 7) world))
  = (Ret tt, snd (set_value [1] "integer" (PInt 8)
                    (snd (set_value [1] "integer" (PInt 7) world)))) /\
  find_entry (snd (set_value [1] "integer" (PInt 8)
                     (snd (set_value [1] "integer" (PInt 7) world)))) 1
  = Some {| e_id := e_id count_entry; e_model := e_model count_entry;
            e_field := e_field count_entry;
            e_default_value := Some (py_str (PInt 8)) |}.
Proof.
  assert (set_value [1] "integer" (PInt 7) world
          = (Ret tt, snd (set_value [1] "integer" (PInt 7) world))) as H1
    by (vm_compute; reflexivity).
  assert (set_value [1] "integer" (PInt 8)
            (snd (set_value [1] "integer" (PInt 7) world))
          = (Ret tt, snd (set_value [1] "integer" (PInt 8)
                            (snd (set_value [1] "integer" (PInt 7) world)))))
    as H2 by (vm_compute; reflexivity).
  do 5 (split; [side|]). split; [exact H1|]. split; [exact H2|].
  exact (the_last_value_stays world _ _ 1 count_entry "integer" (PInt 7)
           (PInt 8) world_unique eq_refl eq_refl eq_refl eq_refl H1 H2).
Defined.

Lemma write_to_a_taken_field_witness :
  find_entry world 1 = Some count_entry /\
  find_entry world 3 = Some priority_entry /\
  1 <> 3 /\
  v_field (to_field 22) = Some 22 /\
  e_field priority_entry = Some 22 /\
  write [([1], to_field 22)] world
  = (Raise (ConstraintError "default_uniq"), world).
Proof.
  do 5 (split; [side|]).
  apply (write_to_a_taken_field world 1 3 count_entry priority_entry 22
           (to_field 22) []); side.
Defined.

Lemma installation_stops_at_the_first_error_witness :
  set_default_values [1; 2; 3] world
  = (Raise (NameError "default_seen"),
     snd (set_default_values [1; 2; 3] world)) /\
  exists pre i post,
    records_of world [1; 2; 3] = pre ++ i :: post /\
    (forall k, In k pre ->
               installed (snd (set_default_values [1; 2; 3] world)) k) /\
    (forall model name,
        ~ key_of world pre model name ->
        provider (snd (set_default_values [1; 2; 3] world)) model name
        = provider world model name).
Proof.
  assert (set_default_values [1; 2; 3] world
          = (Raise (NameError "default_seen"),
             snd (set_default_values [1; 2; 3] world))) as Hrun
    by (vm_compute; reflexivity).
  split; [exact Hrun|].
  exact (installation_stops_at_the_first_error [1; 2; 3] world _ _ Hrun).
Defined.

Lemma the_value_set_is_the_default_witness :
  unique_fields world /\
  find_entry world 1 = Some count_entry /\
  entry_model world count_entry = Some task_model /\
  pool world !! m_model task_model = Some task /\
  entry_field world count_entry = Some count_field /\
  str_all is_ident_char (f_name count_field) = true /\
  in_domain (f_ttype count_field) (PInt 7) /\
  installable (f_ttype count_field) (PInt 7) /\
  exists st' g,
    set_value [1] (f_ttype count_field) (PInt 7) world = (Ret tt, st') /\
    provider st' (m_model task_model) (f_name count_field) = Some g /\
    py_call g = Ret (PInt 7).
Proof.
  do 8 (split; [side|]).
  apply (the_value_set_is_the_default world 1 count_entry task_model task
           count_field (PInt 7)); side.
Defined.

Lemma world_fresh : fresh_ids world.
Proof. repeat constructor. Qed.

Lemma due_is_free : ~ In 13 (omap e_field (table world)).
Proof. simpl. intros [?|[?|[?|[]]]]; lia. Qed.

Lemma march_5_in_domain : in_domain (f_ttype due_field) (PDate (mk_date 2024 3 5)).
Proof. split; reflexivity. Qed.

Lemma march_5_installable :
  installable (f_ttype due_field) (PDate (mk_date 2024 3 5)).
Proof. simpl. lia. Qed.

Lemma a_new_entry_installs_its_value_witness :
  unique_fields world /\
  fresh_ids world /\
  ~ In 13 (omap e_field (table world)) /\
  find_field world 13 = Some due_field /\
  find_model world (f_model due_field) = Some task_model /\
  pool world !! m_model task_model = Some task /\
  exposes_default task due_field = false /\
  is_functional task due_field = false /\
  is_Some (mc_fields task !! f_name due_field) /\
  str_all is_ident_char (f_name due_field) = true /\
  in_domain (f_ttype due_field) (PDate (mk_date 2024 3 5)) /\
  installable (f_ttype due_field) (PDate (mk_date 2024 3 5)) /\
  exists st' g,
    create [ {| v_model := Some (f_model due_field); v_field := Some 13;
                v_default_value := None;
                v_typed := [(f_ttype due_field, PDate (mk_date 2024 3 5))] |} ]
           world
    = (Ret [next_id world], st') /\
    find_entry st' (next_id world)
    = Some {| e_id := next_id world; e_model := Some (f_model due_field);
              e_field := Some 13;
              e_default_value := Some (py_str (PDate (mk_date 2024 3 5))) |} /\
    provider st' (m_model task_model) (f_name due_field) = Some g /\
    py_call g = Ret (PDate (mk_date 2024 3 5)).
Proof.
  assert (is_Some (mc_fields task !! f_name due_field)) as Hfd
    by (eexists; reflexivity).
  split; [exact world_unique|]. split; [exact world_fresh|].
  split; [exact due_is_free|]. do 5 (split; [reflexivity|]).
  split; [exact Hfd|]. split; [reflexivity|].
  split; [exact march_5_in_domain|]. split; [exact march_5_installable|].
  apply (a_new_entry_installs_its_value world 13 due_field task_model task None
           (PDate (mk_date 2024 3 5)));
    first [ reflexivity | exact world_unique | exact world_fresh
          | exact due_is_free | exact Hfd | exact march_5_in_domain
          | exact march_5_installable ].
Defined.

(** X21 on an instance for the field [kind], whose options the method
    [get_kinds] gives: the list holds the letters of the name. *)
Lemma selection_by_method_name_witness :
  entry_field world kind_entry = Some kind_field /\
  find_model world (f_model kind_field) = Some task_model /\
  f_ttype kind_field = "selection" /\
  pool world !! m_model task_model = Some task /\
  mc_fields task !! f_name kind_field = Some (method_field "get_kinds") /\
  get_selection_values world kind_entry
  = Ret (Pair (PNone, "") :: map Single (list_ascii_of_string "get_kinds")) /\
  length (Pair (@PNone zero_only, "")
          :: map Single (list_ascii_of_string "get_kinds"))
  = S (String.length "get_kinds").
Proof.
  do 5 (split; [reflexivity|]).
  destruct (selection_by_method_name world kind_entry kind_field task_model
              task (method_field "get_kinds") eq_refl eq_refl eq_refl eq_refl
              eq_refl) as [Hname _].
  exact (Hname "get_kinds" eq_refl).
Defined.

Lemma origin_is_free : ~ In 25 (omap e_field (table world)).
Proof. simpl. intros [?|[?|[?|[]]]]; lia. Qed.

(** X22 on the field [origin], whose kind is none of the twelve. *)
Lemma create_validates_the_domain_witness :
  unique_fields world /\
  fresh_ids world /\
  v_field (for_field 25 None []) = Some 25 /\
  v_model (for_field 25 None []) = Some 2 /\
  v_typed (for_field 25 None []) = [] /\
  find_field world 25 = Some (task_field 25 "origin" "one2many" "") /\
  fst (check_row (for_field 25 None []) world) = Ret tt /\
  ~ In 25 (omap e_field (table world)) /\
  fst (create [for_field 25 None []] world)
  = Raise (UserError "domain_validation_record" "field") /\
  table (serve (Create [for_field 25 None []]) world) = table world.
Proof.
  split; [exact world_unique|]. split; [exact world_fresh|].
  do 5 (split; [reflexivity|]). split; [exact origin_is_free|].
  destruct (create_validates_the_domain world (for_field 25 None []) 25 2
              (task_field 25 "origin" "one2many" "") world_unique world_fresh
              eq_refl eq_refl eq_refl eq_refl eq_refl origin_is_free)
    as [_ Hout].
  apply Hout. right. reflexivity.
Defined.
